(** * DustLine: a shallow embedding of the traversal, attribution,
      complexity and cost code, with the properties of its specification.

    Conventions of the embedding.
    - Python [int] is [Z].
    - Python [float] is [Q]: arithmetic is exact, so the binary64
      representation error of the interpreter is abstracted away.  Literals
      such as [0.7] are the rationals they denote, and results are compared
      with [Qeq].
    - Python [str] is [string] (a string of bytes; the two non-ASCII dashes
      the code prints are spelled as their UTF-8 bytes).
    - A [dict] whose iteration order is observable is an association list in
      insertion order.
    - [None]-able values are [option]. *)

From Stdlib Require Import ZArith QArith Qround Lia Lqa List String Ascii Bool.
From Stdlib Require Import DecimalString.
Import ListNotations.

(* ================================================================== *)
(** * Python builtins used by the code *)
(* ================================================================== *)

Module Py.

Local Open Scope string_scope.
Local Open Scope Z_scope.

(** Nearest integer, ties to the even neighbour: what [round] and the
    [.0f] / [.0%] format specifications do. *)
Definition round_half_even (x : Q) : Z :=
  let f := Qfloor x in
  match (x - inject_Z f ?= 1 # 2)%Q with
  | Lt => f
  | Gt => f + 1
  | Eq => if Z.even f then f else f + 1
  end.

(** [round(x, ndigits)] for a float [x] and [ndigits >= 0]. *)
Definition round (x : Q) (ndigits : nat) : Q :=
  let scale := inject_Z (10 ^ Z.of_nat ndigits) in
  (inject_Z (round_half_even (x * scale)) / scale)%Q.

(** [str(n)] for an int. *)
Definition str_int (n : Z) : string := NilZero.string_of_int (Z.to_int n).

(** Digits of a natural number grouped by three with commas, as the [,]
    format option does. *)
Fixpoint group3 (fuel : nat) (n : Z) : string :=
  match fuel with
  | O => str_int n
  | S fuel' =>
      if n <? 1000 then str_int n
      else
        let r := n mod 1000 in
        let pad := if r <? 10 then "00" else if r <? 100 then "0" else EmptyString in
        (group3 fuel' (n / 1000) ++ "," ++ pad ++ str_int r)%string
  end.

(** [f"{n:,}"] for an int. *)
Definition fmt_int_commas (n : Z) : string :=
  if n <? 0
  then ("-" ++ group3 (Z.to_nat (- n)) (- n))%string
  else group3 (Z.to_nat n) n.

(** [f"{x:,.0f}"] for a float (a negative value that rounds to zero prints
    without the sign the interpreter would keep). *)
Definition fmt_float_commas0 (x : Q) : string :=
  fmt_int_commas (round_half_even x).

(** [f"{x:.0%}"] for a float. *)
Definition fmt_percent0 (x : Q) : string :=
  (str_int (round_half_even (x * 100)) ++ "%")%string.

(** [s[:k]] on a list, for any int [k] (a negative [k] counts from the
    end). *)
Definition slice_to {A} (l : list A) (k : Z) : list A :=
  if k <? 0
  then firstn (Z.to_nat (Z.max 0 (Z.of_nat (List.length l) + k))) l
  else firstn (Z.to_nat k) l.

(** [dict.get(k, default)] on an association list. *)
Fixpoint dict_get {V} (d : list (string * V)) (k : string) : option V :=
  match d with
  | [] => None
  | (k', v) :: d' => if String.eqb k' k then Some v else dict_get d' k
  end.

(** [d[k] = v]: update in place when the key is present, append
    otherwise. *)
Fixpoint dict_set {V} (d : list (string * V)) (k : string) (v : V)
  : list (string * V) :=
  match d with
  | [] => [(k, v)]
  | (k', v') :: d' =>
      if String.eqb k' k then (k', v) :: d' else (k', v') :: dict_set d' k v
  end.

Definition dict_mem {V} (d : list (string * V)) (k : string) : bool :=
  match dict_get d k with Some _ => true | None => false end.

(** UTF-8 bytes of U+2013 and U+2014. *)
Definition en_dash : string :=
  String "226"%char (String "128"%char (String "147"%char EmptyString)).
Definition em_dash : string :=
  String "226"%char (String "128"%char (String "148"%char EmptyString)).

(** A JSON document as [resp.json()] returns it; [JNull] is [None]. *)
#[warnings="-register-all"]
Inductive json :=
| JNull
| JBool (b : bool)
| JNum (q : Q)
| JStr (s : string)
| JList (l : list json)
| JDict (d : list (string * json)).

(** Truth value of a Python object. *)
Definition truthy (j : json) : bool :=
  match j with
  | JNull => false
  | JBool b => b
  | JNum q => negb (Qeq_bool q 0)
  | JStr s => negb (String.eqb s EmptyString)
  | JList l => match l with [] => false | _ => true end
  | JDict d => match d with [] => false | _ => true end
  end.

(** [x is not None] *)
Definition is_not_none (j : json) : bool :=
  match j with JNull => false | _ => true end.

(** [a or b] *)
Definition py_or (a b : json) : json := if truthy a then a else b.

(** Characters [str.strip()] removes, among the ASCII ones. *)
Definition isspace (c : ascii) : bool :=
  let n := nat_of_ascii c in
  ((9 <=? n) && (n <=? 13) || (28 <=? n) && (n <=? 32))%nat.

Fixpoint lstrip_chars (l : list ascii) : list ascii :=
  match l with
  | [] => []
  | c :: l' => if isspace c then lstrip_chars l' else l
  end.

(** [s.strip()] *)
Definition strip (s : string) : string :=
  string_of_list_ascii
    (rev (lstrip_chars (rev (lstrip_chars (list_ascii_of_string s))))).

End Py.

(* ================================================================== *)
(** * core/__init__.py: the data model *)
(* ================================================================== *)

Module Core.

Local Open Scope string_scope.
Local Open Scope Z_scope.

Inductive ScriptType :=
| P2PKH | P2SH | P2WPKH | P2WSH | P2TR | UNKNOWN.

Definition ScriptType_eqb (a b : ScriptType) : bool :=
  match a, b with
  | P2PKH, P2PKH | P2SH, P2SH | P2WPKH, P2WPKH
  | P2WSH, P2WSH | P2TR, P2TR | UNKNOWN, UNKNOWN => true
  | _, _ => false
  end.

(** [ScriptType.value] *)
Definition ScriptType_value (s : ScriptType) : string :=
  match s with
  | P2PKH => "p2pkh" | P2SH => "p2sh" | P2WPKH => "p2wpkh"
  | P2WSH => "p2wsh" | P2TR => "p2tr" | UNKNOWN => "unknown"
  end.

(** The table of [ScriptType.from_esplora]. *)
Definition esplora_mapping : list (string * ScriptType) :=
  [ ("p2pkh", P2PKH);
    ("p2sh", P2SH);
    ("v0_p2wpkh", P2WPKH);
    ("v0_p2wsh", P2WSH);
    ("v1_p2tr", P2TR) ].

(** [ScriptType.from_esplora]: [mapping.get(scriptpubkey_type, UNKNOWN)]. *)
Definition from_esplora (scriptpubkey_type : string) : ScriptType :=
  match Py.dict_get esplora_mapping scriptpubkey_type with
  | Some st => st
  | None => UNKNOWN
  end.

Inductive PrivacyFloor :=
| TRACEABLE | COSTLY | EXPENSIVE | HIGH_FLOOR | IMPRACTICAL.

Inductive TxPattern :=
| CONSOLIDATION | PEEL_CHAIN | FAN_OUT | COINJOIN | SIMPLE.

Record TxInput := mkTxInput {
  prev_txid : string;
  prev_vout : Z;
  in_address : option string;
  in_value_sat : Z;
  in_script_type : ScriptType
}.

Record TxOutput := mkTxOutput {
  out_address : option string;
  value_sat : Z;
  out_script_type : ScriptType;
  spent : bool;
  spending_txid : option string
}.

Record GraphNode := mkGraphNode {
  txid : string;
  inputs : list TxInput;
  outputs : list TxOutput;
  fee_sat : Z;
  size_bytes : Z;
  weight : Z;
  timestamp : option Z;
  block_height : option Z;
  depth : Z;
  is_coinbase : bool;
  rbf_signaled : bool;
  resolved : bool;
  attributed_entities : list (string * Py.json)
}.

Record GraphEdge := mkGraphEdge {
  from_txid : string;
  to_txid : string;
  edge_address : option string;
  edge_value_sat : Z;
  vout_index : Z
}.

(** [entity] is declared [str]; it holds the JSON leaf an oracle returned,
    whatever its type. *)
Record AttributionResult := mkAttributionResult {
  ar_address : string;
  entity : Py.json;
  source : string;
  category : string;
  ar_confidence : string
}.

Record AttributionSummary := mkAttributionSummary {
  sum_total_addresses : Z;
  attributed_count : Z;
  by_source : list (string * Z);
  by_category : list (string * Z);
  coverage_rate : Q;
  sources_used : list string
}.

Record GraphResult := mkGraphResult {
  root_input : string;
  root_txid : string;
  nodes : list (string * GraphNode);
  edges : list GraphEdge;
  addresses_seen : list string;
  max_depth_reached : Z;
  requested_max_depth : Z;
  node_limit_hit : bool;
  unresolved_count : Z;
  is_dormant : bool;
  dormancy_note : string;
  api_provider_used : string;
  we_addresses_queried : Z;
  we_addresses_total_unmatched : Z;
  warnings : list string;
  attribution_results : list AttributionResult;
  attribution_summary : option AttributionSummary
}.

(** [GraphResult(root_input=..., root_txid=...)] with the dataclass
    defaults. *)
Definition new_GraphResult (root_input root_txid : string) : GraphResult :=
  {| root_input := root_input;
     root_txid := root_txid;
     nodes := [];
     edges := [];
     addresses_seen := [];
     max_depth_reached := 0;
     requested_max_depth := 0;
     node_limit_hit := false;
     unresolved_count := 0;
     is_dormant := false;
     dormancy_note := EmptyString;
     api_provider_used := "mempool";
     we_addresses_queried := 0;
     we_addresses_total_unmatched := 0;
     warnings := [];
     attribution_results := [];
     attribution_summary := None |}.

Record ComplexityMetrics := mkComplexityMetrics {
  node_count : Z;
  edge_count : Z;
  unique_addresses : Z;
  max_depth : Z;
  avg_branch_factor : Q;
  max_branch_factor : Z;
  attribution_rate : Q;
  attributed_addresses : Z;
  total_addresses : Z;
  mixing_signals : Z;
  mixing_txids : list string;
  coinjoin_detected : bool;
  taproot_ratio : Q;
  unresolved_paths : Z;
  addresses_checked : Z;
  unattributed_addresses : Z;
  sources_exhausted : bool;
  avg_fan_in : Q;
  max_fan_in : Z;
  root_pattern : option TxPattern;
  root_pattern_detail : string;
  script_type_counts : list (string * Z);
  total_value_sat : Z
}.

(** [ComplexityMetrics(...)] given its ten required fields; the other
    thirteen take the defaults the dataclass declares. *)
Definition new_ComplexityMetrics
  (node_count edge_count unique_addresses max_depth : Z)
  (avg_branch_factor : Q) (max_branch_factor : Z) (attribution_rate : Q)
  (attributed_addresses total_addresses mixing_signals : Z)
  : ComplexityMetrics :=
  {| node_count := node_count;
     edge_count := edge_count;
     unique_addresses := unique_addresses;
     max_depth := max_depth;
     avg_branch_factor := avg_branch_factor;
     max_branch_factor := max_branch_factor;
     attribution_rate := attribution_rate;
     attributed_addresses := attributed_addresses;
     total_addresses := total_addresses;
     mixing_signals := mixing_signals;
     mixing_txids := [];
     coinjoin_detected := false;
     taproot_ratio := 0;
     unresolved_paths := 0;
     addresses_checked := 0;
     unattributed_addresses := 0;
     sources_exhausted := false;
     avg_fan_in := 1;
     max_fan_in := 1;
     root_pattern := None;
     root_pattern_detail := EmptyString;
     script_type_counts := [];
     total_value_sat := 0 |}.

Record TierEstimate := mkTierEstimate {
  tier_name : string;
  hourly_rate : Q;
  tooling_overhead : Q;
  estimated_hours_low : Q;
  estimated_hours_high : Q;
  total_low : Q;
  total_high : Q
}.

Record CostEstimate := mkCostEstimate {
  tiers : list TierEstimate;
  base_hours_per_hop : Q;
  total_hops : Z;
  mixing_multiplier : Q;
  branching_multiplier : Q;
  taproot_multiplier : Q;
  fan_in_multiplier : Q;
  unresolved_hours : Q;
  privacy_floor : PrivacyFloor;
  privacy_floor_summary : string;
  confidence : string;
  confidence_note : string;
  minimum_case_threshold_note : option string
}.

End Core.

(* ================================================================== *)
(** * core/cost_model.py *)
(* ================================================================== *)

Module CostModel.

Import Core.
Local Open Scope string_scope.
Local Open Scope Q_scope.

(** [x < y] on floats, as a boolean. *)
Definition Qltb (x y : Q) : bool := negb (Qle_bool y x).

(** [float(n)] for an int. *)
Definition float (n : Z) : Q := inject_Z n.

Record TierDef := mkTierDef {
  name : string;
  rate : Q;
  tooling : Q
}.

Definition TIERS : list TierDef :=
  [ {| name := "Mid-level analyst"; rate := 200; tooling := 0 |};
    {| name := "Senior specialist"; rate := 450; tooling := 150 |};
    {| name := "Litigation expert"; rate := 1000; tooling := 150 |} ].

Definition BASE_TIME_THRESHOLDS : list (Q * Z) :=
  [ (7 # 10, 12%Z); (4 # 10, 45%Z); (1 # 10, 180%Z); (0, 480%Z) ].

Definition MIXING_MULTIPLIER : Q := 35 # 10.
Definition TAPROOT_THRESHOLD : Q := 5 # 10.
Definition TAPROOT_MULTIPLIER : Q := 14 # 10.
Definition UNRESOLVED_HOURS_EACH : Q := 8.
Definition HIGH_ESTIMATE_FACTOR : Q := 16 # 10.

Definition FLOOR_THRESHOLDS : list (Q * PrivacyFloor) :=
  [ (500, TRACEABLE); (5000, COSTLY); (50000, EXPENSIVE);
    (500000, HIGH_FLOOR) ].

Definition MINIMUM_CASE_THRESHOLD : Z := 5000.

(** The loop of [_base_time_per_hop]: the minutes of the first threshold the
    rate is strictly above. *)
Fixpoint first_threshold_below (attribution_rate : Q) (l : list (Q * Z))
  : option Z :=
  match l with
  | [] => None
  | (threshold, minutes) :: l' =>
      if Qltb threshold attribution_rate then Some minutes
      else first_threshold_below attribution_rate l'
  end.

Definition _base_time_per_hop (attribution_rate : Q) : Q :=
  match first_threshold_below attribution_rate BASE_TIME_THRESHOLDS with
  | Some minutes => float minutes
  | None => float (snd (last BASE_TIME_THRESHOLDS (0, 0%Z)))
  end.

Fixpoint first_floor_above (reference_cost_usd : Q)
  (l : list (Q * PrivacyFloor)) : option PrivacyFloor :=
  match l with
  | [] => None
  | (threshold, floor) :: l' =>
      if Qltb reference_cost_usd threshold then Some floor
      else first_floor_above reference_cost_usd l'
  end.

Definition _classify_floor (reference_cost_usd : Q) : PrivacyFloor :=
  match first_floor_above reference_cost_usd FLOOR_THRESHOLDS with
  | Some floor => floor
  | None => IMPRACTICAL
  end.

Definition _floor_summary (floor : PrivacyFloor) (senior : TierEstimate)
  : string :=
  let cost_range :=
    "$" ++ Py.fmt_float_commas0 (total_low senior) ++ Py.en_dash
        ++ "$" ++ Py.fmt_float_commas0 (total_high senior) in
  match floor with
  | TRACEABLE =>
      cost_range ++ " for senior analyst. "
        ++ "Any motivated party can afford this trace."
  | COSTLY =>
      cost_range ++ " for senior analyst. "
        ++ "Viable for law enforcement, out of reach for most private actors."
  | EXPENSIVE =>
      cost_range ++ " for senior analyst. "
        ++ "Requires significant financial motivation. "
        ++ "Out of reach for most private actors."
  | HIGH_FLOOR =>
      cost_range ++ " for senior analyst. "
        ++ "Only justified by very large amounts at stake."
  | IMPRACTICAL =>
      cost_range ++ " for senior analyst. "
        ++ "Economically invisible to all but nation-state actors."
  end.

(** The guard of [compute_cost]: [max_depth == 0 and node_count <= 1]. *)
Definition zero_hop (metrics : ComplexityMetrics) : bool :=
  (max_depth metrics =? 0)%Z && (node_count metrics <=? 1)%Z.

Definition zero_tier (t : TierDef) : TierEstimate :=
  {| tier_name := name t;
     hourly_rate := rate t;
     tooling_overhead := tooling t;
     estimated_hours_low := 0;
     estimated_hours_high := 0;
     total_low := 0;
     total_high := 0 |}.

(** The body of the per-tier loop. *)
Definition tier_estimate (hours_low hours_high : Q) (tier_def : TierDef)
  : TierEstimate :=
  let effective_rate := rate tier_def + tooling tier_def in
  {| tier_name := name tier_def;
     hourly_rate := rate tier_def;
     tooling_overhead := tooling tier_def;
     estimated_hours_low := Py.round hours_low 1;
     estimated_hours_high := Py.round hours_high 1;
     total_low := Py.round (hours_low * effective_rate) 0;
     total_high := Py.round (hours_high * effective_rate) 0 |}.

Definition grade_confidence (coverage_rate : Q) (unresolved_paths : Z)
  : string :=
  if Qle_bool (7 # 10) coverage_rate && (unresolved_paths =? 0)%Z then "high"
  else if Qle_bool (4 # 10) coverage_rate then "moderate"
  else if Qle_bool (1 # 10) coverage_rate then "low"
  else "very low".

Definition compute_cost (metrics : ComplexityMetrics) : CostEstimate :=
  if zero_hop metrics then
    let zero_tiers := map zero_tier TIERS in
    {| tiers := zero_tiers;
       base_hours_per_hop := 0;
       total_hops := 0;
       mixing_multiplier := 1;
       branching_multiplier := 1;
       taproot_multiplier := 1;
       fan_in_multiplier := 1;
       unresolved_hours := 0;
       privacy_floor := TRACEABLE;
       privacy_floor_summary :=
         "No tracing required " ++ Py.em_dash
           ++ " single node with no outgoing activity.";
       confidence := "high";
       confidence_note := EmptyString;
       minimum_case_threshold_note := None |}
  else
    let base_minutes := _base_time_per_hop (attribution_rate metrics) in
    let base_hours_per_hop := base_minutes / 60 in
    let mixing_mult :=
      if coinjoin_detected metrics then MIXING_MULTIPLIER else 1 in
    let branching_mult :=
      if Qltb 5 (avg_branch_factor metrics)
      then avg_branch_factor metrics / 5 else 1 in
    let taproot_mult :=
      if Qltb TAPROOT_THRESHOLD (taproot_ratio metrics)
      then TAPROOT_MULTIPLIER else 1 in
    let fan_in_mult :=
      if Qltb 5 (avg_fan_in metrics) then avg_fan_in metrics / 5 else 1 in
    let effective_mult :=
      mixing_mult * branching_mult * taproot_mult * fan_in_mult in
    let total_hops := Z.max (max_depth metrics) 1 in
    let base_total := base_hours_per_hop * float total_hops * effective_mult in
    let unresolved_hours :=
      float (unresolved_paths metrics) * UNRESOLVED_HOURS_EACH in
    let hours_low := base_total in
    let hours_high := base_total * HIGH_ESTIMATE_FACTOR + unresolved_hours in
    let tiers := map (tier_estimate hours_low hours_high) TIERS in
    let senior := nth 1 tiers (zero_tier (mkTierDef EmptyString 0 0)) in
    let reference_cost := (total_low senior + total_high senior) / 2 in
    let privacy_floor := _classify_floor reference_cost in
    let summary := _floor_summary privacy_floor senior in
    let coverage_rate := attribution_rate metrics in
    let confidence :=
      grade_confidence coverage_rate (unresolved_paths metrics) in
    let confidence :=
      if sources_exhausted metrics
         && (String.eqb confidence "low" || String.eqb confidence "very low")
      then "moderate" else confidence in
    let confidence_note :=
      if Qltb coverage_rate (4 # 10) && (0 <? total_addresses metrics)%Z then
        let attributed := attributed_addresses metrics in
        let total := total_addresses metrics in
        if sources_exhausted metrics then
          "Only " ++ Py.fmt_percent0 coverage_rate
            ++ " of addresses attributed "
            ++ "(" ++ Py.str_int attributed ++ "/" ++ Py.str_int total ++ "). "
            ++ "Unattributed addresses may include unlabeled exchange "
            ++ "or service nodes. "
            ++ "Add --arkham-key for better bech32/taproot coverage."
        else
          "Only " ++ Py.fmt_percent0 coverage_rate
            ++ " of addresses attributed "
            ++ "(" ++ Py.str_int attributed ++ "/" ++ Py.str_int total ++ "). "
            ++ "Cost estimate may be significantly overstated if unattributed "
            ++ "addresses include exchange or service nodes. "
            ++ "Run with --thorough to check all addresses."
      else EmptyString in
    let threshold_note :=
      if Qltb (total_high senior) (float MINIMUM_CASE_THRESHOLD) then
        Some ("Most forensic firms require a minimum $"
                ++ Py.fmt_int_commas MINIMUM_CASE_THRESHOLD
                ++ " investigation value (A&D Forensics, confirmed public).")
      else None in
    {| tiers := tiers;
       base_hours_per_hop := base_hours_per_hop;
       total_hops := total_hops;
       mixing_multiplier := mixing_mult;
       branching_multiplier := Py.round branching_mult 2;
       taproot_multiplier := taproot_mult;
       fan_in_multiplier := Py.round fan_in_mult 2;
       unresolved_hours := unresolved_hours;
       privacy_floor := privacy_floor;
       privacy_floor_summary := summary;
       confidence := confidence;
       confidence_note := confidence_note;
       minimum_case_threshold_note := threshold_note |}.

End CostModel.


(* ================================================================== *)
(** * core/complexity.py *)
(* ================================================================== *)

Module Complexity.

Import Core.
Local Open Scope string_scope.
Local Open Scope Z_scope.

Definition WASABI_V1_DENOMINATIONS : list Z := [10000000].
Definition WHIRLPOOL_DENOMINATIONS : list Z :=
  [100000; 1000000; 2500000; 5000000; 25000000; 50000000].
Definition ALL_KNOWN_DENOMINATIONS : list Z :=
  (WASABI_V1_DENOMINATIONS ++ WHIRLPOOL_DENOMINATIONS)%list.

Definition MIN_EQUAL_OUTPUTS_FOR_COINJOIN : Z := 5.

(** [len(...)] as an int. *)
Definition len {A} (l : list A) : Z := Z.of_nat (List.length l).

(** [v in s] for a set of ints. *)
Definition mem (v : Z) (s : list Z) : bool := existsb (Z.eqb v) s.

(** One step of building a [Counter]: [c[v] = c.get(v, 0) + 1]; a new key
    goes last, an old key keeps its place. *)
Fixpoint counter_incr (c : list (Z * Z)) (v : Z) : list (Z * Z) :=
  match c with
  | [] => [(v, 1)]
  | (k, n) :: c' =>
      if k =? v then (k, n + 1) :: c' else (k, n) :: counter_incr c' v
  end.

(** [Counter(iterable)]: keys in order of first occurrence. *)
Definition Counter (l : list Z) : list (Z * Z) := fold_left counter_incr l [].

(** [c.most_common(1)]: [max(items, key=count)], the first item of maximal
    count; empty on an empty counter. *)
Definition most_common_1 (c : list (Z * Z)) : list (Z * Z) :=
  match c with
  | [] => []
  | x :: c' =>
      [fold_left (fun best y => if snd best <? snd y then y else best) c' x]
  end.

(** [Counter(out.value_sat for out in outputs if out.value_sat > 0)] *)
Definition value_counts_of (outputs : list TxOutput) : list (Z * Z) :=
  Counter (map value_sat (filter (fun out => 0 <? value_sat out) outputs)).

Definition _is_coinjoin (node : GraphNode) : bool :=
  let outputs := outputs node in
  if len outputs <? MIN_EQUAL_OUTPUTS_FOR_COINJOIN then false
  else
    let value_counts := value_counts_of outputs in
    match most_common_1 value_counts with
    | [] => false
    | (most_common_value, most_common_count) :: _ =>
        if existsb
             (fun vc => (3 <=? snd vc) && mem (fst vc) ALL_KNOWN_DENOMINATIONS)
             value_counts
        then true
        else if (MIN_EQUAL_OUTPUTS_FOR_COINJOIN <=? most_common_count)
                && CostModel.Qltb (5 # 10)
                     (inject_Z most_common_count / inject_Z (len outputs))
        then true
        else
          let equal_groups :=
            len (filter (fun vc => 3 <=? snd vc) value_counts) in
          if 3 <=? equal_groups then true else false
    end.

(** UTF-8 bytes of U+2192. *)
Definition right_arrow : string :=
  String "226"%char (String "134"%char (String "146"%char EmptyString)).

Definition _classify_tx_pattern (node : GraphNode) (is_coinjoin : bool)
  : TxPattern * string :=
  let n_in := len (inputs node) in
  let n_out := len (outputs node) in
  let detail :=
    Py.str_int n_in ++ "-in " ++ right_arrow ++ " " ++ Py.str_int n_out
      ++ "-out" in
  if is_coinjoin then (COINJOIN, detail)
  else if (5 <=? n_in) && (n_out <=? 2) then (CONSOLIDATION, detail)
  else if (n_in <=? 2) && (n_out =? 2) then (PEEL_CHAIN, detail)
  else if (n_in <=? 3) && (5 <=? n_out) then (FAN_OUT, detail)
  else (SIMPLE, detail).

Definition _empty_metrics : ComplexityMetrics :=
  new_ComplexityMetrics 0 0 0 0 0 0 0 0 0 0.

(** Truth value of an [Optional[str]]: neither [None] nor empty. *)
Definition truthy_str (s : option string) : bool :=
  match s with
  | Some s' => negb (String.eqb s' EmptyString)
  | None => false
  end.

Definition sum (l : list Z) : Z := fold_left Z.add l 0.

(** [max(l)] of a non-empty list ([0] stands for the error on an empty
    one, which the callers exclude). *)
Definition max_list (l : list Z) : Z :=
  match l with
  | [] => 0
  | x :: l' => fold_left Z.max l' x
  end.

(** [len(set(l))] for strings. *)
Definition len_set (l : list string) : Z := len (nodup string_dec l).

Definition script_types_of (node : GraphNode) : list ScriptType :=
  (map in_script_type (filter (fun inp => truthy_str (in_address inp)) (inputs node))
   ++ map out_script_type
        (filter (fun out => truthy_str (out_address out)) (outputs node)))%list.

Definition count_script (d : list (string * Z)) (st : ScriptType)
  : list (string * Z) :=
  let k := ScriptType_value st in
  Py.dict_set d k
    (match Py.dict_get d k with Some n => n | None => 0 end + 1).

Definition compute_complexity (graph : GraphResult) : ComplexityMetrics :=
  let nodes := map snd (nodes graph) in
  match nodes with
  | [] => _empty_metrics
  | _ :: _ =>
      let node_count := len nodes in
      let edge_count := len (edges graph) in
      let unique_addresses := len_set (addresses_seen graph) in
      let max_depth := max_depth_reached graph in
      let output_counts :=
        map (fun n => len (outputs n)) (filter resolved nodes) in
      let avg_branch :=
        match output_counts with
        | [] => 1%Q
        | _ => (inject_Z (sum output_counts) / inject_Z (len output_counts))%Q
        end in
      let max_branch :=
        match output_counts with [] => 1 | _ => max_list output_counts end in
      let input_counts :=
        map (fun n => len (inputs n))
            (filter (fun n => resolved n && negb (is_coinbase n)) nodes) in
      let avg_fan_in :=
        match input_counts with
        | [] => 1%Q
        | _ => (inject_Z (sum input_counts) / inject_Z (len input_counts))%Q
        end in
      let max_fan_in :=
        match input_counts with [] => 1 | _ => max_list input_counts end in
      let attributed :=
        flat_map (fun node => map fst (attributed_entities node)) nodes in
      let attributed_count := len_set attributed in
      let total_addr := Z.max unique_addresses 1 in
      let attribution_rate :=
        (inject_Z attributed_count / inject_Z total_addr)%Q in
      let '(addresses_checked, unattributed_addresses) :=
        match attribution_summary graph with
        | Some summary =>
            (sum_total_addresses summary,
             sum_total_addresses summary - Core.attributed_count summary)
        | None =>
            (attributed_count + we_addresses_queried graph,
             unique_addresses - attributed_count)
        end in
      let mixing_txids :=
        map txid (filter (fun node => resolved node && _is_coinjoin node) nodes) in
      let mixing_signals := len mixing_txids in
      let coinjoin_detected := 0 <? mixing_signals in
      let '(root_pattern, root_pattern_detail) :=
        match Py.dict_get (Core.nodes graph) (root_txid graph) with
        | Some root_node =>
            if resolved root_node then
              let is_root_coinjoin :=
                coinjoin_detected
                && existsb (String.eqb (txid root_node)) mixing_txids in
              let '(p, d) := _classify_tx_pattern root_node is_root_coinjoin in
              (Some p, d)
            else (None, EmptyString)
        | None => (None, EmptyString)
        end in
      let all_script_types :=
        flat_map script_types_of (filter resolved nodes) in
      let taproot_count :=
        len (filter (fun st => ScriptType_eqb st P2TR) all_script_types) in
      let taproot_ratio :=
        match all_script_types with
        | [] => 0%Q
        | _ => (inject_Z taproot_count / inject_Z (len all_script_types))%Q
        end in
      let script_counts := fold_left count_script all_script_types [] in
      let unresolved := len (filter (fun n => negb (resolved n)) nodes) in
      let total_value :=
        sum (flat_map (fun node => map value_sat (outputs node))
                      (filter resolved nodes)) in
      let sources_exhausted :=
        we_addresses_total_unmatched graph <=? we_addresses_queried graph in
      {| node_count := node_count;
         edge_count := edge_count;
         unique_addresses := unique_addresses;
         max_depth := max_depth;
         avg_branch_factor := Py.round avg_branch 2;
         max_branch_factor := max_branch;
         attribution_rate := Py.round attribution_rate 4;
         attributed_addresses := attributed_count;
         total_addresses := unique_addresses;
         mixing_signals := mixing_signals;
         mixing_txids := mixing_txids;
         coinjoin_detected := coinjoin_detected;
         taproot_ratio := Py.round taproot_ratio 4;
         unresolved_paths := unresolved;
         addresses_checked := addresses_checked;
         unattributed_addresses := unattributed_addresses;
         sources_exhausted := sources_exhausted;
         avg_fan_in := Py.round avg_fan_in 2;
         max_fan_in := max_fan_in;
         root_pattern := root_pattern;
         root_pattern_detail := root_pattern_detail;
         script_type_counts := script_counts;
         total_value_sat := total_value |}
  end.

End Complexity.

(* ================================================================== *)
(** * The HTTP client and the limiters, as a state and exception monad *)
(* ================================================================== *)

Module Http.

Import Py.
Local Open Scope string_scope.
Local Open Scope Z_scope.

Record Response := mkResponse {
  status_code : Z;
  body : option json   (* [None]: the body is not JSON, [resp.json()] raises *)
}.

(** What one [client.get] does: it returns a response, or raises (timeout,
    transport error). *)
Inductive Outcome :=
| Responded (r : Response)
| Failed.

Inductive Event :=
| EvAcquire (limiter : string)
| EvRelease (limiter : string)
| EvGet (url : string) (params headers : list (string * string))
| EvSleep (seconds : Q).

(** The upstream is a script of outcomes, consumed one per request; the
    trace records, in order, what the program did.  A limiter is seen
    through its two events: the waiting its token bucket imposes is real
    time and has no counterpart here. *)
Record World := mkWorld {
  pending : list Outcome;
  trace : list Event
}.

Inductive Result (A : Type) :=
| Ok (a : A)
| Raise.
Arguments Ok {A} a.
Arguments Raise {A}.

Definition M (A : Type) : Type := World -> Result A * World.

Definition ret {A} (a : A) : M A := fun w => (Ok a, w).

Definition bind {A B} (m : M A) (k : A -> M B) : M B :=
  fun w =>
    match m w with
    | (Ok a, w') => k a w'
    | (Raise, w') => (Raise, w')
    end.

Definition raise {A} : M A := fun w => (Raise, w).

(** [try: m  except Exception: handler] *)
Definition try_except {A} (m handler : M A) : M A :=
  fun w =>
    match m w with
    | (Ok a, w') => (Ok a, w')
    | (Raise, w') => handler w'
    end.

Definition emit (e : Event) : M unit :=
  fun w => (Ok tt, {| pending := pending w; trace := (trace w ++ [e])%list |}).

(** [await client.get(url, params=..., headers=...)] *)
Definition client_get (url : string) (params headers : list (string * string))
  : M Response :=
  fun w =>
    let tr := (trace w ++ [EvGet url params headers])%list in
    match pending w with
    | Responded r :: rest => (Ok r, {| pending := rest; trace := tr |})
    | Failed :: rest => (Raise, {| pending := rest; trace := tr |})
    | [] => (Raise, {| pending := []; trace := tr |})
    end.

(** [await asyncio.sleep(seconds)] *)
Definition sleep (seconds : Q) : M unit := emit (EvSleep seconds).

(** [async with limiter: m]: the slot is released on every exit. *)
Definition with_limiter {A} (limiter : string) (m : M A) : M A :=
  fun w =>
    match emit (EvAcquire limiter) w with
    | (_, w1) =>
        match m w1 with
        | (r, w2) =>
            match emit (EvRelease limiter) w2 with
            | (_, w3) => (r, w3)
            end
        end
    end.

(** [resp.raise_for_status()]: raises unless the status is 2xx. *)
Definition raise_for_status (resp : Response) : M unit :=
  if (200 <=? status_code resp) && (status_code resp <? 300)
  then ret tt else raise.

(** [resp.json()] *)
Definition json_of (resp : Response) : M json :=
  match body resp with
  | Some j => ret j
  | None => raise
  end.

(** Lifting of a pure computation that may raise. *)
Definition lift {A} (r : Result A) : M A := fun w => (r, w).

Module Notations.
  Notation "x <- c1 ;; c2" := (bind c1 (fun x => c2))
    (at level 61, c1 at next level, right associativity).
  Notation "c1 ;;; c2" := (bind c1 (fun _ => c2))
    (at level 61, right associativity).
End Notations.

End Http.

(* ================================================================== *)
(** * core/graph.py: target resolution and the provider client *)
(* ================================================================== *)

Module Graph.

Import Py Core Http Http.Notations.
Local Open Scope string_scope.
Local Open Scope Z_scope.

Definition MEMPOOL_BASE : string := "https://mempool.space/api".
Definition BLOCKSTREAM_BASE : string := "https://blockstream.info/api".

(** The limiters are named by the provider they guard. *)
Definition MEMPOOL_LIMITER : string := "mempool".
Definition BLOCKSTREAM_LIMITER : string := "blockstream".

Definition in_range (lo hi c : ascii) : bool :=
  (nat_of_ascii lo <=? nat_of_ascii c)%nat
  && (nat_of_ascii c <=? nat_of_ascii hi)%nat.

(** [[0-9a-fA-F]] *)
Definition is_hex (c : ascii) : bool :=
  in_range "0" "9" c || in_range "a" "f" c || in_range "A" "F" c.

(** [[a-zA-Z0-9]] *)
Definition is_alnum (c : ascii) : bool :=
  in_range "a" "z" c || in_range "A" "Z" c || in_range "0" "9" c.

Definition newline : ascii := "010"%char.

(** A class repeated between [lo] and [hi] times and then [$], matched
    against all that is left of the subject: [$] matches at the end and
    before one final newline. *)
Definition match_class_to_end (cls : ascii -> bool) (lo hi : nat)
  (rest : list ascii) : bool :=
  let run (l : list ascii) :=
    forallb cls l && (lo <=? List.length l)%nat && (List.length l <=? hi)%nat in
  run rest
  || match rev rest with
     | c :: r => Ascii.eqb c newline && run (rev r)
     | [] => false
     end.

(** [TXID_PATTERN.match(s)] for [^[0-9a-fA-F]{64}$] *)
Definition TXID_PATTERN_match (s : string) : bool :=
  match_class_to_end is_hex 64 64 (list_ascii_of_string s).

(** What is left of [l] after the literal [p], when [l] starts with it. *)
Fixpoint strip_prefix (p l : list ascii) : option (list ascii) :=
  match p, l with
  | [], _ => Some l
  | a :: p', b :: l' => if Ascii.eqb a b then strip_prefix p' l' else None
  | _ :: _, [] => None
  end.

Definition ADDRESS_PREFIXES : list string := ["1"; "3"; "bc1"].

(** [ADDRESS_PATTERN.match(s)] for [^(1|3|bc1)[a-zA-Z0-9]{25,62}$]: some
    alternative of the group is followed by a match of the rest. *)
Definition ADDRESS_PATTERN_match (s : string) : bool :=
  existsb
    (fun p =>
       match strip_prefix (list_ascii_of_string p) (list_ascii_of_string s) with
       | Some rest => match_class_to_end is_alnum 25 62 rest
       | None => false
       end)
    ADDRESS_PREFIXES.

Definition _fetch_tx (base_url limiter txid : string) : M json :=
  with_limiter limiter
    (try_except
       (resp <- client_get (base_url ++ "/tx/" ++ txid) [] [] ;;
        if status_code resp =? 404 then ret JNull
        else
          resp <- (if status_code resp =? 429
                   then sleep 2 ;;;
                        client_get (base_url ++ "/tx/" ++ txid) [] []
                   else ret resp) ;;
          raise_for_status resp ;;;
          json_of resp)
       (ret JNull)).

Definition _fetch_tx_with_fallback (txid : string) : M json :=
  data <- _fetch_tx MEMPOOL_BASE MEMPOOL_LIMITER txid ;;
  if is_not_none data then ret data
  else _fetch_tx BLOCKSTREAM_BASE BLOCKSTREAM_LIMITER txid.

Definition _fetch_outspends (base_url limiter txid : string) : M json :=
  with_limiter limiter
    (try_except
       (resp <- client_get (base_url ++ "/tx/" ++ txid ++ "/outspends") [] [] ;;
        if status_code resp =? 404 then ret JNull
        else
          raise_for_status resp ;;;
          json_of resp)
       (ret JNull)).

Definition _fetch_outspends_with_fallback (txid : string) : M json :=
  data <- _fetch_outspends MEMPOOL_BASE MEMPOOL_LIMITER txid ;;
  if is_not_none data then ret data
  else _fetch_outspends BLOCKSTREAM_BASE BLOCKSTREAM_LIMITER txid.







Definition add_warning (result : GraphResult) (w : string) : GraphResult :=
  {| root_input := root_input result;
     root_txid := root_txid result;
     nodes := nodes result;
     edges := edges result;
     addresses_seen := addresses_seen result;
     max_depth_reached := max_depth_reached result;
     requested_max_depth := requested_max_depth result;
     node_limit_hit := node_limit_hit result;
     unresolved_count := unresolved_count result;
     is_dormant := is_dormant result;
     dormancy_note := dormancy_note result;
     api_provider_used := api_provider_used result;
     we_addresses_queried := we_addresses_queried result;
     we_addresses_total_unmatched := we_addresses_total_unmatched result;
     warnings := (warnings result ++ [w])%list;
     attribution_results := attribution_results result;
     attribution_summary := attribution_summary result |}.

Section Traversal.

(** The worker pool and the post-processing that follow a resolved root
    (five concurrent workers over a shared queue) are not embedded; they
    enter as what runs once the root is known. *)
Variable bfs_from_root :
  forall (target : string) (root_txid : json) (max_depth node_limit : Z)
         (direction : string), M GraphResult.


End Traversal.

(** ** Parsing, neighbours, edges *)

(** The Esplora documents as the parser reads them: a key is absent
    ([None]) or holds a value of the type the API documents. *)
Record EsploraPrevout := mkEsploraPrevout {
  po_scriptpubkey_address : option string;
  po_value : option Z;
  po_scriptpubkey_type : option string
}.

Record EsploraVin := mkEsploraVin {
  vin_txid : option string;
  vin_vout : option Z;
  vin_prevout : option EsploraPrevout;
  vin_is_coinbase : option bool;
  vin_sequence : option Z
}.

Record EsploraVout := mkEsploraVout {
  vout_scriptpubkey_address : option string;
  vout_value : option Z;
  vout_scriptpubkey_type : option string
}.

Record EsploraStatus := mkEsploraStatus {
  st_block_time : option Z;
  st_block_height : option Z
}.

Record EsploraTx := mkEsploraTx {
  tx_txid : option string;
  tx_vin : option (list EsploraVin);
  tx_vout : option (list EsploraVout);
  tx_fee : option Z;
  tx_size : option Z;
  tx_weight : option Z;
  tx_status : option EsploraStatus
}.

Record Outspend := mkOutspend {
  os_spent : option bool;
  os_txid : option string
}.

(** [d.get(k, default)] on a key of a typed document. *)
Definition get_or {A} (field : option A) (default : A) : A :=
  match field with Some v => v | None => default end.

(** [{}] as a prevout. *)
Definition empty_prevout : EsploraPrevout :=
  {| po_scriptpubkey_address := None; po_value := None;
     po_scriptpubkey_type := None |}.

Definition empty_status : EsploraStatus :=
  {| st_block_time := None; st_block_height := None |}.

(** The body of the [vin] loop of [_parse_tx]. *)
Definition parse_input (vin : EsploraVin) : TxInput :=
  let prevout := get_or (vin_prevout vin) empty_prevout in
  {| prev_txid := get_or (vin_txid vin) EmptyString;
     prev_vout := get_or (vin_vout vin) 0;
     in_address := po_scriptpubkey_address prevout;
     in_value_sat := get_or (po_value prevout) 0;
     in_script_type :=
       from_esplora (get_or (po_scriptpubkey_type prevout) EmptyString) |}.

(** [outspends[i]] when [outspends and i < len(outspends)]. *)
Definition outspend_at (outspends : option (list Outspend)) (i : nat)
  : option Outspend :=
  match outspends with
  | Some l => nth_error l i
  | None => None
  end.

(** The body of the [vout] loop of [_parse_tx], at index [i]. *)
Definition parse_output (outspends : option (list Outspend)) (i : nat)
  (vout : EsploraVout) : TxOutput :=
  let spent :=
    match outspend_at outspends i with
    | Some os => get_or (os_spent os) false
    | None => false
    end in
  let spending_txid :=
    match outspend_at outspends i with
    | Some os => if spent then os_txid os else None
    | None => None
    end in
  {| out_address := vout_scriptpubkey_address vout;
     value_sat := get_or (vout_value vout) 0;
     out_script_type :=
       from_esplora (get_or (vout_scriptpubkey_type vout) EmptyString);
     spent := spent;
     spending_txid := spending_txid |}.

(** [enumerate(l)] *)
Definition enumerate {A} (l : list A) : list (nat * A) :=
  combine (seq 0 (List.length l)) l.

Definition NO_RBF_SEQUENCE : Z := 4294967294.   (* 0xFFFFFFFE *)

Definition _parse_tx (tx_data : EsploraTx) (depth : Z)
  (outspends : option (list Outspend)) : GraphNode :=
  let vins := get_or (tx_vin tx_data) [] in
  let inputs := map parse_input vins in
  let vout_list := get_or (tx_vout tx_data) [] in
  let outputs :=
    map (fun iv => parse_output outspends (fst iv) (snd iv))
        (enumerate vout_list) in
  let status := get_or (tx_status tx_data) empty_status in
  let is_coinbase :=
    existsb (fun vin => get_or (vin_is_coinbase vin) false) vins in
  let rbf_signaled :=
    existsb (fun vin => get_or (vin_sequence vin) 4294967295
                        <? NO_RBF_SEQUENCE)
            (filter (fun vin => negb (get_or (vin_is_coinbase vin) false))
                    vins) in
  {| txid := get_or (tx_txid tx_data) EmptyString;
     inputs := inputs;
     outputs := outputs;
     fee_sat := get_or (tx_fee tx_data) 0;
     size_bytes := get_or (tx_size tx_data) 0;
     weight := get_or (tx_weight tx_data) 0;
     timestamp := st_block_time status;
     block_height := st_block_height status;
     depth := depth;
     is_coinbase := is_coinbase;
     rbf_signaled := rbf_signaled;
     resolved := true;
     attributed_entities := [] |}.

(** Truth value of an [Optional[str]] and of a [str]. *)
Definition truthy_opt (s : option string) : bool :=
  match s with
  | Some s' => negb (String.eqb s' EmptyString)
  | None => false
  end.

Definition forward_neighbors (node : GraphNode) : list string :=
  flat_map
    (fun out =>
       match spending_txid out with
       | Some t => if spent out && truthy_opt (Some t) then [t] else []
       | None => []
       end)
    (outputs node).

Definition backward_neighbors (node : GraphNode) : list string :=
  flat_map
    (fun inp =>
       if negb (String.eqb (prev_txid inp) EmptyString)
          && negb (is_coinbase node)
       then [prev_txid inp] else [])
    (inputs node).

(** [direction in (a, b)] *)
Definition one_of (direction a b : string) : bool :=
  String.eqb direction a || String.eqb direction b.

Definition _get_neighbors (node : GraphNode) (direction : string)
  : list string :=
  ((if one_of direction "forward" "both" then forward_neighbors node else [])
   ++ (if one_of direction "backward" "both"
       then backward_neighbors node else []))%list.

(** The edges one node contributes to [_build_edges]. *)
Definition edges_of (all_nodes : list (string * GraphNode))
  (node : GraphNode) : list GraphEdge :=
  if resolved node then
    flat_map
      (fun io =>
         let out := snd io in
         match spending_txid out with
         | Some t =>
             if spent out && truthy_opt (Some t) && dict_mem all_nodes t
             then [ {| from_txid := txid node;
                       to_txid := t;
                       edge_address := out_address out;
                       edge_value_sat := value_sat out;
                       vout_index := Z.of_nat (fst io) |} ]
             else []
         | None => []
         end)
      (enumerate (outputs node))
  else [].

Definition _build_edges (result : GraphResult) : list GraphEdge :=
  flat_map (edges_of (nodes result)) (map snd (nodes result)).

(** [a == b] for an [Optional[str]] and a [str]. *)
Definition opt_str_eqb (a : option string) (b : string) : bool :=
  match a with Some s => String.eqb s b | None => false end.

Definition DORMANCY_NOTE : string :=
  "No outgoing transactions found. "
    ++ "This address has received funds but never spent. "
    ++ "Nothing to trace.".

(** What [async_bfs] does with the result once the workers are done: the
    edge list, then the dormancy flag. *)
Definition bfs_post_process (target : string) (result : GraphResult)
  : GraphResult :=
  let edges := _build_edges result in
  let dormant :=
    ADDRESS_PATTERN_match (strip target)
    && (max_depth_reached result =? 0)
    && negb (existsb
               (fun node =>
                  resolved node
                  && existsb
                       (fun inp => opt_str_eqb (in_address inp) (strip target))
                       (inputs node))
               (map snd (nodes result))) in
  {| root_input := root_input result;
     root_txid := root_txid result;
     nodes := nodes result;
     edges := edges;
     addresses_seen := addresses_seen result;
     max_depth_reached := max_depth_reached result;
     requested_max_depth := requested_max_depth result;
     node_limit_hit := node_limit_hit result;
     unresolved_count := unresolved_count result;
     is_dormant := if dormant then true else is_dormant result;
     dormancy_note :=
       if dormant then DORMANCY_NOTE else dormancy_note result;
     api_provider_used := api_provider_used result;
     we_addresses_queried := we_addresses_queried result;
     we_addresses_total_unmatched := we_addresses_total_unmatched result;
     warnings := warnings result;
     attribution_results := attribution_results result;
     attribution_summary := attribution_summary result |}.

End Graph.

(* ================================================================== *)
(** * core/attribution.py *)
(* ================================================================== *)

Module Attribution.

Import Py Core Http Http.Notations.
Local Open Scope string_scope.
Local Open Scope Z_scope.

Definition WALLETEXPLORER_URL : string :=
  "https://www.walletexplorer.com/api/1/address".
Definition ARKHAM_API_URL : string :=
  "https://api.arkhamintelligence.com/intelligence/address".
Definition WALLETEXPLORER_LIMITER : string := "walletexplorer".
Definition ARKHAM_LIMITER : string := "arkham".

Definition DEFAULT_WE_LIMIT : Z := 200.

(** A row of the [entities] table: [entity] is [NOT NULL], the other two
    columns may be [NULL]. *)
Record DbRow := mkDbRow {
  row_entity : string;
  row_category : option string;
  row_confidence : option string
}.

(** A loaded [EntityDatabase]: the SQLite table, or the map read from the
    JSON file. *)
Record EntityDatabase := mkEntityDatabase {
  _using_sqlite : bool;
  _rows : list (string * DbRow);
  _fallback : list (string * (string * string))
}.

(** [s or default] for an [Optional[str]] *)
Definition str_or (s : option string) (default : string) : string :=
  match s with
  | Some s' => if String.eqb s' EmptyString then default else s'
  | None => default
  end.

Definition lookup (db : EntityDatabase) (address : string)
  : option AttributionResult :=
  if _using_sqlite db then
    match dict_get (_rows db) address with
    | Some row =>
        Some {| ar_address := address;
                entity := JStr (row_entity row);
                source := "local_db";
                category := str_or (row_category row) EmptyString;
                ar_confidence := str_or (row_confidence row) "confirmed" |}
    | None => None
    end
  else
    match dict_get (_fallback db) address with
    | Some entry =>
        Some {| ar_address := address;
                entity := JStr (fst entry);
                source := "local_db";
                category := snd entry;
                ar_confidence := "confirmed" |}
    | None => None
    end.

(** [d.get(k)] on a JSON value: [None] for a missing key, an error on
    anything that is not an object. *)
Definition json_get (data : json) (k : string) : Result json :=
  match data with
  | JDict d => Ok (match dict_get d k with Some v => v | None => JNull end)
  | _ => Raise
  end.

(** [d.get(k, default)] *)
Definition json_get_default (data : json) (k : string) (default : json)
  : Result json :=
  match data with
  | JDict d => Ok (match dict_get d k with Some v => v | None => default end)
  | _ => Raise
  end.

Definition _query_walletexplorer (address : string) : M json :=
  with_limiter WALLETEXPLORER_LIMITER
    (try_except
       (resp <- client_get WALLETEXPLORER_URL
                  [("address", address); ("caller", "dustline")] [] ;;
        raise_for_status resp ;;;
        data <- json_of resp ;;
        found <- lift (json_get data "found") ;;
        found' <- (if truthy found then ret found
                   else lift (json_get data "_found")) ;;
        if truthy found' then
          label <- lift (json_get data "label") ;;
          if truthy label then ret label
          else lift (json_get data "wallet_name")
        else ret JNull)
       (ret JNull)).

(** [c.lower()] on one ASCII character. *)
Definition lower_char (c : ascii) : ascii :=
  if Graph.in_range "A" "Z" c
  then ascii_of_nat (nat_of_ascii c + 32) else c.

(** [s.lower()] *)
Definition lower (s : string) : string :=
  string_of_list_ascii (map lower_char (list_ascii_of_string s)).

Definition _query_arkham (address api_key : string)
  : M (option AttributionResult) :=
  with_limiter ARKHAM_LIMITER
    (try_except
       (resp <- client_get (ARKHAM_API_URL ++ "/" ++ address)
                  [] [("API-Key", api_key)] ;;
        raise_for_status resp ;;;
        data <- json_of resp ;;
        e <- lift (json_get data "arkhamEntity") ;;
        let entity_data := py_or e (JDict []) in
        entity_name <- lift (json_get_default entity_data "name"
                                              (JStr EmptyString)) ;;
        entity_name <- (if truthy entity_name then ret entity_name
                        else
                          l <- lift (json_get_default data "arkhamLabel"
                                                      (JDict [])) ;;
                          lift (json_get_default l "name" (JStr EmptyString))) ;;
        if truthy entity_name then
          ty <- lift (json_get_default entity_data "type" (JStr EmptyString)) ;;
          match ty with
          | JStr t =>
              ret (Some {| ar_address := address;
                           entity := entity_name;
                           source := "arkham";
                           category := lower t;
                           ar_confidence := "probable" |})
          | _ => raise
          end
        else ret None)
       (ret None)).

(** [address_nodes.setdefault(addr, []).append(txid)] *)
Definition index_address (address_nodes : list (string * list string))
  (addr txid : string) : list (string * list string) :=
  dict_set address_nodes addr
    (match dict_get address_nodes addr with
     | Some l => (l ++ [txid])%list
     | None => [txid]
     end).

Definition index_opt (txid : string)
  (address_nodes : list (string * list string)) (addr : option string)
  : list (string * list string) :=
  match addr with
  | Some a =>
      if String.eqb a EmptyString then address_nodes
      else index_address address_nodes a txid
  | None => address_nodes
  end.

Definition index_node (address_nodes : list (string * list string))
  (node : GraphNode) : list (string * list string) :=
  let d :=
    fold_left (index_opt (txid node)) (map in_address (inputs node))
              address_nodes in
  fold_left (index_opt (txid node)) (map out_address (outputs node)) d.

Definition build_address_nodes (graph : GraphResult)
  : list (string * list string) :=
  fold_left index_node (map snd (nodes graph)) [].

Definition set_attributed (node : GraphNode) (address : string)
  (ent : json) : GraphNode :=
  {| txid := txid node;
     inputs := inputs node;
     outputs := outputs node;
     fee_sat := fee_sat node;
     size_bytes := size_bytes node;
     weight := weight node;
     timestamp := timestamp node;
     block_height := block_height node;
     depth := depth node;
     is_coinbase := is_coinbase node;
     rbf_signaled := rbf_signaled node;
     resolved := resolved node;
     attributed_entities := dict_set (attributed_entities node) address ent |}.

(** The graph with its node map replaced (the nodes are mutated in
    place). *)
Definition with_nodes (graph : GraphResult)
  (ns : list (string * GraphNode)) : GraphResult :=
  {| root_input := root_input graph;
     root_txid := root_txid graph;
     nodes := ns;
     edges := edges graph;
     addresses_seen := addresses_seen graph;
     max_depth_reached := max_depth_reached graph;
     requested_max_depth := requested_max_depth graph;
     node_limit_hit := node_limit_hit graph;
     unresolved_count := unresolved_count graph;
     is_dormant := is_dormant graph;
     dormancy_note := dormancy_note graph;
     api_provider_used := api_provider_used graph;
     we_addresses_queried := we_addresses_queried graph;
     we_addresses_total_unmatched := we_addresses_total_unmatched graph;
     warnings := warnings graph;
     attribution_results := attribution_results graph;
     attribution_summary := attribution_summary graph |}.

Definition _apply_attribution (graph : GraphResult) (txids : list string)
  (address : string) (ent : json) : GraphResult :=
  fold_left
    (fun g txid =>
       match dict_get (nodes g) txid with
       | Some node =>
           with_nodes g (dict_set (nodes g) txid
                                  (set_attributed node address ent))
       | None => g
       end)
    txids graph.

(** The locals of [attribute_graph] that the tiers update, with the
    graph. *)
Record Locals := mkLocals {
  graph : GraphResult;
  results : list AttributionResult;
  resolved_ : list (string * AttributionResult);
  by_source_ : list (string * Z);
  by_category_ : list (string * Z)
}.

(** [d[k] = d.get(k, 0) + 1] *)
Definition bump (d : list (string * Z)) (k : string) : list (string * Z) :=
  dict_set d k (match dict_get d k with Some n => n | None => 0 end + 1).

(** [address_nodes[addr]]; the key is always present where it is read. *)
Definition nodes_of (address_nodes : list (string * list string))
  (addr : string) : list string :=
  match dict_get address_nodes addr with Some l => l | None => [] end.

(** What every tier does with a match, the category count apart. *)
Definition record_match (address_nodes : list (string * list string))
  (st : Locals) (addr : string) (ar : AttributionResult)
  (count_category : bool) : Locals :=
  {| graph :=
       _apply_attribution (graph st) (nodes_of address_nodes addr) addr
                          (entity ar);
     results := (results st ++ [ar])%list;
     resolved_ := dict_set (resolved_ st) addr ar;
     by_source_ := bump (by_source_ st) (source ar);
     by_category_ :=
       if count_category && negb (String.eqb (category ar) EmptyString)
       then bump (by_category_ st) (category ar)
       else by_category_ st |}.

Definition tier1_step (db : EntityDatabase)
  (address_nodes : list (string * list string)) (st : Locals)
  (addr : string) : Locals :=
  match lookup db addr with
  | Some result => record_match address_nodes st addr result true
  | None => st
  end.

Definition tier2_step (address_nodes : list (string * list string))
  (st : Locals) (addr : string) : M Locals :=
  ent <- _query_walletexplorer addr ;;
  if truthy ent then
    let ar := {| ar_address := addr;
                 entity := ent;
                 source := "walletexplorer";
                 category := EmptyString;
                 ar_confidence := "cluster" |} in
    ret (record_match address_nodes st addr ar false)
  else ret st.

Definition tier3_step (address_nodes : list (string * list string))
  (api_key : string) (st : Locals) (addr : string) : M Locals :=
  r <- _query_arkham addr api_key ;;
  match r with
  | Some ar => ret (record_match address_nodes st addr ar true)
  | None => ret st
  end.

(** [for x in l: st = step(st, x)] with effects. *)
Fixpoint for_each {A S} (step : S -> A -> M S) (l : list A) (st : S) : M S :=
  match l with
  | [] => ret st
  | x :: l' => st' <- step st x ;; for_each step l' st'
  end.

Definition unmatched_of (all_addresses : list string)
  (resolved : list (string * AttributionResult)) : list string :=
  filter (fun a => negb (dict_mem resolved a)) all_addresses.

Definition cap_warning (we_limit n_unmatched : Z) : string :=
  "WalletExplorer: queried " ++ str_int we_limit ++ " of "
    ++ str_int n_unmatched ++ " unattributed addresses (capped for speed). "
    ++ "Use --thorough to check all.".

Definition set_we_counts (g : GraphResult) (queried unmatched : Z)
  : GraphResult :=
  {| root_input := root_input g;
     root_txid := root_txid g;
     nodes := nodes g;
     edges := edges g;
     addresses_seen := addresses_seen g;
     max_depth_reached := max_depth_reached g;
     requested_max_depth := requested_max_depth g;
     node_limit_hit := node_limit_hit g;
     unresolved_count := unresolved_count g;
     is_dormant := is_dormant g;
     dormancy_note := dormancy_note g;
     api_provider_used := api_provider_used g;
     we_addresses_queried := queried;
     we_addresses_total_unmatched := unmatched;
     warnings := warnings g;
     attribution_results := attribution_results g;
     attribution_summary := attribution_summary g |}.

Definition with_graph (st : Locals) (g : GraphResult) : Locals :=
  {| graph := g;
     results := results st;
     resolved_ := resolved_ st;
     by_source_ := by_source_ st;
     by_category_ := by_category_ st |}.

(** The addresses Tier 2 sends to the oracle. *)
Definition to_query_of (unmatched : list string) (we_limit : option Z)
  : list string :=
  match we_limit with
  | None => unmatched
  | Some l => slice_to unmatched l
  end.

(** Tier 2 of [attribute_graph], from the state Tier 1 left. *)
Definition tier2 (address_nodes : list (string * list string))
  (all_addresses : list string) (skip_walletexplorer : bool)
  (we_limit : option Z) (st : Locals) : M Locals :=
  let unmatched := unmatched_of all_addresses (resolved_ st) in
  if negb skip_walletexplorer then
    let to_query := to_query_of unmatched we_limit in
    let st :=
      match we_limit with
      | Some l =>
          if l <? Complexity.len unmatched
          then with_graph st
                 (Graph.add_warning (graph st)
                    (cap_warning l (Complexity.len unmatched)))
          else st
      | None => st
      end in
    st <- for_each (tier2_step address_nodes) to_query st ;;
    ret (with_graph st
           (set_we_counts (graph st) (Complexity.len to_query)
                          (Complexity.len unmatched)))
  else
    ret (with_graph st
           (set_we_counts (graph st) 0 (Complexity.len unmatched))).

Definition finish (st : Locals) (total : Z) (sources_used : list string)
  : GraphResult :=
  let g := graph st in
  let attributed_count := Complexity.len (resolved_ st) in
  {| root_input := root_input g;
     root_txid := root_txid g;
     nodes := nodes g;
     edges := edges g;
     addresses_seen := addresses_seen g;
     max_depth_reached := max_depth_reached g;
     requested_max_depth := requested_max_depth g;
     node_limit_hit := node_limit_hit g;
     unresolved_count := unresolved_count g;
     is_dormant := is_dormant g;
     dormancy_note := dormancy_note g;
     api_provider_used := api_provider_used g;
     we_addresses_queried := we_addresses_queried g;
     we_addresses_total_unmatched := we_addresses_total_unmatched g;
     warnings := warnings g;
     attribution_results := results st;
     attribution_summary :=
       Some {| sum_total_addresses := total;
               attributed_count := attributed_count;
               by_source := by_source_ st;
               by_category := by_category_ st;
               coverage_rate :=
                 (inject_Z attributed_count / inject_Z (Z.max total 1))%Q;
               sources_used := sources_used |} |}.

(** [attribute_graph], with the store passed in place of the module-level
    singleton; the progress callback, which only reports, is left out. *)
Definition attribute_graph (db : EntityDatabase) (g : GraphResult)
  (skip_walletexplorer : bool) (we_limit : option Z)
  (arkham_key : option string) : M GraphResult :=
  let address_nodes := build_address_nodes g in
  let all_addresses := map fst address_nodes in
  let total := Complexity.len all_addresses in
  let st := {| graph := g; results := []; resolved_ := [];
               by_source_ := []; by_category_ := [] |} in
  (* Tier 1 *)
  let st := fold_left (tier1_step db address_nodes) all_addresses st in
  (* Tier 2 *)
  st <- tier2 address_nodes all_addresses skip_walletexplorer we_limit st ;;
  (* Tier 3 *)
  st <- (if Complexity.truthy_str arkham_key then
           let still_unmatched := unmatched_of all_addresses (resolved_ st) in
           for_each
             (tier3_step address_nodes
                         (match arkham_key with Some k => k | None => EmptyString end))
             still_unmatched st
         else ret st) ;;
  let sources_used :=
    (["local_db"]
       ++ (if negb skip_walletexplorer then ["walletexplorer"] else [])
       ++ (if Complexity.truthy_str arkham_key then ["arkham"] else []))%list in
  ret (finish st total sources_used).

End Attribution.

(* ================================================================== *)
(** * core/rate_limiter.py: the token bucket *)
(* ================================================================== *)

Module Limiter.

Local Open Scope Q_scope.

(** The bucket of a [RateLimiter].  The semaphore that bounds the requests
    in flight and the lock around the bucket order concurrent tasks and
    have no counterpart here; the clock is read by the caller and passed
    in. *)
Record RateLimiter := mkRateLimiter {
  _tokens : Q;
  _max_tokens : Q;
  _rate : Q;
  _last_refill : Q
}.

(** [RateLimiter(tokens_per_second, max_concurrent, burst)], created when
    the clock reads [now]. *)
Definition new (tokens_per_second : Q) (max_concurrent burst : Z) (now : Q)
  : RateLimiter :=
  {| _tokens := inject_Z burst;
     _max_tokens := inject_Z burst;
     _rate := tokens_per_second;
     _last_refill := now |}.

(** [min(a, b)] *)
Definition min (a b : Q) : Q := if Qle_bool a b then a else b.

(** The bucket part of [acquire] when the clock reads [now]: the time
    slept waiting for a token, if any, and the bucket afterwards. *)
Definition acquire (rl : RateLimiter) (now : Q) : option Q * RateLimiter :=
  let elapsed := now - _last_refill rl in
  let tokens := min (_max_tokens rl) (_tokens rl + elapsed * _rate rl) in
  if CostModel.Qltb tokens 1 then
    let wait_time := (1 - tokens) / _rate rl in
    (Some wait_time,
     {| _tokens := 0; _max_tokens := _max_tokens rl; _rate := _rate rl;
        _last_refill := now |})
  else
    (None,
     {| _tokens := tokens - 1; _max_tokens := _max_tokens rl;
        _rate := _rate rl; _last_refill := now |}).

(** The four limiters of the module, created at [now]. *)
Definition MEMPOOL_LIMITER (now : Q) : RateLimiter := new 8 5 10 now.
Definition BLOCKSTREAM_LIMITER (now : Q) : RateLimiter := new 8 5 10 now.
Definition WALLETEXPLORER_LIMITER (now : Q) : RateLimiter :=
  new (8 # 10) 1 2 now.
Definition ARKHAM_LIMITER (now : Q) : RateLimiter := new 5 3 5 now.

(** Successive calls of [acquire] at the given clock readings: the sleeps,
    in order, and the bucket at the end. *)
Fixpoint acquire_all (rl : RateLimiter) (times : list Q)
  : list (option Q) * RateLimiter :=
  match times with
  | [] => ([], rl)
  | t :: times' =>
      let '(slept, rl1) := acquire rl t in
      let '(rest, rl2) := acquire_all rl1 times' in
      (slept :: rest, rl2)
  end.

End Limiter.

(* ================================================================== *)
(** * The statements of the specification *)
(* ================================================================== *)

(** ** Cost model (spec 4.6) *)

Module CostSpec.

Import Core CostModel.
Local Open Scope string_scope.
Local Open Scope Q_scope.

(** The zero-hop short-circuit is taken: [max_depth == 0] and
    [node_count <= 1]. *)
Definition takes_short_circuit (m : ComplexityMetrics) : Prop :=
  max_depth m = 0%Z /\ (node_count m <= 1)%Z.

(** Base minutes per hop by attribution rate, first match wins. *)
Definition spec_base_minutes (r : Q) : Q :=
  if Qlt_le_dec (7 # 10) r then 12
  else if Qlt_le_dec (4 # 10) r then 45
  else if Qlt_le_dec (1 # 10) r then 180
  else 480.










(** Scenario S2 of the specification: attribution 0.5, depth 5, a CoinJoin
    in the graph. *)
Definition metrics_s2 : ComplexityMetrics :=
  {| node_count := 50; edge_count := 80; unique_addresses := 120;
     max_depth := 5; avg_branch_factor := 2; max_branch_factor := 3;
     attribution_rate := 5 # 10; attributed_addresses := 60;
     total_addresses := 120; mixing_signals := 1;
     mixing_txids := ["wasabi_cj"];
     coinjoin_detected := true; taproot_ratio := 0; unresolved_paths := 0;
     addresses_checked := 120; unattributed_addresses := 60;
     sources_exhausted := false; avg_fan_in := 1; max_fan_in := 1;
     root_pattern := None; root_pattern_detail := EmptyString;
     script_type_counts := []; total_value_sat := 0 |}.

(** A dormant address: one node, depth zero. *)
Definition metrics_dormant : ComplexityMetrics :=
  new_ComplexityMetrics 1 0 1 0 1 1 0 0 1 0.

(** Scenario S6: attribution 0.05, nothing unresolved, sources
    exhausted. *)
Definition metrics_s6 : ComplexityMetrics :=
  {| node_count := 50; edge_count := 80; unique_addresses := 120;
     max_depth := 5; avg_branch_factor := 2; max_branch_factor := 3;
     attribution_rate := 5 # 100; attributed_addresses := 6;
     total_addresses := 120; mixing_signals := 0; mixing_txids := [];
     coinjoin_detected := false; taproot_ratio := 0; unresolved_paths := 0;
     addresses_checked := 120; unattributed_addresses := 114;
     sources_exhausted := true; avg_fan_in := 1; max_fan_in := 1;
     root_pattern := None; root_pattern_detail := EmptyString;
     script_type_counts := []; total_value_sat := 0 |}.

(** The short-circuit estimate. *)
Definition zero_estimate (e : CostEstimate) : Prop :=
  List.length (tiers e) = 3%nat
  /\ Forall (fun t =>
               estimated_hours_low t == 0 /\ estimated_hours_high t == 0
               /\ total_low t == 0 /\ total_high t == 0) (tiers e)
  /\ mixing_multiplier e == 1 /\ branching_multiplier e == 1
  /\ taproot_multiplier e == 1 /\ fan_in_multiplier e == 1
  /\ base_hours_per_hop e == 0 /\ total_hops e = 0%Z
  /\ unresolved_hours e == 0
  /\ privacy_floor e = TRACEABLE
  /\ confidence e = "high".

(** The confidence grade before promotion, as a relation. *)
Definition graded (m : ComplexityMetrics) (grade : string) : Prop :=
  let r := attribution_rate m in
  (7 # 10 <= r /\ unresolved_paths m = 0%Z -> grade = "high")
  /\ (~ (7 # 10 <= r /\ unresolved_paths m = 0%Z) -> 4 # 10 <= r ->
      grade = "moderate")
  /\ (~ 4 # 10 <= r -> 1 # 10 <= r -> grade = "low")
  /\ (~ 1 # 10 <= r -> grade = "very low").

(** Promotion when the sources were exhausted. *)
Definition promoted (m : ComplexityMetrics) (grade final : string) : Prop :=
  (sources_exhausted m = true /\ (grade = "low" \/ grade = "very low") ->
   final = "moderate")
  /\ (~ (sources_exhausted m = true /\ (grade = "low" \/ grade = "very low"))
      -> final = grade).

(** The unrounded hours of the code, as [compute_cost] computes them. *)
Definition code_multiplier (m : ComplexityMetrics) : Q :=
  (if coinjoin_detected m then MIXING_MULTIPLIER else 1)
  * (if Qltb 5 (avg_branch_factor m) then avg_branch_factor m / 5 else 1)
  * (if Qltb TAPROOT_THRESHOLD (taproot_ratio m) then TAPROOT_MULTIPLIER else 1)
  * (if Qltb 5 (avg_fan_in m) then avg_fan_in m / 5 else 1).

Definition code_hours_low (m : ComplexityMetrics) : Q :=
  _base_time_per_hop (attribution_rate m) / 60
  * float (Z.max (max_depth m) 1) * code_multiplier m.

Definition code_hours_high (m : ComplexityMetrics) : Q :=
  code_hours_low m * HIGH_ESTIMATE_FACTOR
  + float (unresolved_paths m) * UNRESOLVED_HOURS_EACH.

(** Low never exceeds high, in hours and in dollars. *)
Definition tier_ordered (t : TierEstimate) : Prop :=
  estimated_hours_low t <= estimated_hours_high t
  /\ total_low t <= total_high t.

End CostSpec.

(** ** CoinJoin detection (spec 4.5) *)

Module CoinjoinSpec.

Import Core.
Local Open Scope string_scope.
Local Open Scope Z_scope.

Definition known_denominations : list Z :=
  [10000000; 100000; 1000000; 2500000; 5000000; 25000000; 50000000].

(** How many outputs of the node carry the value [v]. *)
Definition occurrences (node : GraphNode) (v : Z) : Z :=
  Z.of_nat (count_occ Z.eq_dec (map value_sat (outputs node)) v).

Definition n_outputs (node : GraphNode) : Z :=
  Z.of_nat (List.length (outputs node)).

(** (a) a known denomination occurs at least three times. *)
Definition known_denomination_match (node : GraphNode) : Prop :=
  exists v, 0 < v /\ In v known_denominations /\ 3 <= occurrences node v.

(** (b) the most frequent positive value occurs at least five times and
    on more than half of the outputs. *)
Definition majority_equal_outputs (node : GraphNode) : Prop :=
  exists v,
    0 < v
    /\ (forall u, 0 < u -> occurrences node u <= occurrences node v)
    /\ 5 <= occurrences node v
    /\ n_outputs node < 2 * occurrences node v.

(** (c) three distinct positive values occur at least three times each. *)
Definition three_equal_groups (node : GraphNode) : Prop :=
  exists v1 v2 v3,
    v1 <> v2 /\ v1 <> v3 /\ v2 <> v3
    /\ 0 < v1 /\ 0 < v2 /\ 0 < v3
    /\ 3 <= occurrences node v1
    /\ 3 <= occurrences node v2
    /\ 3 <= occurrences node v3.

Definition coinjoin_by_spec (node : GraphNode) : Prop :=
  5 <= n_outputs node
  /\ (known_denomination_match node
      \/ majority_equal_outputs node
      \/ three_equal_groups node).

(** A node with the given output values, in order. *)
Definition node_with_outputs (values : list Z) : GraphNode :=
  {| txid := "tx";
     inputs := [];
     outputs := map (fun v => mkTxOutput (Some "addr") v P2WPKH false None)
                    values;
     fee_sat := 0; size_bytes := 0; weight := 0;
     timestamp := None; block_height := None; depth := 0;
     is_coinbase := false; rbf_signaled := false; resolved := true;
     attributed_entities := [] |}.

(** Scenario S2: ten outputs of 0.1 BTC and five change outputs. *)
Definition wasabi_node : GraphNode :=
  node_with_outputs (repeat 10000000 10 ++ repeat 150000 5)%list.

(** The count the code's histogram keeps for [v] ([0] when absent). *)
Fixpoint counted (c : list (Z * Z)) (v : Z) : Z :=
  match c with
  | [] => 0
  | (k, n) :: c' => if k =? v then n else counted c' v
  end.

End CoinjoinSpec.

(** ** Graph complexity of the empty graph (spec 4.5) *)

Module ComplexitySpec.

Import Core.
Local Open Scope string_scope.
Local Open Scope Z_scope.

(** An all-zero metrics record: every count, ratio and average is zero. *)
Definition all_zero_metrics (m : ComplexityMetrics) : Prop :=
  node_count m = 0 /\ edge_count m = 0 /\ unique_addresses m = 0
  /\ max_depth m = 0 /\ (avg_branch_factor m == 0)%Q
  /\ max_branch_factor m = 0 /\ (attribution_rate m == 0)%Q
  /\ attributed_addresses m = 0 /\ total_addresses m = 0
  /\ mixing_signals m = 0 /\ (taproot_ratio m == 0)%Q
  /\ unresolved_paths m = 0 /\ addresses_checked m = 0
  /\ unattributed_addresses m = 0
  /\ (avg_fan_in m == 0)%Q /\ max_fan_in m = 0
  /\ total_value_sat m = 0.

(** The same with the two fan-in fields left out. *)
Definition zero_but_fan_in (m : ComplexityMetrics) : Prop :=
  node_count m = 0 /\ edge_count m = 0 /\ unique_addresses m = 0
  /\ max_depth m = 0 /\ (avg_branch_factor m == 0)%Q
  /\ max_branch_factor m = 0 /\ (attribution_rate m == 0)%Q
  /\ attributed_addresses m = 0 /\ total_addresses m = 0
  /\ mixing_signals m = 0 /\ (taproot_ratio m == 0)%Q
  /\ unresolved_paths m = 0 /\ addresses_checked m = 0
  /\ unattributed_addresses m = 0
  /\ total_value_sat m = 0.

(** The graph of the test [test_empty_graph]. *)
Definition empty_graph : GraphResult := new_GraphResult "test" EmptyString.

End ComplexitySpec.

(** ** Provider client and target resolution (spec 4.2, 4.3, 7) *)

Module ProviderSpec.

Import Py Core Http Graph.
Local Open Scope string_scope.
Local Open Scope Z_scope.

(** A computation that returns on every world. *)
Definition never_raises {A} (m : M A) : Prop :=
  forall w, exists a w', m w = (Ok a, w').

(** Every value the computation returns satisfies [P]. *)
Definition returns_only {A} (P : A -> Prop) (m : M A) : Prop :=
  forall w a w', m w = (Ok a, w') -> P a.

(** What a call guarded by [limiter] does on a 429 according to the
    specification: the request, a sleep of two seconds, the same request
    once more. *)
Definition retry_trace (limiter url : string) : list Event :=
  [EvAcquire limiter; EvGet url [] []; EvSleep 2; EvGet url [] [];
   EvRelease limiter].

(** What the retried request yields: its JSON body on a 2xx answer,
    not-found on anything else. *)
Definition retry_result (rest : list Outcome) : json :=
  match rest with
  | Responded r :: _ =>
      if (200 <=? status_code r) && (status_code r <? 300)
      then match body r with Some j => j | None => JNull end
      else JNull
  | _ => JNull
  end.

(** [fetch], a call for [url] under [limiter], answers a 429 with a sleep
    of two seconds and one retry, and never raises. *)
Definition retries_once_on_429 (fetch : M json) (limiter url : string)
  : Prop :=
  forall r rest tr,
    status_code r = 429 ->
    fetch {| pending := Responded r :: rest; trace := tr |}
    = (Ok (retry_result rest),
       {| pending := tl rest; trace := (tr ++ retry_trace limiter url)%list |}).

(** A provider that answers 429 and, asked again, the document. *)
Definition busy_then_ok (doc : json) : World :=
  {| pending := [Responded (mkResponse 429 None);
                 Responded (mkResponse 200 (Some doc))];
     trace := [] |}.

Definition chars (s : string) : list ascii := list_ascii_of_string s.

(** Sixty-four hexadecimal digits. *)
Definition txid_shape (s : string) : Prop :=
  String.length s = 64%nat /\ Forall (fun c => is_hex c = true) (chars s).

(** A prefix [1], [3] or [bc1] and then alphanumeric characters. *)
Definition prefixed_alnum (s prefix body : string) : Prop :=
  s = prefix ++ body
  /\ In prefix ["1"; "3"; "bc1"]
  /\ Forall (fun c => is_alnum c = true) (chars body).


(** The address shape of the code: 25 to 62 characters after the
    prefix. *)
Definition address_shape_code (s : string) : Prop :=
  exists prefix body,
    prefixed_alnum s prefix body
    /\ (25 <= String.length body <= 62)%nat.








End ProviderSpec.

(** ** Attribution, Tier 2 (spec 4.4) *)

Module AttributionSpec.

Import Py Core Http Attribution.
Local Open Scope string_scope.
Local Open Scope Z_scope.

(** A computation that leaves the world as it found it. *)
Definition leaves_world {A} (m : M A) : Prop :=
  forall w, snd (m w) = w.

(** The address of a lookup sent to the cluster oracle. *)
Definition we_query (e : Event) : list string :=
  match e with
  | EvGet url params _ =>
      if String.eqb url WALLETEXPLORER_URL then
        match dict_get params "address" with
        | Some a => [a]
        | None => []
        end
      else []
  | _ => []
  end.

(** The addresses queried against the cluster oracle in a trace, in
    order. *)
Definition we_queries (tr : list Event) : list string :=
  flat_map we_query tr.

(** What one cluster-oracle lookup adds to the trace. *)
Definition we_events (address : string) : list Event :=
  [EvAcquire WALLETEXPLORER_LIMITER;
   EvGet WALLETEXPLORER_URL [("address", address); ("caller", "dustline")] [];
   EvRelease WALLETEXPLORER_LIMITER].

(** What one premium-oracle lookup adds to the trace. *)
Definition arkham_events (api_key address : string) : list Event :=
  [EvAcquire ARKHAM_LIMITER;
   EvGet (ARKHAM_API_URL ++ "/" ++ address) [] [("API-Key", api_key)];
   EvRelease ARKHAM_LIMITER].

Definition no_match (db : EntityDatabase) (a : string) : bool :=
  match lookup db a with Some _ => false | None => true end.

(** The addresses Tier 1 leaves unresolved, in the order of the index. *)
Definition tier1_unmatched (db : EntityDatabase) (g : GraphResult)
  : list string :=
  filter (no_match db) (map fst (build_address_nodes g)).

(** The warnings and the two Tier 2 counters of [g'] are those of [g]. *)
Definition same_report (g g' : GraphResult) : Prop :=
  warnings g' = warnings g
  /\ we_addresses_queried g' = we_addresses_queried g
  /\ we_addresses_total_unmatched g' = we_addresses_total_unmatched g.

(** The pipeline runs with Tier 2 enabled, queries exactly [queried]
    against the cluster oracle, appends [new_warnings] to the warnings of
    the graph, and leaves the two counters as the specification says. *)
Definition tier2_outcome (db : EntityDatabase) (g : GraphResult)
  (we_limit : option Z) (arkham_key : option string) (w : World)
  (queried new_warnings : list string) : Prop :=
  exists g' w' events,
    attribute_graph db g false we_limit arkham_key w = (Ok g', w')
    /\ trace w' = (trace w ++ events)%list
    /\ we_queries events = queried
    /\ warnings g' = (warnings g ++ new_warnings)%list
    /\ we_addresses_queried g' = Complexity.len queried
    /\ we_addresses_total_unmatched g'
       = Complexity.len (tier1_unmatched db g).

(** The warning Tier 2 appends: none without a cap, and under a cap [L]
    only when more than [L] addresses are unmatched. *)
Definition cap_warnings (we_limit : option Z) (unmatched : list string)
  : list string :=
  match we_limit with
  | Some L =>
      if L <? Complexity.len unmatched
      then [cap_warning L (Complexity.len unmatched)] else []
  | None => []
  end.

(** Tier 2 under a cap [L] as the specification words it: exactly [L]
    addresses, the first ones, are queried and the warning is emitted. *)
Definition capped_as_stated (db : EntityDatabase) (g : GraphResult)
  (L : Z) (arkham_key : option string) (w : World) : Prop :=
  let unmatched := tier1_unmatched db g in
  Complexity.len (firstn (Z.to_nat L) unmatched) = L
  /\ tier2_outcome db g (Some L) arkham_key w
       (firstn (Z.to_nat L) unmatched)
       [cap_warning L (Complexity.len unmatched)].

(** Tier 2 under a cap [L] as the code has it: the first [L] addresses, or
    all of them when there are fewer, and the warning only when some were
    left out. *)
Definition capped_as_coded (db : EntityDatabase) (g : GraphResult)
  (L : Z) (arkham_key : option string) (w : World) : Prop :=
  let unmatched := tier1_unmatched db g in
  tier2_outcome db g (Some L) arkham_key w
    (firstn (Z.to_nat L) unmatched)
    (if L <? Complexity.len unmatched
     then [cap_warning L (Complexity.len unmatched)] else []).

(** Thorough mode: everything unmatched is queried, no warning. *)
Definition uncapped (db : EntityDatabase) (g : GraphResult)
  (arkham_key : option string) (w : World) : Prop :=
  tier2_outcome db g None arkham_key w (tier1_unmatched db g) [].

(** A node paying to the given addresses. *)
Definition node_paying (t : string) (addresses : list string) : GraphNode :=
  {| txid := t;
     inputs := [];
     outputs := map (fun a => mkTxOutput (Some a) 5 P2WPKH false None)
                    addresses;
     fee_sat := 0; size_bytes := 0; weight := 0;
     timestamp := None; block_height := None; depth := 0;
     is_coinbase := false; rbf_signaled := false; resolved := true;
     attributed_entities := [] |}.

(** A graph of two transactions over four addresses, one of them known to
    the local store. *)
Definition small_graph : GraphResult :=
  with_nodes (new_GraphResult "t1" "t1")
    [("t1", node_paying "t1" ["a"; "b"; "c"]);
     ("t2", node_paying "t2" ["b"; "d"])].

Definition small_db : EntityDatabase :=
  {| _using_sqlite := false;
     _rows := [];
     _fallback := [("b", ("Binance", "exchange"))] |}.

(** A world whose oracle does not answer. *)
Definition silent_world : World := {| pending := []; trace := [] |}.

End AttributionSpec.

(** ** Script types (spec 3, 6, 8) *)

Module ScriptSpec.

Import Core.
Local Open Scope string_scope.

Definition known_tags : list string :=
  ["p2pkh"; "p2sh"; "v0_p2wpkh"; "v0_p2wsh"; "v1_p2tr"].

End ScriptSpec.

(** ** Further statements: token bucket and cost model *)

Module MoreSpec.

Import Core CostModel.
Local Open Scope string_scope.
Local Open Scope Q_scope.

(** The bucket holds between nothing and its capacity. *)
Definition bucket_ok (rl : Limiter.RateLimiter) : Prop :=
  0 <= Limiter._tokens rl /\ Limiter._tokens rl <= Limiter._max_tokens rl.


(** The cluster-oracle limiter after its burst of two. *)
Definition drained_walletexplorer : Limiter.RateLimiter :=
  snd (Limiter.acquire_all (Limiter.WALLETEXPLORER_LIMITER 0) [0; 0]).

(** The floors in the order of their thresholds. *)
Definition floor_rank (f : PrivacyFloor) : Z :=
  match f with
  | TRACEABLE => 0
  | COSTLY => 1
  | EXPENSIVE => 2
  | HIGH_FLOOR => 3
  | IMPRACTICAL => 4
  end.

(** Metrics of a chain of five transactions with three failed fetches. *)
Definition metrics_unresolved : ComplexityMetrics :=
  {| node_count := 8; edge_count := 4; unique_addresses := 10;
     max_depth := 5; avg_branch_factor := 62 # 10; max_branch_factor := 9;
     attribution_rate := 75 # 100; attributed_addresses := 7;
     total_addresses := 10; mixing_signals := 0; mixing_txids := [];
     coinjoin_detected := false; taproot_ratio := 6 # 10;
     unresolved_paths := 3;
     addresses_checked := 10; unattributed_addresses := 3;
     sources_exhausted := true; avg_fan_in := 7; max_fan_in := 9;
     root_pattern := None; root_pattern_detail := EmptyString;
     script_type_counts := []; total_value_sat := 0 |}.

End MoreSpec.

(** ** Further statements: parsing, neighbours, edges, requests *)

Module GraphSpec.

Import Py Core Http Graph.
Local Open Scope string_scope.
Local Open Scope Z_scope.

(** Every node is stored under its own txid. *)
Definition keyed_by_txid (ns : list (string * GraphNode)) : Prop :=
  Forall (fun kn => fst kn = txid (snd kn)) ns.

(** The outspend record at index [i] says the output is spent. *)
Definition spent_at (outspends : option (list Outspend)) (i : nat) : Prop :=
  exists os, outspend_at outspends i = Some os /\ os_spent os = Some true.

(** The outspend record at index [i] says the output is spent by [t]. *)
Definition spent_by (outspends : option (list Outspend)) (i : nat)
  (t : string) : Prop :=
  exists os,
    outspend_at outspends i = Some os
    /\ os_spent os = Some true /\ os_txid os = Some t.

(** The edge [_build_edges] makes of output [i] of [node]. *)
Definition edge_of_output (node : GraphNode) (i : nat) (out : TxOutput)
  (t : string) : GraphEdge :=
  {| from_txid := txid node;
     to_txid := t;
     edge_address := out_address out;
     edge_value_sat := value_sat out;
     vout_index := Z.of_nat i |}.

(** No resolved node spends from [address]. *)
Definition never_spent_from (ns : list (string * GraphNode))
  (address : string) : Prop :=
  forall k node inp,
    In (k, node) ns -> resolved node = true -> In inp (inputs node) ->
    in_address inp <> Some address.

(** The requests among some events. *)
Definition count_gets (evs : list Event) : nat :=
  List.length
    (filter (fun e => match e with EvGet _ _ _ => true | _ => false end) evs).

(** One guarded request. *)
Definition single_request (limiter url : string) : list Event :=
  [EvAcquire limiter; EvGet url [] []; EvRelease limiter].

(** A payment with two outputs, the first spent by [next]. *)
Definition sample_tx : EsploraTx :=
  {| tx_txid := Some "root";
     tx_vin :=
       Some [ {| vin_txid := Some "prev"; vin_vout := Some 1;
                 vin_prevout :=
                   Some {| po_scriptpubkey_address := Some "alice";
                           po_value := Some 900;
                           po_scriptpubkey_type := Some "v0_p2wpkh" |};
                 vin_is_coinbase := Some false;
                 vin_sequence := Some 4294967293 |} ];
     tx_vout :=
       Some [ {| vout_scriptpubkey_address := Some "bob";
                 vout_value := Some 500;
                 vout_scriptpubkey_type := Some "v1_p2tr" |};
              {| vout_scriptpubkey_address := Some "alice";
                 vout_value := Some 390;
                 vout_scriptpubkey_type := Some "v0_p2wpkh" |} ];
     tx_fee := Some 10; tx_size := Some 200; tx_weight := Some 600;
     tx_status := Some {| st_block_time := Some 1700000000;
                          st_block_height := Some 800000 |} |}.

Definition sample_outspends : list Outspend :=
  [ {| os_spent := Some true; os_txid := Some "next" |};
    {| os_spent := Some false; os_txid := None |} ].

(** A coinbase transaction. *)
Definition coinbase_tx : EsploraTx :=
  {| tx_txid := Some "cb";
     tx_vin :=
       Some [ {| vin_txid := Some "0000"; vin_vout := Some 4294967295;
                 vin_prevout := None; vin_is_coinbase := Some true;
                 vin_sequence := Some 4294967295 |} ];
     tx_vout :=
       Some [ {| vout_scriptpubkey_address := Some "miner";
                 vout_value := Some 625000000;
                 vout_scriptpubkey_type := Some "p2pkh" |} ];
     tx_fee := Some 0; tx_size := Some 100; tx_weight := Some 400;
     tx_status := None |}.

(** The graph of [sample_tx] and the transaction that spends it. *)
Definition sample_graph : GraphResult :=
  Attribution.with_nodes (new_GraphResult "root" "root")
    [("root", _parse_tx sample_tx 0 (Some sample_outspends));
     ("next", {| txid := "next"; inputs := []; outputs := [];
                 fee_sat := 0; size_bytes := 0; weight := 0;
                 timestamp := None; block_height := None; depth := 1;
                 is_coinbase := false; rbf_signaled := false;
                 resolved := false; attributed_entities := [] |})].

(** A transaction id that begins with the letters of a bech32 prefix. *)
Definition bc1_txid : string :=
  "bc1" ++ "0000000000000000000000000000000000000000000000000000000000000".

End GraphSpec.

(** ** Further statements: the attribution pipeline and its consumers *)

Module PipelineSpec.

Import Py Core Http Attribution AttributionSpec.
Local Open Scope string_scope.
Local Open Scope Z_scope.

(** [n'] is the transaction [n], its attributed entities apart. *)
Definition same_transaction (n n' : GraphNode) : Prop :=
  txid n' = txid n /\ inputs n' = inputs n /\ outputs n' = outputs n
  /\ fee_sat n' = fee_sat n /\ size_bytes n' = size_bytes n
  /\ weight n' = weight n /\ timestamp n' = timestamp n
  /\ block_height n' = block_height n /\ depth n' = depth n
  /\ is_coinbase n' = is_coinbase n /\ rbf_signaled n' = rbf_signaled n
  /\ resolved n' = resolved n.

(** [node] spends from or pays to [a]. *)
Definition touches (node : GraphNode) (a : string) : Prop :=
  (exists inp, In inp (inputs node) /\ in_address inp = Some a)
  \/ (exists out, In out (outputs node) /\ out_address out = Some a).

(** [a] is a non-empty address of an input or an output of the node of
    [g] whose txid is [t]. *)
Definition address_in_node (g : GraphResult) (a t : string) : Prop :=
  a <> EmptyString
  /\ exists k node, In (k, node) (nodes g) /\ txid node = t /\ touches node a.

(** [a] is a non-empty address of some input or output of the graph. *)
Definition address_of_graph (g : GraphResult) (a : string) : Prop :=
  exists t, address_in_node g a t.

(** The sum of the counts of a tally such as [by_source]. *)
Definition tally (d : list (string * Z)) : Z := Complexity.sum (map snd d).

(** The locals of [attribute_graph] agree with one another: one result per
    resolved address, in the order of resolution; every resolved address is
    an address of the index of [g0]; the counts by source add up to the
    number of results and those by category to at most as many; the graph
    still has the nodes of [g0]. *)
Definition consistent (g0 : GraphResult) (st : Locals) : Prop :=
  map ar_address (results st) = map fst (resolved_ st)
  /\ NoDup (map fst (resolved_ st))
  /\ incl (map fst (resolved_ st)) (map fst (build_address_nodes g0))
  /\ tally (by_source_ st) = Complexity.len (results st)
  /\ 0 <= tally (by_category_ st) <= Complexity.len (results st)
  /\ map fst (nodes (graph st)) = map fst (nodes g0).

(** A loop body that returns on every world, either with the locals it was
    given or with a match for the address in hand recorded. *)
Definition records_or_skips (an : list (string * list string))
  (step : Locals -> string -> M Locals) : Prop :=
  forall st x w, exists st' w',
    step st x w = (Ok st', w')
    /\ (st' = st
        \/ exists ar b, ar_address ar = x /\ st' = record_match an st x ar b).


(** [d.get(k)] on the object of a JSON answer. *)
Definition field (d : list (string * json)) (k : string) : json :=
  match dict_get d k with Some v => v | None => JNull end.

(** The answer [r] of the cluster oracle carries a label: a 2xx status and
    a JSON object with a true [found] or [_found]. *)
Definition found_answer (r : Response) (d : list (string * json)) : Prop :=
  200 <= status_code r < 300
  /\ body r = Some (JDict d)
  /\ (truthy (field d "found") = true \/ truthy (field d "_found") = true).

End PipelineSpec.

(* ================================================================== *)
(** * Rounding *)
(* ================================================================== *)


Module PyFacts.

Import Py.
Local Open Scope Q_scope.

Lemma round_half_even_comp (x y : Q) :
  x == y -> round_half_even x = round_half_even y.
Proof.
  intros E. unfold round_half_even.
  rewrite (Qfloor_comp _ _ E).
  assert (C : (x - inject_Z (Qfloor y) ?= 1 # 2) = (y - inject_Z (Qfloor y) ?= 1 # 2))
    by (apply Qcompare_comp; [rewrite E|]; reflexivity).
  rewrite C. reflexivity.
Qed.

(** The rounded value is within one half of the argument. *)
Lemma round_half_even_near (x : Q) :
  inject_Z (round_half_even x) - (1 # 2) <= x
  /\ x <= inject_Z (round_half_even x) + (1 # 2).
Proof.
  unfold round_half_even.
  pose proof (Qfloor_le x) as Hlo.
  pose proof (Qlt_floor x) as Hhi.
  rewrite inject_Z_plus in Hhi.
  set (f := Qfloor x) in *.
  assert (S1 : inject_Z (f + 1) == inject_Z f + 1)
    by (rewrite inject_Z_plus; reflexivity).
  change (inject_Z 1) with 1 in Hhi.
  destruct (x - inject_Z f ?= 1 # 2) eqn:C.
  - apply Qeq_alt in C.
    destruct (Z.even f); [|rewrite S1]; split; lra.
  - apply Qlt_alt in C. split; lra.
  - apply Qgt_alt in C. rewrite S1. split; lra.
Qed.

Lemma round_half_even_mono (x y : Q) :
  x <= y -> (round_half_even x <= round_half_even y)%Z.
Proof.
  intros L.
  destruct (Z_le_gt_dec (round_half_even x) (round_half_even y)) as [|G];
    [assumption|exfalso].
  destruct (round_half_even_near x) as [Lx _].
  destruct (round_half_even_near y) as [_ Uy].
  assert (G' : (round_half_even y + 1 <= round_half_even x)%Z) by lia.
  rewrite Zle_Qle, inject_Z_plus in G'.
  change (inject_Z 1) with 1 in G'.
  assert (E : x == y) by lra.
  apply round_half_even_comp in E. lia.
Qed.

Lemma scale_pos (n : nat) : 0 < inject_Z (10 ^ Z.of_nat n).
Proof.
  replace 0 with (inject_Z 0) by reflexivity.
  rewrite <- Zlt_Qlt. apply Z.pow_pos_nonneg; lia.
Qed.


Lemma round_mono (x y : Q) (n : nat) : x <= y -> round x n <= round y n.
Proof.
  intros L. unfold round.
  pose proof (scale_pos n) as P.
  set (s := inject_Z (10 ^ Z.of_nat n)) in *.
  apply Qmult_le_compat_r.
  - rewrite <- Zle_Qle. apply round_half_even_mono.
    apply Qmult_le_compat_r; [assumption | lra].
  - apply Qlt_le_weak, Qinv_lt_0_compat, P.
Qed.

End PyFacts.

(* ================================================================== *)
(** * Script types *)
(* ================================================================== *)

Module ScriptFacts.

Import Py Core ScriptSpec.
Local Open Scope string_scope.

Lemma from_esplora_other (s : string) :
  ~ In s known_tags -> from_esplora s = UNKNOWN.
Proof.
  intros N.
  cbv beta iota fix delta [from_esplora esplora_mapping dict_get].
  repeat match goal with
         | |- context [String.eqb ?a s] =>
             destruct (String.eqb_spec a s) as [E|_];
             [exfalso; apply N; rewrite <- E; simpl; tauto|]
         end.
  reflexivity.
Qed.

(** C9. [from_esplora] is a total function that sends the five known
    provider tags to five distinct variants, is injective on them, and
    sends every other string to [UNKNOWN]. *)
Theorem C9_from_esplora_injective_on_known_tags :
  map from_esplora known_tags = [P2PKH; P2SH; P2WPKH; P2WSH; P2TR]
  /\ NoDup (map from_esplora known_tags)
  /\ (forall a b, In a known_tags -> In b known_tags ->
                  from_esplora a = from_esplora b -> a = b)
  /\ (forall s, ~ In s known_tags -> from_esplora s = UNKNOWN)
  /\ (forall s, exists st, from_esplora s = st).
Proof.
  split; [reflexivity|].
  split.
  { simpl. repeat constructor; simpl; intuition discriminate. }
  split.
  { intros a b Ha Hb.
    simpl in Ha, Hb.
    repeat destruct Ha as [<-|Ha]; try contradiction;
      repeat destruct Hb as [<-|Hb]; try contradiction;
      vm_compute; intros E; try reflexivity; discriminate E. }
  split; [exact from_esplora_other|].
  intros s. eexists. reflexivity.
Qed.

Lemma C9_witness :
  "v1_p2tr" = "v1_p2tr" /\ from_esplora "p2wpkh" = UNKNOWN.
Proof.
  destruct C9_from_esplora_injective_on_known_tags as (_ & _ & I & O & _).
  split.
  - apply I; [simpl; tauto | simpl; tauto | reflexivity].
  - apply O. simpl. intuition discriminate.
Defined.

End ScriptFacts.

(* ================================================================== *)
(** * Cost model *)
(* ================================================================== *)

Module CostFacts.

Import Py Core CostModel CostSpec PyFacts.
Local Open Scope string_scope.
Local Open Scope Q_scope.

Lemma Qltb_spec (x y : Q) : Qltb x y = true <-> x < y.
Proof.
  unfold Qltb. rewrite negb_true_iff.
  split; intros H.
  - apply Qnot_le_lt. intros L. apply Qle_bool_iff in L. congruence.
  - destruct (Qle_bool y x) eqn:E; [|reflexivity].
    apply Qle_bool_iff in E. exfalso. apply (Qlt_not_le _ _ H E).
Qed.

Lemma Qltb_false (x y : Q) : Qltb x y = false <-> y <= x.
Proof.
  unfold Qltb. rewrite negb_false_iff. apply Qle_bool_iff.
Qed.

Lemma zero_hop_spec (m : ComplexityMetrics) :
  zero_hop m = true <-> takes_short_circuit m.
Proof.
  unfold zero_hop, takes_short_circuit.
  rewrite andb_true_iff, Z.eqb_eq, Z.leb_le. reflexivity.
Qed.

Lemma zero_hop_not (m : ComplexityMetrics) :
  ~ takes_short_circuit m -> zero_hop m = false.
Proof.
  intros N. destruct (zero_hop m) eqn:E; [|reflexivity].
  apply zero_hop_spec in E. contradiction.
Qed.

(** Decide a comparison of the code and the matching one of the
    specification together. *)
Ltac both_ways x y :=
  let H := fresh "H" in
  destruct (Qltb x y) eqn:H;
  [apply Qltb_spec in H | apply Qltb_false in H];
  destruct (Qlt_le_dec x y) as [?|?];
  try (exfalso; lra).

Lemma base_minutes_agree (r : Q) : _base_time_per_hop r == spec_base_minutes r.
Proof.
  unfold _base_time_per_hop, spec_base_minutes, BASE_TIME_THRESHOLDS, float.
  cbn [first_threshold_below].
  both_ways (7 # 10) r; [reflexivity|].
  both_ways (4 # 10) r; [reflexivity|].
  both_ways (1 # 10) r; [reflexivity|].
  destruct (Qltb 0 r); reflexivity.
Qed.

Lemma tiers_unfold (m : ComplexityMetrics) :
  zero_hop m = false ->
  tiers (compute_cost m)
  = map (tier_estimate (code_hours_low m) (code_hours_high m)) TIERS.
Proof.
  intros Z. unfold compute_cost. rewrite Z. reflexivity.
Qed.









(** C3. With [max_depth == 0] and [node_count <= 1], [compute_cost]
    returns the short-circuit estimate: three tiers with zero hours and
    zero dollars, the four multipliers equal to 1, zero base hours per hop,
    zero hops, zero unresolved hours, floor traceable, confidence high. *)
Theorem C3_zero_hop_short_circuit (m : ComplexityMetrics) :
  max_depth m = 0%Z -> (node_count m <= 1)%Z ->
  zero_estimate (compute_cost m).
Proof.
  intros D N.
  assert (Z : zero_hop m = true) by (apply zero_hop_spec; split; assumption).
  unfold zero_estimate, compute_cost. rewrite Z.
  cbn [tiers mixing_multiplier branching_multiplier taproot_multiplier
       fan_in_multiplier base_hours_per_hop total_hops unresolved_hours
       privacy_floor confidence].
  split; [reflexivity|].
  split.
  { unfold TIERS. cbn [map].
    repeat (apply Forall_cons; [repeat split; reflexivity|]).
    apply Forall_nil. }
  repeat split; reflexivity.
Qed.

Lemma C3_witness : zero_estimate (compute_cost metrics_dormant).
Proof.
  apply (C3_zero_hop_short_circuit metrics_dormant).
  - reflexivity.
  - simpl. lia.
Defined.

Lemma confidence_unfold (m : ComplexityMetrics) :
  zero_hop m = false ->
  confidence (compute_cost m)
  = let grade :=
      grade_confidence (attribution_rate m) (unresolved_paths m) in
    if sources_exhausted m
       && (String.eqb grade "low" || String.eqb grade "very low")
    then "moderate" else grade.
Proof.
  intros Z. unfold compute_cost. rewrite Z. reflexivity.
Qed.

Lemma grade_confidence_graded (m : ComplexityMetrics) :
  graded m (grade_confidence (attribution_rate m) (unresolved_paths m)).
Proof.
  unfold graded, grade_confidence. cbv zeta.
  set (r := attribution_rate m).
  destruct (Qle_bool (7 # 10) r) eqn:H7;
    [apply Qle_bool_iff in H7
    |assert (N7 : ~ 7 # 10 <= r)
       by (intros L; apply Qle_bool_iff in L; congruence)];
  destruct (Z.eqb_spec (unresolved_paths m) 0) as [U|U];
  destruct (Qle_bool (4 # 10) r) eqn:H4;
    try (apply Qle_bool_iff in H4);
    try (assert (N4 : ~ 4 # 10 <= r)
           by (intros L; apply Qle_bool_iff in L; congruence));
  destruct (Qle_bool (1 # 10) r) eqn:H1;
    try (apply Qle_bool_iff in H1);
    try (assert (N1 : ~ 1 # 10 <= r)
           by (intros L; apply Qle_bool_iff in L; congruence));
  cbn [andb];
  repeat split; intros; try reflexivity;
    try tauto; try (exfalso; lra).
Qed.

Lemma promotion_promoted (m : ComplexityMetrics) (grade : string) :
  promoted m grade
    (if sources_exhausted m
        && (String.eqb grade "low" || String.eqb grade "very low")
     then "moderate" else grade).
Proof.
  unfold promoted.
  destruct (sources_exhausted m);
    destruct (String.eqb_spec grade "low") as [L|L];
    destruct (String.eqb_spec grade "very low") as [V|V];
    cbn [andb orb]; split; intros H; try reflexivity;
    try (exfalso; intuition congruence).
Qed.

(** C4. Outside the zero-hop short-circuit, the confidence [compute_cost]
    returns is the grade by attribution rate -- high when the rate is at
    least 0.7 and nothing is unresolved, else moderate from 0.4, else low
    from 0.1, else very low -- promoted to moderate when the sources were
    exhausted and the grade is low or very low.  In particular attribution
    0.05 with nothing unresolved and the sources exhausted gives
    moderate. *)
Theorem C4_confidence_grade_and_promotion (m : ComplexityMetrics) :
  ~ takes_short_circuit m ->
  (exists grade,
      graded m grade /\ promoted m grade (confidence (compute_cost m)))
  /\ (attribution_rate m == 5 # 100 -> unresolved_paths m = 0%Z ->
      sources_exhausted m = true ->
      confidence (compute_cost m) = "moderate").
Proof.
  intros N. apply zero_hop_not in N.
  rewrite (confidence_unfold m N). cbv zeta.
  split.
  - eexists. split; [apply grade_confidence_graded | apply promotion_promoted].
  - intros R U S. rewrite S.
    unfold grade_confidence.
    assert (F7 : Qle_bool (7 # 10) (attribution_rate m) = false).
    { destruct (Qle_bool (7 # 10) (attribution_rate m)) eqn:E;
        [apply Qle_bool_iff in E; exfalso; lra | reflexivity]. }
    assert (F4 : Qle_bool (4 # 10) (attribution_rate m) = false).
    { destruct (Qle_bool (4 # 10) (attribution_rate m)) eqn:E;
        [apply Qle_bool_iff in E; exfalso; lra | reflexivity]. }
    assert (F1 : Qle_bool (1 # 10) (attribution_rate m) = false).
    { destruct (Qle_bool (1 # 10) (attribution_rate m)) eqn:E;
        [apply Qle_bool_iff in E; exfalso; lra | reflexivity]. }
    rewrite F7, F4, F1. reflexivity.
Qed.

Lemma C4_witness : confidence (compute_cost metrics_s6) = "moderate".
Proof.
  refine (proj2 (C4_confidence_grade_and_promotion metrics_s6 _) _ _ _).
  - intros [D _]. discriminate D.
  - reflexivity.
  - reflexivity.
  - reflexivity.
Defined.

Lemma base_minutes_pos (r : Q) : 0 < _base_time_per_hop r.
Proof.
  rewrite base_minutes_agree. unfold spec_base_minutes.
  repeat destruct (Qlt_le_dec _ r); reflexivity.
Qed.

Lemma code_multiplier_pos (m : ComplexityMetrics) : 0 < code_multiplier m.
Proof.
  unfold code_multiplier, MIXING_MULTIPLIER, TAPROOT_THRESHOLD,
    TAPROOT_MULTIPLIER.
  assert (P : forall x, 0 < (if Qltb 5 x then x / 5 else 1)).
  { intros x. destruct (Qltb 5 x) eqn:E; [|reflexivity].
    apply Qltb_spec in E. apply Qlt_shift_div_l; lra. }
  repeat apply Qmult_lt_0_compat; try apply P.
  - destruct (coinjoin_detected m); reflexivity.
  - destruct (Qltb _ _); reflexivity.
Qed.

Lemma code_hours_low_pos (m : ComplexityMetrics) : 0 < code_hours_low m.
Proof.
  unfold code_hours_low, float.
  apply Qmult_lt_0_compat; [apply Qmult_lt_0_compat|].
  - apply Qlt_shift_div_l; [reflexivity|].
    pose proof (base_minutes_pos (attribution_rate m)). lra.
  - replace 0 with (inject_Z 0) by reflexivity. rewrite <- Zlt_Qlt. lia.
  - apply code_multiplier_pos.
Qed.

Lemma code_hours_ordered (m : ComplexityMetrics) :
  (0 <= unresolved_paths m)%Z -> code_hours_low m <= code_hours_high m.
Proof.
  intros U. unfold code_hours_high, HIGH_ESTIMATE_FACTOR,
    UNRESOLVED_HOURS_EACH, float.
  pose proof (code_hours_low_pos m) as P.
  assert (U' : 0 <= inject_Z (unresolved_paths m))
    by (replace 0 with (inject_Z 0) by reflexivity; rewrite <- Zle_Qle; lia).
  lra.
Qed.

Lemma tier_estimate_ordered (lo hi : Q) (td : TierDef) :
  lo <= hi -> 0 <= rate td + tooling td ->
  tier_ordered (tier_estimate lo hi td).
Proof.
  intros L R. unfold tier_ordered, tier_estimate.
  cbn [estimated_hours_low estimated_hours_high total_low total_high].
  split; apply round_mono; [assumption|].
  apply Qmult_le_compat_r; assumption.
Qed.

(** C10. For metrics with non-negative fields, every tier [compute_cost]
    returns has its low hours at most its high hours and its low total at
    most its high total. *)
Theorem C10_low_estimates_below_high (m : ComplexityMetrics) :
  (0 <= unresolved_paths m)%Z ->
  0 <= attribution_rate m ->
  0 <= avg_branch_factor m ->
  0 <= taproot_ratio m ->
  0 <= avg_fan_in m ->
  Forall tier_ordered (tiers (compute_cost m)).
Proof.
  intros U _ _ _ _.
  destruct (zero_hop m) eqn:Z.
  - unfold compute_cost. rewrite Z. unfold TIERS. cbn [tiers map].
    repeat (apply Forall_cons; [split; apply Qle_refl|]).
    apply Forall_nil.
  - rewrite (tiers_unfold m Z). unfold TIERS. cbn [map].
    pose proof (code_hours_ordered m U) as L.
    repeat (apply Forall_cons;
            [apply tier_estimate_ordered; [exact L | discriminate]|]).
    apply Forall_nil.
Qed.

Lemma C10_witness : Forall tier_ordered (tiers (compute_cost metrics_s2)).
Proof.
  apply (C10_low_estimates_below_high metrics_s2);
    cbn; try lia; discriminate.
Defined.

End CostFacts.

(* ================================================================== *)
(** * CoinJoin detection *)
(* ================================================================== *)

Module CoinjoinFacts.

Import Core Complexity CoinjoinSpec.
Local Open Scope Z_scope.

(** ** The histogram *)

Lemma counted_incr (c : list (Z * Z)) (u v : Z) :
  counted (counter_incr c u) v = counted c v + (if u =? v then 1 else 0).
Proof.
  induction c as [|[k n] c IH]; cbn [counter_incr counted].
  - lia.
  - destruct (Z.eqb_spec k u) as [->|Hku]; cbn [counted].
    + destruct (u =? v); lia.
    + rewrite IH.
      destruct (Z.eqb_spec k v) as [->|Hkv]; [|reflexivity].
      destruct (Z.eqb_spec u v); [congruence | lia].
Qed.

Lemma keys_incr (c : list (Z * Z)) (u k : Z) :
  In k (map fst (counter_incr c u)) <-> k = u \/ In k (map fst c).
Proof.
  induction c as [|[k' n] c IH]; cbn [counter_incr map fst In].
  - intuition.
  - destruct (Z.eqb_spec k' u) as [->|Hku]; cbn [map fst In].
    + intuition.
    + rewrite IH. intuition.
Qed.

Lemma nodup_incr (c : list (Z * Z)) (u : Z) :
  NoDup (map fst c) -> NoDup (map fst (counter_incr c u)).
Proof.
  induction c as [|[k n] c IH]; cbn [counter_incr map fst]; intros ND.
  - constructor; [intros []|constructor].
  - inversion ND as [|? ? Hnin ND']; subst.
    destruct (Z.eqb_spec k u) as [->|Hku]; cbn [map fst].
    + constructor; assumption.
    + constructor; [|apply IH; assumption].
      rewrite keys_incr. intuition.
Qed.

Lemma counted_absent (c : list (Z * Z)) (v : Z) :
  ~ In v (map fst c) -> counted c v = 0.
Proof.
  induction c as [|[k n] c IH]; cbn [counted map fst In]; intros N.
  - reflexivity.
  - destruct (Z.eqb_spec k v); [tauto | apply IH; tauto].
Qed.

Lemma counted_In (c : list (Z * Z)) (v n : Z) :
  NoDup (map fst c) -> In (v, n) c -> counted c v = n.
Proof.
  induction c as [|[k m] c IH]; cbn [counted map fst In]; intros ND H.
  - contradiction.
  - inversion ND as [|? ? Hnin ND']; subst.
    destruct H as [E|H].
    + injection E as -> ->. rewrite Z.eqb_refl. reflexivity.
    + destruct (Z.eqb_spec k v) as [->|_]; [|apply IH; assumption].
      exfalso. apply Hnin. apply (in_map fst) in H. exact H.
Qed.

Lemma In_counted (c : list (Z * Z)) (v : Z) :
  In v (map fst c) -> In (v, counted c v) c.
Proof.
  induction c as [|[k n] c IH]; cbn [counted map fst In]; intros H.
  - contradiction.
  - destruct (Z.eqb_spec k v) as [->|Hkv]; [left; reflexivity|].
    right. apply IH. tauto.
Qed.

(** The state of the histogram after a run of increments. *)
Lemma fold_incr (l : list Z) (c : list (Z * Z)) :
  NoDup (map fst c) ->
  NoDup (map fst (fold_left counter_incr l c))
  /\ (forall k, In k (map fst (fold_left counter_incr l c))
                <-> In k (map fst c) \/ In k l)
  /\ (forall v, counted (fold_left counter_incr l c) v
                = counted c v + Z.of_nat (count_occ Z.eq_dec l v)).
Proof.
  revert c. induction l as [|u l IH]; intros c ND; cbn [fold_left].
  - split; [assumption|]. split; [intros; cbn; tauto | intros; cbn; lia].
  - destruct (IH (counter_incr c u) (nodup_incr c u ND)) as (N & K & C).
    split; [exact N|]. split.
    + intros k. rewrite K, keys_incr. cbn [In]. intuition.
    + intros v. rewrite C, counted_incr. cbn [count_occ].
      destruct (Z.eq_dec u v) as [->|Huv].
      * rewrite Z.eqb_refl. lia.
      * destruct (Z.eqb_spec u v); [contradiction | lia].
Qed.

Lemma Counter_spec (l : list Z) (v n : Z) :
  In (v, n) (Counter l)
  <-> In v l /\ n = Z.of_nat (count_occ Z.eq_dec l v).
Proof.
  unfold Counter.
  destruct (fold_incr l [] (NoDup_nil Z)) as (N & K & C).
  split.
  - intros H. split.
    + apply (in_map fst) in H. apply K in H. cbn in H. tauto.
    + rewrite <- (counted_In _ _ _ N H), C. reflexivity.
  - intros [H ->].
    replace (Z.of_nat (count_occ Z.eq_dec l v))
      with (counted (fold_left counter_incr l []) v)
      by (rewrite C; reflexivity).
    apply In_counted. apply K. right. exact H.
Qed.

Lemma Counter_nodup (l : list Z) : NoDup (map fst (Counter l)).
Proof. apply (fold_incr l [] (NoDup_nil Z)). Qed.

Lemma count_occ_positive (outs : list TxOutput) (v : Z) :
  0 < v ->
  count_occ Z.eq_dec
    (map value_sat (filter (fun out => 0 <? value_sat out) outs)) v
  = count_occ Z.eq_dec (map value_sat outs) v.
Proof.
  intros P. induction outs as [|o outs IH]; cbn [filter map count_occ].
  - reflexivity.
  - destruct (Z.ltb_spec 0 (value_sat o)) as [Ho|Ho]; cbn [map count_occ].
    + rewrite IH. reflexivity.
    + rewrite IH. destruct (Z.eq_dec (value_sat o) v); [lia | reflexivity].
Qed.

Lemma In_positive (outs : list TxOutput) (v : Z) :
  In v (map value_sat (filter (fun out => 0 <? value_sat out) outs))
  <-> 0 < v /\ In v (map value_sat outs).
Proof.
  rewrite !in_map_iff. split.
  - intros (o & <- & H). apply filter_In in H. destruct H as [H P].
    apply Z.ltb_lt in P. split; [exact P | exists o; tauto].
  - intros (P & o & <- & H). exists o. split; [reflexivity|].
    apply filter_In. split; [exact H | apply Z.ltb_lt; exact P].
Qed.

(** The histogram of the code holds exactly the positive output values,
    each with the number of outputs that carry it. *)
Lemma value_counts_spec (node : GraphNode) (v n : Z) :
  In (v, n) (value_counts_of (outputs node))
  <-> 0 < v /\ 1 <= n /\ n = occurrences node v.
Proof.
  unfold value_counts_of, occurrences. rewrite Counter_spec, In_positive.
  split.
  - intros ((P & H) & ->). rewrite (count_occ_positive _ _ P).
    split; [exact P|]. split; [|reflexivity].
    apply (count_occ_In Z.eq_dec) in H. lia.
  - intros (P & H1 & ->). rewrite (count_occ_positive _ _ P).
    split; [|reflexivity]. split; [exact P|].
    apply (count_occ_In Z.eq_dec). lia.
Qed.

(** ** The three checks *)

Lemma mem_In (v : Z) (s : list Z) : mem v s = true <-> In v s.
Proof.
  unfold mem. rewrite existsb_exists. split.
  - intros (x & H & E). apply Z.eqb_eq in E. subst. exact H.
  - intros H. exists v. split; [exact H | apply Z.eqb_refl].
Qed.

Lemma check1_spec (node : GraphNode) :
  existsb (fun vc => (3 <=? snd vc) && mem (fst vc) ALL_KNOWN_DENOMINATIONS)
          (value_counts_of (outputs node)) = true
  <-> known_denomination_match node.
Proof.
  rewrite existsb_exists. unfold known_denomination_match. split.
  - intros ([v n] & H & C). cbn [fst snd] in C.
    apply andb_true_iff in C. destruct C as [C3 CM].
    apply Z.leb_le in C3. apply mem_In in CM.
    apply value_counts_spec in H. destruct H as (P & _ & ->).
    exists v. repeat split; assumption.
  - intros (v & P & K & O).
    exists (v, occurrences node v). split.
    + apply value_counts_spec. repeat split; [exact P | lia].
    + cbn [fst snd]. apply andb_true_iff. split.
      * apply Z.leb_le. exact O.
      * apply mem_In. exact K.
Qed.

(** [max(items, key=count)] returns an item, and no item counts more. *)
Lemma fold_best (c : list (Z * Z)) (x : Z * Z) :
  let b := fold_left (fun best y => if snd best <? snd y then y else best)
                     c x in
  (b = x \/ In b c)
  /\ snd x <= snd b
  /\ (forall y, In y c -> snd y <= snd b).
Proof.
  revert x. induction c as [|y c IH]; intros x; cbn [fold_left].
  - cbv zeta. split; [left; reflexivity|]. split; [lia | intros ? []].
  - specialize (IH (if snd x <? snd y then y else x)). cbv zeta in IH |- *.
    destruct IH as (I & L & A).
    destruct (Z.ltb_spec (snd x) (snd y)) as [Hxy|Hxy].
    + split; [right; destruct I as [->|I]; [left; reflexivity | right; exact I]|].
      split; [lia|].
      intros z [<-|Hz]; [exact L | apply A; exact Hz].
    + split; [destruct I as [->|I]; [left; reflexivity | right; right; exact I]|].
      split; [exact L|].
      intros z [<-|Hz]; [lia | apply A; exact Hz].
Qed.

Lemma most_common_1_spec (c : list (Z * Z)) (b : Z * Z) (rest : list (Z * Z)) :
  most_common_1 c = b :: rest ->
  In b c /\ (forall y, In y c -> snd y <= snd b).
Proof.
  destruct c as [|x c]; cbn [most_common_1]; intros E; [discriminate|].
  injection E as <- _.
  destruct (fold_best c x) as (I & L & A).
  split.
  - destruct I as [->|I]; [left; reflexivity | right; exact I].
  - intros y [<-|Hy]; [exact L | apply A; exact Hy].
Qed.

Lemma half_lt_ratio (n len : Z) :
  0 < len ->
  (CostModel.Qltb (5 # 10) (inject_Z n / inject_Z len) = true
   <-> len < 2 * n).
Proof.
  intros P. rewrite CostFacts.Qltb_spec.
  assert (PQ : (0 < inject_Z len)%Q)
    by (replace 0%Q with (inject_Z 0) by reflexivity;
        rewrite <- Zlt_Qlt; exact P).
  assert (E : ((5 # 10) * inject_Z len < inject_Z n)%Q <-> len < 2 * n).
  { unfold Qlt, Qmult, inject_Z. cbn [Qnum Qden]. lia. }
  rewrite <- E. split.
  - intros H.
    apply (Qmult_lt_r _ _ (inject_Z len)) in H; [|exact PQ].
    rewrite Qmult_comm in H.
    setoid_replace (inject_Z n / inject_Z len * inject_Z len)%Q
      with (inject_Z n) in H
      by (field; intros Z0; rewrite Z0 in PQ; discriminate PQ).
    rewrite Qmult_comm. exact H.
  - intros H. apply Qlt_shift_div_l; assumption.
Qed.

Lemma check2_spec (node : GraphNode) (mv mc : Z) (rest : list (Z * Z)) :
  5 <= n_outputs node ->
  most_common_1 (value_counts_of (outputs node)) = (mv, mc) :: rest ->
  ((MIN_EQUAL_OUTPUTS_FOR_COINJOIN <=? mc)
   && CostModel.Qltb (5 # 10) (inject_Z mc / inject_Z (len (outputs node)))
   = true
   <-> majority_equal_outputs node).
Proof.
  intros N M. apply most_common_1_spec in M. destruct M as [I A].
  apply value_counts_spec in I. destruct I as (P & P1 & ->).
  change (len (outputs node)) with (n_outputs node).
  rewrite andb_true_iff, Z.leb_le, half_lt_ratio by lia.
  unfold MIN_EQUAL_OUTPUTS_FOR_COINJOIN, majority_equal_outputs.
  assert (Max : forall u, 0 < u -> occurrences node u <= occurrences node mv).
  { intros u Pu.
    destruct (Z_le_gt_dec (occurrences node u) 0) as [Zu|Zu]; [lia|].
    apply (A (u, occurrences node u)).
    apply value_counts_spec. repeat split; [exact Pu | lia]. }
  split.
  - intros [H5 H2]. exists mv. repeat split; assumption.
  - intros (v & Pv & Mv & H5 & H2).
    assert (occurrences node v = occurrences node mv)
      by (pose proof (Max v Pv); pose proof (Mv mv P); lia).
    lia.
Qed.

Lemma nodup_keys_filter (p : Z * Z -> bool) (c : list (Z * Z)) :
  NoDup (map fst c) -> NoDup (map fst (filter p c)).
Proof.
  induction c as [|x c IH]; cbn [filter map]; intros ND; [constructor|].
  inversion ND as [|? ? Hnin ND']; subst.
  destruct (p x); cbn [map]; [|apply IH; exact ND'].
  constructor; [|apply IH; exact ND'].
  intros H. apply Hnin. apply in_map_iff in H.
  destruct H as (y & E & Hy). apply filter_In in Hy.
  apply in_map_iff. exists y. tauto.
Qed.

Lemma check3_spec (node : GraphNode) :
  3 <= len (filter (fun vc => 3 <=? snd vc) (value_counts_of (outputs node)))
  <-> three_equal_groups node.
Proof.
  set (c := value_counts_of (outputs node)).
  set (f := filter (fun vc => 3 <=? snd vc) c).
  assert (Hf : forall v n, In (v, n) f
                           <-> 0 < v /\ n = occurrences node v /\ 3 <= n).
  { intros v n. unfold f. rewrite filter_In. unfold c.
    rewrite value_counts_spec. cbn [snd]. rewrite Z.leb_le. intuition lia. }
  assert (ND : NoDup (map fst f)).
  { apply nodup_keys_filter. apply Counter_nodup. }
  unfold three_equal_groups, len. split.
  - intros L.
    destruct f as [|[v1 n1] [|[v2 n2] [|[v3 n3] f']]];
      cbn [List.length] in L; try lia.
    cbn [map fst] in ND.
    inversion ND as [|? ? N1 ND1]; subst.
    inversion ND1 as [|? ? N2 ND2]; subst.
    cbn [In] in N1, N2.
    destruct (proj1 (Hf v1 n1)) as (P1 & -> & O1); [cbn; tauto|].
    destruct (proj1 (Hf v2 n2)) as (P2 & -> & O2); [cbn; tauto|].
    destruct (proj1 (Hf v3 n3)) as (P3 & -> & O3); [cbn; tauto|].
    exists v1, v2, v3. repeat split; try assumption; intros E; subst; tauto.
  - intros (v1 & v2 & v3 & D12 & D13 & D23 & P1 & P2 & P3 & O1 & O2 & O3).
    assert (I : incl [(v1, occurrences node v1); (v2, occurrences node v2);
                      (v3, occurrences node v3)] f).
    { intros x [<-|[<-|[<-|[]]]]; apply Hf; repeat split; assumption. }
    apply NoDup_incl_length in I.
    + cbn [List.length] in I. lia.
    + repeat constructor; cbn [In]; intros H;
        repeat destruct H as [H|H]; try contradiction;
        injection H as E; congruence.
Qed.

(** The check on one node: the three conditions of the specification, at
    least five outputs, only positive values in the histogram. *)
Lemma is_coinjoin_spec (node : GraphNode) :
  (_is_coinjoin node = true <-> coinjoin_by_spec node)
  /\ (n_outputs node < 5 -> _is_coinjoin node = false)
  /\ (forall v n, In (v, n) (value_counts_of (outputs node)) ->
                  0 < v /\ n = occurrences node v).
Proof.
  assert (Few : n_outputs node < 5 -> _is_coinjoin node = false).
  { intros F. unfold _is_coinjoin. cbv zeta.
    change (len (outputs node)) with (n_outputs node).
    unfold MIN_EQUAL_OUTPUTS_FOR_COINJOIN.
    destruct (Z.ltb_spec (n_outputs node) 5); [reflexivity | lia]. }
  split; [|split; [exact Few|]].
  2: { intros v n H. apply value_counts_spec in H. tauto. }
  unfold coinjoin_by_spec.
  destruct (Z_lt_ge_dec (n_outputs node) 5) as [F|G].
  { rewrite (Few F). split; [discriminate | intros [? _]; lia]. }
  assert (G' : 5 <= n_outputs node) by lia.
  unfold _is_coinjoin. cbv zeta.
  change (len (outputs node)) with (n_outputs node) at 1.
  unfold MIN_EQUAL_OUTPUTS_FOR_COINJOIN at 1.
  destruct (Z.ltb_spec (n_outputs node) 5) as [?|_]; [lia|].
  pose proof (check1_spec node) as C1.
  pose proof (check3_spec node) as C3.
  pose proof (check2_spec node) as C2.
  destruct (most_common_1 (value_counts_of (outputs node)))
    as [|[mv mc] rest] eqn:M.
  - (* the histogram is empty *)
    assert (E : value_counts_of (outputs node) = []).
    { destruct (value_counts_of (outputs node)); [reflexivity|].
      cbn in M. discriminate M. }
    assert (Nothing : forall v, 0 < v -> 3 <= occurrences node v -> False).
    { intros v P O.
      assert (I : In (v, occurrences node v) (value_counts_of (outputs node)))
        by (apply value_counts_spec; repeat split; [exact P | lia]).
      rewrite E in I. exact I. }
    split; [discriminate|].
    intros (_ & [(v & P & _ & O) | [(v & P & _ & O & _)
                | (v & _ & _ & _ & _ & _ & P & _ & _ & O & _)]]);
      exfalso; apply (Nothing v P); lia.
  - specialize (C2 mv mc rest G' eq_refl).
    destruct (existsb _ (value_counts_of (outputs node))) eqn:E1.
    { split; [intros _; split; [exact G' | left; apply C1; reflexivity]
             | reflexivity]. }
    destruct (_ && _) eqn:E2.
    { split; [intros _; split; [exact G' | right; left; apply C2; reflexivity]
             | reflexivity]. }
    destruct (Z.leb_spec 3 (len (filter (fun vc => 3 <=? snd vc)
                                        (value_counts_of (outputs node)))))
      as [E3|E3].
    { split; [intros _; split; [exact G' | right; right; apply C3; exact E3]
             | reflexivity]. }
    split; [discriminate|].
    intros (_ & [K | [Mj | T]]).
    + apply C1 in K. discriminate K.
    + apply C2 in Mj. discriminate Mj.
    + apply C3 in T. lia.
Qed.

(** The nodes [compute_complexity] reports as mixing are the resolved
    nodes [_is_coinjoin] accepts. *)
Lemma mixing_txids_spec (g : GraphResult) (t : string) :
  In t (mixing_txids (compute_complexity g))
  <-> exists node,
        In node (map snd (nodes g))
        /\ resolved node = true /\ txid node = t
        /\ _is_coinjoin node = true.
Proof.
  unfold compute_complexity.
  destruct (map snd (nodes g)) as [|n0 ns] eqn:E.
  - cbn. split; [intros [] | intros (node & [] & _)].
  - destruct (attribution_summary g);
      destruct (Py.dict_get (nodes g) (root_txid g)) as [root|];
      try destruct (resolved root);
      try destruct (_classify_tx_pattern root _);
      cbn [mixing_txids]; rewrite in_map_iff;
      (split;
       [intros (node & T & F); apply filter_In in F; destruct F as [I C];
        apply andb_true_iff in C; exists node; tauto
       |intros (node & I & R & T & C); exists node; split; [exact T|];
        apply filter_In; split; [exact I|]; rewrite R, C; reflexivity]).
Qed.

(** C2. A resolved node of the graph is flagged as CoinJoin exactly when it
    has at least five outputs and, over the histogram of its positive
    output values, a known denomination occurs three times, or the most
    frequent value occurs five times and on more than half of the outputs,
    or three distinct values occur three times each.  A node with fewer
    than five outputs is never flagged, and the histogram of the code has
    no entry for a value that is not positive. *)
Theorem C2_is_coinjoin_iff_spec :
  (forall node,
      (_is_coinjoin node = true <-> coinjoin_by_spec node)
      /\ (n_outputs node < 5 -> _is_coinjoin node = false)
      /\ (forall v n, In (v, n) (value_counts_of (outputs node)) ->
                      0 < v /\ n = occurrences node v))
  /\ (forall g t,
        In t (mixing_txids (compute_complexity g))
        <-> exists node,
              In node (map snd (nodes g))
              /\ resolved node = true /\ txid node = t
              /\ coinjoin_by_spec node).
Proof.
  split; [exact is_coinjoin_spec|].
  intros g t. rewrite mixing_txids_spec.
  split; intros (node & I & R & T & C); exists node;
    (split; [exact I|]; split; [exact R|]; split; [exact T|]);
    apply (proj1 (is_coinjoin_spec node)); exact C.
Qed.

Lemma C2_witness :
  _is_coinjoin wasabi_node = true
  /\ _is_coinjoin (node_with_outputs [7; 7; 7; 7]) = false.
Proof.
  split.
  - apply (proj1 (proj1 C2_is_coinjoin_iff_spec wasabi_node)).
    split; [vm_compute; discriminate|].
    left. exists 10000000.
    split; [lia|]. split; [cbn; tauto | vm_compute; discriminate].
  - apply (proj1 (proj2 (proj1 C2_is_coinjoin_iff_spec
                               (node_with_outputs [7; 7; 7; 7])))).
    vm_compute. reflexivity.
Defined.

End CoinjoinFacts.

(* ================================================================== *)
(** * Complexity of the empty graph *)
(* ================================================================== *)

Module ComplexityFacts.

Import Core Complexity ComplexitySpec.
Local Open Scope Z_scope.

Lemma compute_complexity_no_nodes (g : GraphResult) :
  nodes g = [] -> compute_complexity g = _empty_metrics.
Proof.
  intros E. unfold compute_complexity. rewrite E. reflexivity.
Qed.

(** C8 (what the code does).  On a graph without nodes
    [compute_complexity] returns [_empty_metrics()]: every count, ratio
    and average is zero except the two fan-in fields, which keep the
    defaults of the dataclass, [avg_fan_in = 1.0] and [max_fan_in = 1]; so
    the record is not all-zero. *)
Theorem C8_empty_graph_keeps_fan_in_defaults (g : GraphResult) :
  nodes g = [] ->
  zero_but_fan_in (compute_complexity g)
  /\ (avg_fan_in (compute_complexity g) == 1)%Q
  /\ max_fan_in (compute_complexity g) = 1
  /\ ~ all_zero_metrics (compute_complexity g).
Proof.
  intros E. rewrite (compute_complexity_no_nodes g E).
  split; [repeat split; reflexivity|].
  split; [reflexivity|]. split; [reflexivity|].
  intros (_ & _ & _ & _ & _ & _ & _ & _ & _ & _ & _ & _ & _ & _ & _ & F & _).
  discriminate F.
Qed.

Lemma C8_witness :
  (avg_fan_in (compute_complexity empty_graph) == 1)%Q
  /\ max_fan_in (compute_complexity empty_graph) = 1
  /\ ~ all_zero_metrics (compute_complexity empty_graph).
Proof.
  apply (C8_empty_graph_keeps_fan_in_defaults empty_graph). reflexivity.
Defined.

End ComplexityFacts.

(* ================================================================== *)
(** * Provider client *)
(* ================================================================== *)

Module ProviderFacts.

Import Py Core Http Graph ProviderSpec.
Local Open Scope string_scope.
Local Open Scope Z_scope.

Ltac run_http :=
  cbv beta iota zeta delta
    [with_limiter try_except bind ret raise emit client_get sleep
     raise_for_status json_of lift pending trace status_code body].

(** The transaction fetch does what the specification asks on a 429. *)
Lemma fetch_tx_retries_once (base_url limiter txid : string) :
  retries_once_on_429 (_fetch_tx base_url limiter txid) limiter
                      (base_url ++ "/tx/" ++ txid).
Proof.
  intros [st bd] rest tr S. cbn [status_code] in S. subst st.
  unfold _fetch_tx, retry_trace, retry_result. run_http.
  cbn [Z.eqb Pos.eqb].
  destruct rest as [|[[st2 bd2]|] rest]; cbn [tl];
    rewrite <- ?app_assoc; cbn [app]; try reflexivity.
  destruct ((200 <=? st2) && (st2 <? 300)); cbn [tl];
    [destruct bd2|]; rewrite <- ?app_assoc; reflexivity.
Qed.

(** C6 (what the code does).  [_fetch_outspends] answers a 429 like any
    other error status: it returns not-found after the one request, without
    sleeping and without asking again; the answer a retry would have got is
    left unread. *)
Theorem C6_fetch_outspends_gives_up_on_429
  (base_url limiter txid : string) (r : Response) (rest : list Outcome)
  (tr : list Event) :
  status_code r = 429 ->
  _fetch_outspends base_url limiter txid
    {| pending := Responded r :: rest; trace := tr |}
  = (Ok JNull,
     {| pending := rest;
        trace := (tr ++ [EvAcquire limiter;
                         EvGet (base_url ++ "/tx/" ++ txid ++ "/outspends")
                               [] [];
                         EvRelease limiter])%list |}).
Proof.
  destruct r as [st bd]. cbn [status_code]. intros ->.
  unfold _fetch_outspends. run_http. cbn [Z.eqb Pos.eqb Z.leb Z.ltb Z.compare Pos.compare Pos.compare_cont andb].
  rewrite <- ?app_assoc. reflexivity.
Qed.

Lemma C6_witness :
  _fetch_outspends MEMPOOL_BASE MEMPOOL_LIMITER "ab"
    (busy_then_ok (JList []))
  = (Ok JNull,
     {| pending := [Responded (mkResponse 200 (Some (JList [])))];
        trace := [EvAcquire MEMPOOL_LIMITER;
                  EvGet (MEMPOOL_BASE ++ "/tx/" ++ "ab" ++ "/outspends") [] [];
                  EvRelease MEMPOOL_LIMITER] |}).
Proof.
  apply (C6_fetch_outspends_gives_up_on_429 MEMPOOL_BASE MEMPOOL_LIMITER "ab"
           (mkResponse 429 None)
           [Responded (mkResponse 200 (Some (JList [])))] []).
  reflexivity.
Defined.

(** The sibling path on the same world: one sleep, one retry, the
    document. *)
Lemma fetch_tx_on_busy_then_ok (doc : json) :
  _fetch_tx MEMPOOL_BASE MEMPOOL_LIMITER "ab" (busy_then_ok doc)
  = (Ok doc,
     {| pending := [];
        trace := retry_trace MEMPOOL_LIMITER (MEMPOOL_BASE ++ "/tx/" ++ "ab") |}).
Proof.
  unfold busy_then_ok.
  rewrite (fetch_tx_retries_once MEMPOOL_BASE MEMPOOL_LIMITER "ab"
             (mkResponse 429 None) _ [] eq_refl).
  reflexivity.
Qed.

Lemma fetch_outspends_does_not_retry (base_url limiter txid : string) :
  ~ retries_once_on_429 (_fetch_outspends base_url limiter txid) limiter
                        (base_url ++ "/tx/" ++ txid ++ "/outspends").
Proof.
  intros H.
  specialize (H (mkResponse 429 None) [] [] eq_refl).
  rewrite (C6_fetch_outspends_gives_up_on_429 base_url limiter txid
             (mkResponse 429 None) [] [] eq_refl) in H.
  unfold retry_trace in H. cbn [app tl] in H.
  injection H as H. discriminate H.
Qed.


(** ** Computations that never raise *)

Lemma never_raises_ret {A} (a : A) : never_raises (ret a).
Proof. intros w. exists a, w. reflexivity. Qed.


Lemma never_raises_try {A} (m h : M A) :
  never_raises h -> never_raises (try_except m h).
Proof.
  intros Hh w. unfold try_except.
  destruct (m w) as [[a|] w1].
  - exists a, w1. reflexivity.
  - apply Hh.
Qed.

Lemma never_raises_with_limiter {A} (limiter : string) (m : M A) :
  never_raises m -> never_raises (with_limiter limiter m).
Proof.
  intros Hm w. unfold with_limiter, emit.
  match goal with |- context [m ?w1] => destruct (Hm w1) as (a & w2 & E) end.
  rewrite E. eexists _, _. reflexivity.
Qed.


Lemma fetch_outspends_never_raises (base_url limiter txid : string) :
  never_raises (_fetch_outspends base_url limiter txid).
Proof.
  apply never_raises_with_limiter, never_raises_try, never_raises_ret.
Qed.



(** ** What the computations can return *)

Lemma returns_only_ret {A} (P : A -> Prop) (a : A) :
  P a -> returns_only P (ret a).
Proof. intros H w a' w' E. injection E as <- _. exact H. Qed.

Lemma returns_only_bind {A B} (P : B -> Prop) (m : M A) (k : A -> M B) :
  (forall a, returns_only P (k a)) -> returns_only P (bind m k).
Proof.
  intros Hk w b w' E. unfold bind in E.
  destruct (m w) as [[a|] w1]; [|discriminate E].
  exact (Hk a w1 b w' E).
Qed.

Lemma returns_only_try {A} (P : A -> Prop) (m h : M A) :
  returns_only P m -> returns_only P h -> returns_only P (try_except m h).
Proof.
  intros Hm Hh w a w' E. unfold try_except in E.
  destruct (m w) as [[a1|] w1] eqn:Em.
  - injection E as <- <-. exact (Hm w a1 w1 Em).
  - exact (Hh w1 a w' E).
Qed.

Lemma returns_only_with_limiter {A} (P : A -> Prop) (limiter : string)
  (m : M A) :
  returns_only P m -> returns_only P (with_limiter limiter m).
Proof.
  intros Hm w a w' E. unfold with_limiter, emit in E.
  match type of E with
  | context [m ?w1] => destruct (m w1) as [r w2] eqn:Em
  end.
  injection E as -> _. exact (Hm _ a w2 Em).
Qed.





(** ** The two patterns *)

Lemma chars_length (s : string) : List.length (chars s) = String.length s.
Proof.
  induction s as [|c s IH]; cbn; [reflexivity | rewrite <- IH; reflexivity].
Qed.

Lemma chars_app (a b : string) : chars (a ++ b) = (chars a ++ chars b)%list.
Proof.
  induction a as [|c a IH]; cbn; [reflexivity|].
  unfold chars in IH. rewrite IH. reflexivity.
Qed.

Lemma lstrip_head (l : list ascii) (c : ascii) (r : list ascii) :
  lstrip_chars l = c :: r -> isspace c = false.
Proof.
  induction l as [|x l IH]; cbn [lstrip_chars]; intros E; [discriminate E|].
  destruct (isspace x) eqn:S; [exact (IH E)|].
  injection E as <- _. exact S.
Qed.

(** A stripped string does not end in white space. *)
Lemma strip_last (s : string) (c : ascii) (r : list ascii) :
  rev (chars (strip s)) = c :: r -> isspace c = false.
Proof.
  unfold strip, chars. rewrite list_ascii_of_string_of_list_ascii, rev_involutive.
  apply lstrip_head.
Qed.

Lemma class_to_end_spec (cls : ascii -> bool) (lo hi : nat)
  (rest : list ascii) :
  (forall c r, rev rest = c :: r -> c <> newline) ->
  (match_class_to_end cls lo hi rest = true
   <-> Forall (fun c => cls c = true) rest
       /\ (lo <= List.length rest <= hi)%nat).
Proof.
  intros NL. unfold match_class_to_end.
  assert (Second : match rev rest with
                   | c :: r =>
                       Ascii.eqb c newline
                       && (forallb cls (rev r)
                           && (lo <=? List.length (rev r))%nat
                           && (List.length (rev r) <=? hi)%nat)
                   | [] => false
                   end = false).
  { destruct (rev rest) as [|c r] eqn:E; [reflexivity|].
    destruct (Ascii.eqb_spec c newline) as [->|_]; [|reflexivity].
    exfalso. exact (NL _ _ eq_refl eq_refl). }
  rewrite Second, orb_false_r, !andb_true_iff, forallb_forall, Forall_forall,
    !Nat.leb_le.
  tauto.
Qed.

Lemma suffix_last (p rest : list ascii) (s : string) :
  chars (strip s) = (p ++ rest)%list ->
  forall c r, rev rest = c :: r -> c <> newline.
Proof.
  intros E c r R N. subst c.
  assert (S : isspace newline = false).
  { apply (strip_last s newline (r ++ rev p)).
    rewrite E, rev_app_distr, R. reflexivity. }
  discriminate S.
Qed.

Lemma TXID_PATTERN_spec (target : string) :
  TXID_PATTERN_match (strip target) = true <-> txid_shape (strip target).
Proof.
  unfold TXID_PATTERN_match, txid_shape.
  rewrite class_to_end_spec
    by (apply (suffix_last [] _ target); reflexivity).
  fold (chars (strip target)). rewrite chars_length.
  split; intros [H L]; split; try assumption; lia.
Qed.

Lemma strip_prefix_spec (p l rest : list ascii) :
  strip_prefix p l = Some rest <-> l = (p ++ rest)%list.
Proof.
  revert l. induction p as [|a p IH]; intros l; cbn [strip_prefix app].
  - split; [intros E; injection E as ->; reflexivity | intros ->; reflexivity].
  - destruct l as [|b l]; [split; discriminate|].
    destruct (Ascii.eqb_spec a b) as [->|N].
    + rewrite IH. split; [intros ->; reflexivity | intros E; injection E as ->; reflexivity].
    + split; [discriminate | intros E; injection E as E _; congruence].
Qed.

Lemma ADDRESS_PATTERN_spec (target : string) :
  ADDRESS_PATTERN_match (strip target) = true
  <-> address_shape_code (strip target).
Proof.
  unfold ADDRESS_PATTERN_match, address_shape_code, prefixed_alnum,
    ADDRESS_PREFIXES.
  rewrite existsb_exists. split.
  - intros (p & Hp & M).
    destruct (strip_prefix _ _) as [rest|] eqn:E; [|discriminate M].
    apply strip_prefix_spec in E.
    apply class_to_end_spec in M; [|exact (suffix_last _ _ target E)].
    destruct M as [A L].
    exists p, (string_of_list_ascii rest).
    unfold chars. rewrite list_ascii_of_string_of_list_ascii.
    split; [split; [|split; assumption]|].
    + rewrite <- (string_of_list_ascii_of_string (strip target)).
      rewrite <- (string_of_list_ascii_of_string p) at 1.
      rewrite E. clear. generalize (list_ascii_of_string p) as l.
      induction l as [|c l IH]; cbn; [reflexivity | rewrite IH; reflexivity].
    + rewrite <- chars_length. unfold chars.
      rewrite list_ascii_of_string_of_list_ascii. exact L.
  - intros (p & body & (E & Hp & A) & L).
    exists p. split; [exact Hp|].
    assert (E' : chars (strip target) = (chars p ++ chars body)%list)
      by (rewrite E at 1; apply chars_app).
    pose proof (proj2 (strip_prefix_spec (chars p) (chars (strip target))
                                         (chars body)) E') as SP.
    unfold chars in SP at 1 2. rewrite SP.
    apply class_to_end_spec; [exact (suffix_last _ _ target E')|].
    rewrite chars_length. split; assumption.
Qed.

(** ** Target resolution *)





End ProviderFacts.

(* ================================================================== *)
(** * Attribution, Tier 2 *)
(* ================================================================== *)

Module AttributionFacts.

Import Py Core Http Attribution AttributionSpec.
Local Open Scope string_scope.
Local Open Scope Z_scope.

(** ** Pure steps *)

Lemma leaves_world_ret {A} (a : A) : leaves_world (ret a).
Proof. intros w. reflexivity. Qed.

Lemma leaves_world_raise {A} : leaves_world (@raise A).
Proof. intros w. reflexivity. Qed.

Lemma leaves_world_lift {A} (r : Result A) : leaves_world (lift r).
Proof. intros w. reflexivity. Qed.

Lemma leaves_world_bind {A B} (m : M A) (k : A -> M B) :
  leaves_world m -> (forall a, leaves_world (k a)) -> leaves_world (bind m k).
Proof.
  intros Hm Hk w. unfold bind. specialize (Hm w).
  destruct (m w) as [[a|] w1]; cbn [snd] in Hm; subst w1.
  - apply Hk.
  - reflexivity.
Qed.

Lemma leaves_world_raise_for_status (r : Response) :
  leaves_world (raise_for_status r).
Proof.
  unfold raise_for_status.
  destruct (_ && _); [apply leaves_world_ret | apply leaves_world_raise].
Qed.

Lemma leaves_world_json_of (r : Response) : leaves_world (json_of r).
Proof.
  unfold json_of.
  destruct (body r); [apply leaves_world_ret | apply leaves_world_raise].
Qed.

Create HintDb pure.
#[local] Hint Resolve leaves_world_ret leaves_world_raise leaves_world_lift
  leaves_world_raise_for_status leaves_world_json_of : pure.

Ltac pure_step :=
  match goal with
  | |- leaves_world (bind _ _) => apply leaves_world_bind; [|intros ?]
  | |- leaves_world (if ?b then _ else _) => destruct b
  | |- leaves_world (match ?x with _ => _ end) => destruct x
  | |- leaves_world _ => solve [auto with pure]
  end.

(** A guarded request that handles every error: one acquire, one request,
    one release, whatever the upstream does. *)
Lemma guarded_request {A} (limiter url : string)
  (params headers : list (string * string)) (k : Response -> M A) (d : A) :
  (forall r, leaves_world (k r)) ->
  forall w, exists a pend,
    with_limiter limiter
      (try_except (bind (client_get url params headers) k) (ret d)) w
    = (Ok a,
       {| pending := pend;
          trace := (trace w ++ [EvAcquire limiter;
                                EvGet url params headers;
                                EvRelease limiter])%list |}).
Proof.
  intros Pk [pend tr].
  unfold with_limiter, try_except, bind, client_get, emit, ret.
  cbn [pending trace].
  destruct pend as [|[r|] rest].
  - eexists _, _. cbn [pending trace]. rewrite <- !app_assoc. reflexivity.
  - specialize (Pk r).
    match goal with
    | |- context [k r ?w1] =>
        specialize (Pk w1); destruct (k r w1) as [[a|] w2];
        cbn [snd] in Pk; subst w2
    end; eexists _, _; cbn [pending trace]; rewrite <- !app_assoc;
      reflexivity.
  - eexists _, _. cbn [pending trace]. rewrite <- !app_assoc. reflexivity.
Qed.

Lemma query_walletexplorer_trace (address : string) (w : World) :
  exists j pend,
    _query_walletexplorer address w
    = (Ok j, {| pending := pend;
                trace := (trace w ++ we_events address)%list |}).
Proof.
  unfold _query_walletexplorer, we_events.
  apply guarded_request. intros r.
  repeat pure_step.
Qed.

Lemma query_arkham_trace (address api_key : string) (w : World) :
  exists r pend,
    _query_arkham address api_key w
    = (Ok r, {| pending := pend;
                trace := (trace w ++ arkham_events api_key address)%list |}).
Proof.
  unfold _query_arkham, arkham_events.
  apply guarded_request. intros r.
  repeat pure_step.
Qed.

(** ** The store and the index *)

Lemma dict_get_set {V} (d : list (string * V)) (k a : string) (v : V) :
  dict_get (dict_set d k v) a
  = if String.eqb k a then Some v else dict_get d a.
Proof.
  induction d as [|[k' v'] d IH]; cbn [dict_set dict_get].
  - reflexivity.
  - destruct (String.eqb_spec k' k) as [->|Hk]; cbn [dict_get].
    + destruct (String.eqb k a); reflexivity.
    + rewrite IH.
      destruct (String.eqb_spec k' a) as [->|Ha]; [|reflexivity].
      destruct (String.eqb_spec k a); [congruence | reflexivity].
Qed.

Lemma dict_mem_set {V} (d : list (string * V)) (k a : string) (v : V) :
  dict_mem (dict_set d k v) a = String.eqb k a || dict_mem d a.
Proof.
  unfold dict_mem. rewrite dict_get_set.
  destruct (String.eqb k a); reflexivity.
Qed.

Lemma apply_attribution_report (g : GraphResult) (txids : list string)
  (address : string) (ent : json) :
  same_report g (_apply_attribution g txids address ent).
Proof.
  unfold _apply_attribution. revert g.
  induction txids as [|t txids IH]; intros g; cbn [fold_left].
  - repeat split.
  - destruct (IH (match dict_get (nodes g) t with
                  | Some node =>
                      with_nodes g (dict_set (nodes g) t
                                      (set_attributed node address ent))
                  | None => g
                  end)) as (W & Q & U).
    unfold same_report. rewrite W, Q, U.
    destruct (dict_get (nodes g) t); repeat split.
Qed.

Lemma record_match_report (an : list (string * list string)) (st : Locals)
  (addr : string) (ar : AttributionResult) (b : bool) :
  same_report (graph st) (graph (record_match an st addr ar b)).
Proof. cbn [record_match graph]. apply apply_attribution_report. Qed.

Lemma same_report_trans (g1 g2 g3 : GraphResult) :
  same_report g1 g2 -> same_report g2 g3 -> same_report g1 g3.
Proof.
  intros (W & Q & U) (W' & Q' & U'). unfold same_report.
  rewrite W', Q', U'. repeat split; assumption.
Qed.

(** Tier 1 resolves exactly the addresses the store knows. *)
Lemma tier1_resolved (db : EntityDatabase) (an : list (string * list string))
  (l : list string) (st : Locals) (a : string) :
  dict_mem (resolved_ (fold_left (tier1_step db an) l st)) a
  = dict_mem (resolved_ st) a
    || (existsb (String.eqb a) l && negb (no_match db a)).
Proof.
  revert st. induction l as [|x l IH]; intros st; cbn [fold_left existsb].
  - rewrite andb_false_l, orb_false_r. reflexivity.
  - rewrite IH. unfold tier1_step.
    destruct (lookup db x) as [r|] eqn:Lx.
    + cbn [record_match resolved_]. rewrite dict_mem_set.
      rewrite (String.eqb_sym a x).
      destruct (String.eqb_spec x a) as [->|N].
      * unfold no_match. rewrite Lx. cbn.
        rewrite orb_true_r. reflexivity.
      * reflexivity.
    + destruct (String.eqb_spec a x) as [->|N]; [|reflexivity].
      unfold no_match. rewrite Lx. cbn [negb].
      rewrite !andb_false_r. reflexivity.
Qed.

Lemma tier1_report (db : EntityDatabase) (an : list (string * list string))
  (l : list string) (st : Locals) :
  same_report (graph st) (graph (fold_left (tier1_step db an) l st)).
Proof.
  revert st. induction l as [|x l IH]; intros st; cbn [fold_left].
  - repeat split.
  - refine (same_report_trans _ _ _ _ (IH _)). unfold tier1_step.
    destruct (lookup db x); [apply record_match_report | repeat split].
Qed.

Lemma tier1_leaves_unmatched (db : EntityDatabase) (g : GraphResult)
  (st : Locals) :
  resolved_ st = [] ->
  unmatched_of (map fst (build_address_nodes g))
    (resolved_ (fold_left (tier1_step db (build_address_nodes g))
                          (map fst (build_address_nodes g)) st))
  = tier1_unmatched db g.
Proof.
  intros E. unfold unmatched_of, tier1_unmatched.
  apply filter_ext_in. intros a Ha.
  rewrite tier1_resolved, E. cbn [dict_mem dict_get orb].
  assert (X : existsb (String.eqb a) (map fst (build_address_nodes g)) = true).
  { apply existsb_exists. exists a. split; [exact Ha | apply String.eqb_refl]. }
  rewrite X. cbn. apply negb_involutive.
Qed.

(** ** The two oracle loops *)

Lemma tier2_loop (an : list (string * list string)) (l : list string)
  (st : Locals) (w : World) :
  exists st' pend,
    for_each (tier2_step an) l st w
    = (Ok st', {| pending := pend;
                  trace := (trace w ++ flat_map we_events l)%list |})
    /\ same_report (graph st) (graph st').
Proof.
  revert st w. induction l as [|a l IH]; intros st w; cbn [for_each flat_map].
  - exists st, (pending w). rewrite app_nil_r. destruct w.
    split; [reflexivity | repeat split].
  - unfold bind at 1. unfold tier2_step at 1. unfold bind at 1.
    destruct (query_walletexplorer_trace a w) as (j & pend & ->).
    destruct (truthy j); cbn [ret];
      match goal with
      | |- context [for_each _ l ?st1 ?w1] =>
          destruct (IH st1 w1) as (st' & pend' & -> & W)
      end;
      exists st', pend'; cbn [trace]; rewrite <- app_assoc;
      (split; [reflexivity|]).
    + refine (same_report_trans _ _ _ _ W). apply record_match_report.
    + exact W.
Qed.

Lemma tier3_loop (an : list (string * list string)) (api_key : string)
  (l : list string) (st : Locals) (w : World) :
  exists st' pend,
    for_each (tier3_step an api_key) l st w
    = (Ok st', {| pending := pend;
                  trace := (trace w
                              ++ flat_map (arkham_events api_key) l)%list |})
    /\ same_report (graph st) (graph st').
Proof.
  revert st w. induction l as [|a l IH]; intros st w; cbn [for_each flat_map].
  - exists st, (pending w). rewrite app_nil_r. destruct w.
    split; [reflexivity | repeat split].
  - unfold bind at 1. unfold tier3_step at 1. unfold bind at 1.
    destruct (query_arkham_trace a api_key w) as (r & pend & ->).
    destruct r as [ar|]; cbn [ret];
      match goal with
      | |- context [for_each _ l ?st1 ?w1] =>
          destruct (IH st1 w1) as (st' & pend' & -> & W)
      end;
      exists st', pend'; cbn [trace]; rewrite <- app_assoc;
      (split; [reflexivity|]).
    + refine (same_report_trans _ _ _ _ W). apply record_match_report.
    + exact W.
Qed.

Lemma we_queries_of_lookups (l : list string) :
  we_queries (flat_map we_events l) = l.
Proof.
  unfold we_queries. induction l as [|a l IH]; cbn [flat_map].
  - reflexivity.
  - rewrite flat_map_app, IH. reflexivity.
Qed.

Lemma we_queries_of_arkham (api_key : string) (l : list string) :
  we_queries (flat_map (arkham_events api_key) l) = [].
Proof.
  unfold we_queries. induction l as [|a l IH]; cbn [flat_map].
  - reflexivity.
  - rewrite flat_map_app, IH. reflexivity.
Qed.

(** ** The pipeline *)

Lemma tier2_run (an : list (string * list string)) (all : list string)
  (we_limit : option Z) (st : Locals) (w : World) :
  exists st' pend,
    tier2 an all false we_limit st w
    = (Ok st',
       {| pending := pend;
          trace := (trace w
                      ++ flat_map we_events
                           (to_query_of (unmatched_of all (resolved_ st))
                                        we_limit))%list |})
    /\ warnings (graph st')
       = (warnings (graph st)
            ++ cap_warnings we_limit (unmatched_of all (resolved_ st)))%list
    /\ we_addresses_queried (graph st')
       = Complexity.len (to_query_of (unmatched_of all (resolved_ st))
                                     we_limit)
    /\ we_addresses_total_unmatched (graph st')
       = Complexity.len (unmatched_of all (resolved_ st)).
Proof.
  unfold tier2. cbn [negb]. cbv zeta.
  set (um := unmatched_of all (resolved_ st)).
  match goal with
  | |- context [for_each _ _ ?st1] =>
      destruct (tier2_loop an (to_query_of um we_limit) st1 w)
        as (st' & pend & E & (W & _));
      assert (W1 : warnings (graph st1)
                   = (warnings (graph st) ++ cap_warnings we_limit um)%list)
  end.
  { unfold cap_warnings. destruct we_limit as [L|].
    - destruct (L <? Complexity.len um); [reflexivity|].
      rewrite app_nil_r. reflexivity.
    - rewrite app_nil_r. reflexivity. }
  unfold bind. rewrite E. eexists _, pend.
  split; [reflexivity|].
  cbn [with_graph graph set_we_counts warnings we_addresses_queried
       we_addresses_total_unmatched].
  rewrite W, W1. repeat split.
Qed.

Lemma attribute_graph_run (db : EntityDatabase) (g : GraphResult)
  (we_limit : option Z) (arkham_key : option string) (w : World) :
  tier2_outcome db g we_limit arkham_key w
    (to_query_of (tier1_unmatched db g) we_limit)
    (cap_warnings we_limit (tier1_unmatched db g)).
Proof.
  unfold tier2_outcome, attribute_graph. cbv zeta.
  set (an := build_address_nodes g).
  set (st0 := {| graph := g; results := []; resolved_ := [];
                 by_source_ := []; by_category_ := [] |}).
  set (st1 := fold_left (tier1_step db an) (map fst an) st0).
  assert (U : unmatched_of (map fst an) (resolved_ st1) = tier1_unmatched db g)
    by (apply tier1_leaves_unmatched; reflexivity).
  destruct (tier1_report db an (map fst an) st0) as (W1 & _).
  fold st1 in W1. cbn [graph st0] in W1.
  destruct (tier2_run an (map fst an) we_limit st1 w)
    as (st2 & pend2 & E2 & W2 & Q2 & T2).
  rewrite U in E2, W2, Q2, T2. rewrite W1 in W2.
  unfold bind at 1. rewrite E2.
  destruct (Complexity.truthy_str arkham_key).
  - match goal with
    | |- context [bind (for_each (tier3_step an ?k) ?l st2) _ ?w2] =>
        destruct (tier3_loop an k l st2 w2)
          as (st3 & pend3 & E3 & (W3 & Q3 & T3));
        unfold bind; rewrite E3;
        exists (finish st3 (Complexity.len (map fst an))
                       ["local_db"; "walletexplorer"; "arkham"]),
               {| pending := pend3;
                  trace := (trace w
                              ++ flat_map we_events
                                   (to_query_of (tier1_unmatched db g) we_limit)
                              ++ flat_map (arkham_events k) l)%list |},
               (flat_map we_events
                  (to_query_of (tier1_unmatched db g) we_limit)
                  ++ flat_map (arkham_events k) l)%list
    end.
    cbn [trace]. rewrite <- app_assoc.
    split; [reflexivity|]. split; [reflexivity|].
    split.
    { unfold we_queries. rewrite flat_map_app.
      fold (we_queries (flat_map we_events
                          (to_query_of (tier1_unmatched db g) we_limit))).
      rewrite we_queries_of_lookups.
      match goal with
      | |- (_ ++ flat_map we_query ?x)%list = _ =>
          change (flat_map we_query x) with (we_queries x)
      end.
      rewrite we_queries_of_arkham. apply app_nil_r. }
    cbn [finish warnings we_addresses_queried we_addresses_total_unmatched].
    rewrite W3, Q3, T3. repeat split; assumption.
  - unfold bind, ret.
    exists (finish st2 (Complexity.len (map fst an))
                   ["local_db"; "walletexplorer"]),
           {| pending := pend2;
              trace := (trace w
                          ++ flat_map we_events
                               (to_query_of (tier1_unmatched db g)
                                            we_limit))%list |},
           (flat_map we_events (to_query_of (tier1_unmatched db g) we_limit)).
    split; [reflexivity|]. split; [reflexivity|].
    split; [apply we_queries_of_lookups|].
    cbn [finish warnings we_addresses_queried we_addresses_total_unmatched].
    repeat split; assumption.
Qed.

(** C7 (as amended).  With Tier 2 enabled and [unmatched] the addresses
    Tier 1 left unresolved: under a cap [L] (200 by default) the first [L]
    unmatched addresses -- all of them when there are at most [L] -- are
    queried against the cluster oracle, and the warning naming [L] and the
    number unmatched is appended only when more than [L] are unmatched;
    without a cap all unmatched addresses are queried and nothing is
    appended.  Afterwards [we_addresses_queried] is the number queried and
    [we_addresses_total_unmatched] the number unmatched. *)
Theorem C7_tier2_cap (db : EntityDatabase) (g : GraphResult)
  (arkham_key : option string) (w : World) :
  (forall L, 0 <= L -> capped_as_coded db g L arkham_key w)
  /\ uncapped db g arkham_key w
  /\ DEFAULT_WE_LIMIT = 200.
Proof.
  split; [|split; [|reflexivity]].
  - intros L P. unfold capped_as_coded. cbv zeta.
    pose proof (attribute_graph_run db g (Some L) arkham_key w) as R.
    unfold to_query_of, slice_to, cap_warnings in R.
    destruct (Z.ltb_spec L 0); [lia | exact R].
  - exact (attribute_graph_run db g None arkham_key w).
Qed.

Lemma C7_witness : capped_as_coded small_db small_graph 2 None silent_world.
Proof.
  apply (C7_tier2_cap small_db small_graph None silent_world). lia.
Defined.

(** C7 (as stated) fails on a graph with three unmatched addresses under
    the default cap: three addresses are queried, not 200, and no warning
    is appended. *)
Lemma C7_counterexample :
  ~ capped_as_stated small_db small_graph 200 None silent_world
  /\ tier1_unmatched small_db small_graph = ["a"; "c"; "d"]
  /\ exists g' w',
       attribute_graph small_db small_graph false (Some 200) None silent_world
       = (Ok g', w')
       /\ we_queries (trace w') = ["a"; "c"; "d"]
       /\ warnings g' = []
       /\ we_addresses_queried g' = 3.
Proof.
  split; [|split].
  - intros [L _]. vm_compute in L. discriminate L.
  - reflexivity.
  - eexists _, _. split; [vm_compute; reflexivity|].
    repeat split.
Qed.

End AttributionFacts.

(* ================================================================== *)
(** * Token bucket *)
(* ================================================================== *)

Module LimiterFacts.

Import Limiter MoreSpec.
Local Open Scope Q_scope.

Lemma min_spec (a b : Q) :
  min a b <= a /\ min a b <= b /\ (min a b == a \/ min a b == b).
Proof.
  unfold min. destruct (Qle_bool a b) eqn:E.
  - apply Qle_bool_iff in E.
    split; [lra|]. split; [lra|]. left. reflexivity.
  - assert (b < a).
    { apply Qnot_le_lt. intros L. apply Qle_bool_iff in L. congruence. }
    split; [lra|]. split; [lra|]. right. reflexivity.
Qed.

Lemma refill_at_least (rl : RateLimiter) (now : Q) :
  0 <= _rate rl -> _last_refill rl <= now -> bucket_ok rl ->
  _tokens rl
  <= min (_max_tokens rl) (_tokens rl + (now - _last_refill rl) * _rate rl).
Proof.
  intros R T [L U].
  assert (0 <= (now - _last_refill rl) * _rate rl)
    by (apply Qmult_le_0_compat; lra).
  destruct (min_spec (_max_tokens rl)
              (_tokens rl + (now - _last_refill rl) * _rate rl))
    as (_ & _ & [E|E]); rewrite E; lra.
Qed.

(** The bucket stays between empty and full, its capacity and rate never
    change, and a sleep is positive and at most the time one token takes to
    arrive. *)
Theorem acquire_keeps_bucket (rl : RateLimiter) (now : Q) :
  0 < _rate rl -> _last_refill rl <= now -> bucket_ok rl ->
  bucket_ok (snd (acquire rl now))
  /\ _max_tokens (snd (acquire rl now)) = _max_tokens rl
  /\ _rate (snd (acquire rl now)) = _rate rl
  /\ _last_refill (snd (acquire rl now)) = now
  /\ (forall slept, fst (acquire rl now) = Some slept ->
                    0 < slept /\ slept <= 1 / _rate rl).
Proof.
  intros R T B.
  pose proof (refill_at_least rl now (Qlt_le_weak _ _ R) T B) as G.
  destruct B as [L U].
  unfold acquire. cbv zeta.
  set (tokens := min (_max_tokens rl)
                     (_tokens rl + (now - _last_refill rl) * _rate rl)) in *.
  assert (Cap : tokens <= _max_tokens rl) by apply min_spec.
  destruct (CostModel.Qltb tokens 1) eqn:E; cbn [fst snd _tokens _max_tokens
    _rate _last_refill]; unfold bucket_ok; cbn [_tokens _max_tokens].
  - apply CostFacts.Qltb_spec in E.
    split; [split; lra|]. do 3 (split; [reflexivity|]).
    intros slept H. injection H as <-. split.
    + apply Qlt_shift_div_l; lra.
    + apply Qle_shift_div_r; [exact R|].
      setoid_replace (1 / _rate rl * _rate rl) with 1 by (field; lra). lra.
  - apply CostFacts.Qltb_false in E.
    split; [split; lra|]. do 3 (split; [reflexivity|]).
    intros slept H. discriminate H.
Qed.

Lemma acquire_keeps_bucket_witness :
  bucket_ok (snd (acquire (MoreSpec.drained_walletexplorer) 0))
  /\ forall slept,
       fst (acquire (MoreSpec.drained_walletexplorer) 0) = Some slept ->
       0 < slept /\ slept <= 1 / (8 # 10).
Proof.
  destruct (acquire_keeps_bucket MoreSpec.drained_walletexplorer 0)
    as (B & _ & _ & _ & S).
  - reflexivity.
  - discriminate.
  - split; discriminate.
  - split; [exact B | exact S].
Defined.

(** Calls at least one token-time apart never sleep. *)
Theorem spaced_acquire_never_sleeps (rl : RateLimiter) (now : Q) :
  0 < _rate rl -> 1 <= _max_tokens rl -> 0 <= _tokens rl ->
  _last_refill rl + 1 / _rate rl <= now ->
  fst (acquire rl now) = None.
Proof.
  intros R C L T. unfold acquire. cbv zeta.
  set (tokens := min (_max_tokens rl)
                     (_tokens rl + (now - _last_refill rl) * _rate rl)).
  assert (G : 1 <= tokens).
  { assert (1 <= (now - _last_refill rl) * _rate rl).
    { setoid_replace 1 with (1 / _rate rl * _rate rl) at 1 by (field; lra).
      apply Qmult_le_compat_r; lra. }
    unfold tokens.
    destruct (min_spec (_max_tokens rl)
                (_tokens rl + (now - _last_refill rl) * _rate rl))
      as (_ & _ & [E|E]); rewrite E; lra. }
  destruct (CostModel.Qltb tokens 1) eqn:E; [|reflexivity].
  apply CostFacts.Qltb_spec in E. lra.
Qed.

Lemma spaced_acquire_witness :
  fst (acquire MoreSpec.drained_walletexplorer (125 # 100)) = None.
Proof.
  apply spaced_acquire_never_sleeps;
    cbn; try reflexivity; discriminate.
Defined.




End LimiterFacts.

(* ================================================================== *)
(** * Cost model: order and bounds *)
(* ================================================================== *)

Module CostOrderFacts.

Import Py Core CostModel CostSpec MoreSpec PyFacts CostFacts.
Local Open Scope string_scope.
Local Open Scope Q_scope.

Lemma round_half_even_integer (k : Z) : round_half_even (inject_Z k) = k.
Proof.
  unfold round_half_even. rewrite Qfloor_Z.
  assert (C : (inject_Z k - inject_Z k ?= 1 # 2) = Lt).
  { apply (proj1 (Qlt_alt _ _)). lra. }
  rewrite C. reflexivity.
Qed.

(** Rounding leaves a whole number alone. *)
Lemma round_integer (k : Z) (n : nat) : round (inject_Z k) n == inject_Z k.
Proof.
  unfold round.
  pose proof (scale_pos n) as P.
  set (s := (10 ^ Z.of_nat n)%Z) in *.
  assert (E : round_half_even (inject_Z k * inject_Z s) = (k * s)%Z).
  { rewrite <- round_half_even_integer.
    apply round_half_even_comp. rewrite inject_Z_mult. reflexivity. }
  rewrite E, inject_Z_mult. field. lra.
Qed.

Lemma floor_cases (c : Q) :
  (c < 500 /\ _classify_floor c = TRACEABLE)
  \/ (500 <= c /\ c < 5000 /\ _classify_floor c = COSTLY)
  \/ (5000 <= c /\ c < 50000 /\ _classify_floor c = EXPENSIVE)
  \/ (50000 <= c /\ c < 500000 /\ _classify_floor c = HIGH_FLOOR)
  \/ (500000 <= c /\ _classify_floor c = IMPRACTICAL).
Proof.
  unfold _classify_floor, FLOOR_THRESHOLDS. cbn [first_floor_above].
  destruct (Qltb c 500) eqn:E1;
    [apply Qltb_spec in E1; tauto | apply Qltb_false in E1].
  destruct (Qltb c 5000) eqn:E2;
    [apply Qltb_spec in E2; tauto | apply Qltb_false in E2].
  destruct (Qltb c 50000) eqn:E3;
    [apply Qltb_spec in E3; tauto | apply Qltb_false in E3].
  destruct (Qltb c 500000) eqn:E4;
    [apply Qltb_spec in E4; tauto | apply Qltb_false in E4].
  tauto.
Qed.

(** A higher reference cost never gives a lower privacy floor. *)
Theorem classify_floor_monotone (c1 c2 : Q) :
  c1 <= c2 ->
  (floor_rank (_classify_floor c1) <= floor_rank (_classify_floor c2))%Z.
Proof.
  intros L.
  destruct (floor_cases c1) as [H1|[H1|[H1|[H1|H1]]]];
    destruct (floor_cases c2) as [H2|[H2|[H2|[H2|H2]]]];
    repeat match goal with H : _ /\ _ |- _ => destruct H end;
    repeat match goal with H : _classify_floor _ = _ |- _ => rewrite H; clear H end;
    cbn [floor_rank]; try lia; exfalso; lra.
Qed.

Lemma classify_floor_monotone_witness :
  (floor_rank (_classify_floor 4999) <= floor_rank (_classify_floor 5000))%Z.
Proof. apply classify_floor_monotone. discriminate. Defined.

(** A higher attribution rate never costs more minutes per hop, and the
    minutes are one of the four values of the table. *)
Theorem base_time_antitone (r1 r2 : Q) :
  r1 <= r2 ->
  _base_time_per_hop r2 <= _base_time_per_hop r1
  /\ (_base_time_per_hop r1 == 12 \/ _base_time_per_hop r1 == 45
      \/ _base_time_per_hop r1 == 180 \/ _base_time_per_hop r1 == 480).
Proof.
  intros L. rewrite !base_minutes_agree. unfold spec_base_minutes.
  split.
  - repeat destruct (Qlt_le_dec _ r2); repeat destruct (Qlt_le_dec _ r1);
      try (apply Qle_refl); try discriminate; exfalso; lra.
  - repeat destruct (Qlt_le_dec _ r1);
      [left | right; left | right; right; left | right; right; right];
      reflexivity.
Qed.

Lemma base_time_antitone_witness :
  _base_time_per_hop (7 # 10) <= _base_time_per_hop (4 # 10).
Proof. apply (base_time_antitone (4 # 10) (7 # 10)). discriminate. Defined.

Lemma code_hours_high_nonneg (m : ComplexityMetrics) :
  (0 <= unresolved_paths m)%Z -> 0 <= code_hours_high m.
Proof.
  intros U. pose proof (code_hours_ordered m U).
  pose proof (code_hours_low_pos m). lra.
Qed.

Lemma total_by_rate (h r1 r2 : Q) :
  0 <= h -> r1 <= r2 -> round (h * r1) 0 <= round (h * r2) 0.
Proof.
  intros H R. apply round_mono.
  rewrite (Qmult_comm h r1), (Qmult_comm h r2).
  apply Qmult_le_compat_r; assumption.
Qed.

(** The three tiers report the same hours, and their dollar totals never
    decrease from the mid-level to the senior to the expert tier. *)
Theorem tiers_ordered_by_rate (m : ComplexityMetrics) :
  (0 <= unresolved_paths m)%Z ->
  exists t1 t2 t3,
    tiers (compute_cost m) = [t1; t2; t3]
    /\ estimated_hours_low t1 == estimated_hours_low t2
    /\ estimated_hours_low t2 == estimated_hours_low t3
    /\ estimated_hours_high t1 == estimated_hours_high t2
    /\ estimated_hours_high t2 == estimated_hours_high t3
    /\ total_low t1 <= total_low t2 /\ total_low t2 <= total_low t3
    /\ total_high t1 <= total_high t2 /\ total_high t2 <= total_high t3.
Proof.
  intros U. destruct (zero_hop m) eqn:Z.
  - unfold compute_cost. rewrite Z. unfold TIERS. cbn [tiers map].
    do 3 eexists. split; [reflexivity|].
    cbn. repeat split; try reflexivity; discriminate.
  - rewrite (tiers_unfold m Z). unfold TIERS. cbn [map].
    do 3 eexists. split; [reflexivity|].
    unfold tier_estimate.
    cbn [estimated_hours_low estimated_hours_high total_low total_high
         rate tooling].
    pose proof (Qlt_le_weak _ _ (code_hours_low_pos m)) as PL.
    pose proof (code_hours_high_nonneg m U) as PH.
    repeat split; try reflexivity;
      apply total_by_rate; try assumption; discriminate.
Qed.

Lemma tiers_ordered_by_rate_witness :
  exists t1 t2 t3,
    tiers (compute_cost metrics_unresolved) = [t1; t2; t3]
    /\ total_high t1 <= total_high t2 /\ total_high t2 <= total_high t3.
Proof.
  destruct (tiers_ordered_by_rate metrics_unresolved)
    as (t1 & t2 & t3 & E & _ & _ & _ & _ & _ & _ & H1 & H2).
  - cbn. lia.
  - exists t1, t2, t3. split; [exact E | split; assumption].
Defined.

Lemma linear_multiplier_at_least_one (x : Q) :
  1 <= round (if Qltb 5 x then x / 5 else 1) 2.
Proof.
  rewrite <- (round_integer 1 2) at 1.
  apply round_mono. change (inject_Z 1) with 1.
  destruct (Qltb 5 x) eqn:E; [|apply Qle_refl].
  apply Qltb_spec in E. apply Qle_shift_div_l; lra.
Qed.

(** No multiplier the estimate reports is below one. *)
Theorem multipliers_at_least_one (m : ComplexityMetrics) :
  1 <= mixing_multiplier (compute_cost m)
  /\ 1 <= branching_multiplier (compute_cost m)
  /\ 1 <= taproot_multiplier (compute_cost m)
  /\ 1 <= fan_in_multiplier (compute_cost m).
Proof.
  unfold compute_cost. destruct (zero_hop m).
  - cbn. repeat split; discriminate.
  - cbn [mixing_multiplier branching_multiplier taproot_multiplier
         fan_in_multiplier].
    split; [|split; [|split]].
    + destruct (coinjoin_detected m); discriminate.
    + apply linear_multiplier_at_least_one.
    + destruct (Qltb _ _); discriminate.
    + apply linear_multiplier_at_least_one.
Qed.

Lemma grade_high_rate (r : Q) (u : Z) :
  grade_confidence r u = "high" -> 7 # 10 <= r.
Proof.
  unfold grade_confidence.
  destruct (Qle_bool (7 # 10) r) eqn:E7; [intros _; apply Qle_bool_iff, E7|].
  cbn [andb].
  destruct (Qle_bool (4 # 10) r); [discriminate|].
  destruct (Qle_bool (1 # 10) r); discriminate.
Qed.

Lemma grade_is_one_of_four (r : Q) (u : Z) :
  In (grade_confidence r u) ["high"; "moderate"; "low"; "very low"].
Proof.
  unfold grade_confidence.
  destruct (_ && _); [cbn; tauto|].
  destruct (Qle_bool (4 # 10) r); [cbn; tauto|].
  destruct (Qle_bool (1 # 10) r); cbn; tauto.
Qed.

(** The confidence is one of the four grades; it is never low or very low
    when the sources were exhausted; and an estimate of high confidence
    carries no confidence note. *)
Theorem confidence_and_note (m : ComplexityMetrics) :
  In (confidence (compute_cost m)) ["high"; "moderate"; "low"; "very low"]
  /\ (sources_exhausted m = true ->
      In (confidence (compute_cost m)) ["high"; "moderate"])
  /\ (confidence (compute_cost m) = "high" ->
      confidence_note (compute_cost m) = EmptyString).
Proof.
  destruct (zero_hop m) eqn:Z.
  - unfold compute_cost. rewrite Z. cbn. tauto.
  - rewrite (confidence_unfold m Z). cbv zeta.
    pose proof (grade_is_one_of_four (attribution_rate m) (unresolved_paths m))
      as G.
    pose proof (grade_high_rate (attribution_rate m) (unresolved_paths m))
      as H.
    set (g := grade_confidence (attribution_rate m) (unresolved_paths m)) in *.
    split; [|split].
    + destruct (sources_exhausted m && _); [cbn; tauto | exact G].
    + intros ->. cbn [andb].
      cbn [In] in G.
      destruct G as [<-|[<-|[<-|[<-|[]]]]]; cbn; tauto.
    + intros C.
      assert (Hg : g = "high").
      { destruct (sources_exhausted m && _); [discriminate C | exact C]. }
      specialize (H Hg).
      unfold compute_cost. rewrite Z. cbn [confidence_note].
      assert (F : Qltb (attribution_rate m) (4 # 10) = false)
        by (apply Qltb_false; lra).
      rewrite F. reflexivity.
Qed.

Lemma confidence_and_note_witness :
  In (confidence (compute_cost metrics_s6)) ["high"; "moderate"].
Proof.
  apply (proj1 (proj2 (confidence_and_note metrics_s6))). reflexivity.
Defined.

End CostOrderFacts.

(* ================================================================== *)
(** * Parsing, neighbours and edges *)
(* ================================================================== *)

Module GraphFacts.

Import Py Core Http Graph GraphSpec.
Local Open Scope string_scope.
Local Open Scope Z_scope.

Lemma nth_error_combine_seq {A} (l : list A) (s i : nat) :
  nth_error (combine (seq s (List.length l)) l) i
  = option_map (fun x => ((s + i)%nat, x)) (nth_error l i).
Proof.
  revert s i. induction l as [|x l IH]; intros s i; cbn [List.length seq combine].
  - destruct i; reflexivity.
  - destruct i as [|i]; cbn [nth_error option_map].
    + rewrite Nat.add_0_r. reflexivity.
    + rewrite IH. rewrite Nat.add_succ_r. reflexivity.
Qed.

Lemma nth_error_enumerate {A} (l : list A) (i : nat) :
  nth_error (enumerate l) i = option_map (fun x => (i, x)) (nth_error l i).
Proof. unfold enumerate. apply nth_error_combine_seq. Qed.

Lemma In_enumerate {A} (l : list A) (i : nat) (x : A) :
  In (i, x) (enumerate l) <-> nth_error l i = Some x.
Proof.
  split.
  - intros H. apply In_nth_error in H. destruct H as [j H].
    rewrite nth_error_enumerate in H.
    destruct (nth_error l j) as [y|] eqn:E; [|discriminate H].
    cbn in H. injection H as <- <-. exact E.
  - intros H. apply (nth_error_In _ i).
    rewrite nth_error_enumerate, H. reflexivity.
Qed.

Lemma parsed_output_at (tx : EsploraTx) (d : Z)
  (os : option (list Outspend)) (i : nat) (out : TxOutput) :
  nth_error (outputs (_parse_tx tx d os)) i = Some out
  <-> exists vout,
        nth_error (get_or (tx_vout tx) []) i = Some vout
        /\ out = parse_output os i vout.
Proof.
  unfold _parse_tx. cbn [outputs].
  rewrite nth_error_map, nth_error_enumerate.
  destruct (nth_error (get_or (tx_vout tx) []) i) as [vout|];
    cbn [option_map fst snd].
  - split.
    + intros E. injection E as <-. exists vout. split; reflexivity.
    + intros (v & E & ->). injection E as <-. reflexivity.
  - split; [discriminate | intros (v & E & _); discriminate E].
Qed.

Lemma parse_output_spent (os : option (list Outspend)) (i : nat)
  (vout : EsploraVout) :
  (spent (parse_output os i vout) = true <-> spent_at os i)
  /\ (forall t, spending_txid (parse_output os i vout) = Some t
                <-> spent_by os i t).
Proof.
  unfold parse_output, spent_at, spent_by. cbn [spent spending_txid].
  destruct (outspend_at os i) as [o|].
  - destruct (os_spent o) as [[|]|] eqn:S; cbn [get_or].
    + split.
      * split; [intros _; exists o; tauto | reflexivity].
      * intros t. split.
        -- intros E. exists o. tauto.
        -- intros (o' & E & _ & T). injection E as <-. exact T.
    + split.
      * split; [discriminate | intros (o' & E & S'); congruence].
      * intros t. split; [discriminate | intros (o' & E & S' & _); congruence].
    + split.
      * split; [discriminate | intros (o' & E & S'); congruence].
      * intros t. split; [discriminate | intros (o' & E & S' & _); congruence].
  - split.
    + split; [discriminate | intros (o' & E & _); discriminate E].
    + intros t. split; [discriminate | intros (o' & E & _); discriminate E].
Qed.



Lemma forward_neighbors_spec (node : GraphNode) (t : string) :
  In t (forward_neighbors node)
  <-> t <> EmptyString
      /\ exists out,
           In out (outputs node)
           /\ spent out = true /\ spending_txid out = Some t.
Proof.
  unfold forward_neighbors. rewrite in_flat_map. split.
  - intros (out & I & H).
    destruct (spending_txid out) as [t'|] eqn:S; [|destruct H].
    destruct (spent out) eqn:P; cbn [andb truthy_opt] in H; [|destruct H].
    destruct (String.eqb_spec t' EmptyString) as [->|N]; cbn in H;
      [destruct H|].
    destruct H as [<-|[]]. split; [exact N|]. exists out. tauto.
  - intros (N & out & I & P & S). exists out. split; [exact I|].
    rewrite S, P. cbn [andb truthy_opt].
    destruct (String.eqb_spec t EmptyString); [contradiction|].
    left. reflexivity.
Qed.

Lemma backward_neighbors_spec (node : GraphNode) (t : string) :
  In t (backward_neighbors node)
  <-> t <> EmptyString /\ is_coinbase node = false
      /\ exists inp, In inp (inputs node) /\ prev_txid inp = t.
Proof.
  unfold backward_neighbors. rewrite in_flat_map. split.
  - intros (inp & I & H).
    destruct (String.eqb_spec (prev_txid inp) EmptyString) as [E|N];
      cbn [negb andb] in H; [destruct H|].
    destruct (is_coinbase node); cbn in H; [destruct H|].
    destruct H as [<-|[]]. split; [exact N|]. split; [reflexivity|].
    exists inp. tauto.
  - intros (N & C & inp & I & <-). exists inp. split; [exact I|].
    rewrite C.
    destruct (String.eqb_spec (prev_txid inp) EmptyString); [contradiction|].
    left. reflexivity.
Qed.

(** The neighbour rule: a direction other than the three known ones gives
    nothing; [both] is the forward neighbours followed by the backward
    ones; a forward neighbour is the non-empty spending txid of a spent
    output, a backward neighbour the non-empty previous txid of an input
    of a node that is not coinbase. *)
Theorem neighbors_by_direction (node : GraphNode) :
  (forall d, d <> "forward" -> d <> "backward" -> d <> "both" ->
             _get_neighbors node d = [])
  /\ _get_neighbors node "both"
     = (_get_neighbors node "forward" ++ _get_neighbors node "backward")%list
  /\ (forall t, In t (_get_neighbors node "forward")
                <-> t <> EmptyString
                    /\ exists out,
                         In out (outputs node)
                         /\ spent out = true /\ spending_txid out = Some t)
  /\ (forall t, In t (_get_neighbors node "backward")
                <-> t <> EmptyString /\ is_coinbase node = false
                    /\ exists inp, In inp (inputs node) /\ prev_txid inp = t).
Proof.
  split; [|split; [|split]].
  - intros d F B A. unfold _get_neighbors, one_of.
    destruct (String.eqb_spec d "forward"); [contradiction|].
    destruct (String.eqb_spec d "backward"); [contradiction|].
    destruct (String.eqb_spec d "both"); [contradiction|].
    reflexivity.
  - unfold _get_neighbors, one_of. cbn [String.eqb Ascii.eqb Bool.eqb orb].
    rewrite app_nil_r. reflexivity.
  - intros t. unfold _get_neighbors, one_of.
    cbn [String.eqb Ascii.eqb Bool.eqb orb]. rewrite app_nil_r.
    apply forward_neighbors_spec.
  - intros t. unfold _get_neighbors, one_of.
    cbn [String.eqb Ascii.eqb Bool.eqb orb app].
    apply backward_neighbors_spec.
Qed.

Lemma neighbors_by_direction_witness :
  _get_neighbors (_parse_tx sample_tx 0 (Some sample_outspends)) "Forward"
  = [].
Proof.
  apply (proj1 (neighbors_by_direction _)); discriminate.
Defined.

Lemma get_neighbors_forward (node : GraphNode) :
  _get_neighbors node "forward" = forward_neighbors node.
Proof.
  unfold _get_neighbors, one_of. cbn [String.eqb Ascii.eqb Bool.eqb orb].
  apply app_nil_r.
Qed.

Lemma get_neighbors_backward (node : GraphNode) :
  _get_neighbors node "backward" = backward_neighbors node.
Proof. reflexivity. Qed.

Lemma nothing_in_nil {A} (l : list A) : (forall x, ~ In x l) -> l = [].
Proof.
  destruct l as [|x l]; [reflexivity|].
  intros H. exfalso. apply (H x). left. reflexivity.
Qed.

Lemma parsed_forward_neighbors (tx : EsploraTx) (d : Z)
  (os : option (list Outspend)) (t : string) :
  In t (_get_neighbors (_parse_tx tx d os) "forward")
  <-> t <> EmptyString
      /\ exists i,
           (i < List.length (get_or (tx_vout tx) []))%nat /\ spent_by os i t.
Proof.
  rewrite get_neighbors_forward, forward_neighbors_spec.
  split; intros (N & H); (split; [exact N|]).
  - destruct H as (out & I & P & S).
    apply In_nth_error in I. destruct I as [i I].
    apply parsed_output_at in I. destruct I as (vout & E & ->).
    exists i. split.
    + apply nth_error_Some. congruence.
    + apply (proj2 (parse_output_spent os i vout)). exact S.
  - destruct H as (i & L & S).
    apply nth_error_Some in L.
    destruct (nth_error (get_or (tx_vout tx) []) i) as [vout|] eqn:E;
      [|congruence].
    exists (parse_output os i vout). split; [|split].
    + apply (nth_error_In _ i). apply parsed_output_at.
      exists vout. split; [exact E | reflexivity].
    + apply (proj1 (parse_output_spent os i vout)).
      destruct S as (o & A & B & _). exists o. tauto.
    + apply (proj2 (parse_output_spent os i vout)). exact S.
Qed.

(** Parsing and the neighbour rule together: without outspend data a
    transaction has no forward neighbours; with it, the forward neighbours
    are the non-empty txids the outspend records name as spending one of
    its outputs; and a coinbase transaction has no backward neighbours. *)
Theorem parsed_neighbors (tx : EsploraTx) (d : Z)
  (os : option (list Outspend)) :
  _get_neighbors (_parse_tx tx d None) "forward" = []
  /\ (forall t,
        In t (_get_neighbors (_parse_tx tx d os) "forward")
        <-> t <> EmptyString
            /\ exists i,
                 (i < List.length (get_or (tx_vout tx) []))%nat
                 /\ spent_by os i t)
  /\ ((exists vin, In vin (get_or (tx_vin tx) [])
                   /\ vin_is_coinbase vin = Some true) ->
      is_coinbase (_parse_tx tx d os) = true
      /\ _get_neighbors (_parse_tx tx d os) "backward" = []).
Proof.
  split; [|split].
  - apply nothing_in_nil. intros t H.
    apply parsed_forward_neighbors in H.
    destruct H as (_ & i & _ & (o & E & _)). discriminate E.
  - apply parsed_forward_neighbors.
  - intros (vin & I & C).
    assert (CB : is_coinbase (_parse_tx tx d os) = true).
    { unfold _parse_tx. cbn [is_coinbase]. apply existsb_exists.
      exists vin. split; [exact I|]. rewrite C. reflexivity. }
    split; [exact CB|].
    apply nothing_in_nil. intros t H.
    rewrite get_neighbors_backward in H.
    apply backward_neighbors_spec in H. destruct H as (_ & F & _).
    congruence.
Qed.

Lemma parsed_neighbors_witness :
  is_coinbase (_parse_tx coinbase_tx 0 None) = true
  /\ _get_neighbors (_parse_tx coinbase_tx 0 None) "backward" = [].
Proof.
  apply (proj2 (proj2 (parsed_neighbors coinbase_tx 0 None))).
  eexists. split; [left; reflexivity | reflexivity].
Defined.

(** ** Edges *)

Lemma In_dict_mem {V} (d : list (string * V)) (k : string) (v : V) :
  In (k, v) d -> dict_mem d k = true.
Proof.
  unfold dict_mem.
  induction d as [|[k' v'] d IH]; cbn [In dict_get]; intros H; [destruct H|].
  destruct (String.eqb_spec k' k) as [_|N]; [reflexivity|].
  destruct H as [E|H]; [injection E as E _; contradiction|].
  apply IH. exact H.
Qed.

Lemma In_edges_of (ns : list (string * GraphNode)) (node : GraphNode)
  (e : GraphEdge) :
  In e (edges_of ns node)
  <-> resolved node = true
      /\ exists i out t,
           nth_error (outputs node) i = Some out
           /\ spent out = true /\ spending_txid out = Some t
           /\ t <> EmptyString /\ dict_mem ns t = true
           /\ e = edge_of_output node i out t.
Proof.
  unfold edges_of. destruct (resolved node).
  - rewrite in_flat_map. split.
    + intros ([i out] & I & H). cbn [fst snd] in H.
      apply In_enumerate in I.
      destruct (spending_txid out) as [t|] eqn:S; [|destruct H].
      destruct (spent out) eqn:P; cbn [andb] in H; [|destruct H].
      cbn [truthy_opt] in H.
      destruct (String.eqb_spec t EmptyString) as [->|N]; cbn in H;
        [destruct H|].
      destruct (dict_mem ns t) eqn:M; [|destruct H].
      destruct H as [<-|[]].
      split; [reflexivity|]. exists i, out, t. repeat split; assumption.
    + intros (_ & i & out & t & I & P & S & N & M & ->).
      exists (i, out). split; [apply In_enumerate; exact I|].
      cbn [fst snd]. rewrite S, P, M. cbn [andb truthy_opt].
      destruct (String.eqb_spec t EmptyString); [contradiction|].
      left. reflexivity.
  - split; [intros [] | intros [H _]; discriminate H].
Qed.

(** The edge list holds exactly one edge for each spent output of a
    resolved node whose non-empty spending txid is a key of the node map,
    carrying the address, value and index of that output. *)
Theorem build_edges_spec (r : GraphResult) (e : GraphEdge) :
  In e (_build_edges r)
  <-> exists k node i out t,
        In (k, node) (nodes r) /\ resolved node = true
        /\ nth_error (outputs node) i = Some out
        /\ spent out = true /\ spending_txid out = Some t
        /\ t <> EmptyString /\ dict_mem (nodes r) t = true
        /\ e = edge_of_output node i out t.
Proof.
  unfold _build_edges. rewrite in_flat_map. split.
  - intros (node & I & H). apply in_map_iff in I.
    destruct I as ([k n] & <- & I). cbn [snd] in H.
    apply In_edges_of in H. destruct H as (R & i & out & t & H).
    exists k, n, i, out, t. tauto.
  - intros (k & node & i & out & t & I & R & H).
    exists node. split.
    + apply in_map_iff. exists (k, node). split; [reflexivity | exact I].
    + apply In_edges_of. split; [exact R|]. exists i, out, t. exact H.
Qed.

(** Every edge ends at a key of the node map and starts at a resolved node
    of the map; when the nodes are stored under their own txids, both ends
    of every edge are keys. *)
Theorem edge_endpoints_are_nodes (r : GraphResult) (e : GraphEdge) :
  In e (_build_edges r) ->
  dict_mem (nodes r) (to_txid e) = true
  /\ (exists k node,
        In (k, node) (nodes r) /\ resolved node = true
        /\ txid node = from_txid e)
  /\ (keyed_by_txid (nodes r) -> dict_mem (nodes r) (from_txid e) = true).
Proof.
  intros H. unfold _build_edges in H. apply in_flat_map in H.
  destruct H as (node & I & H). apply in_map_iff in I.
  destruct I as ([k n] & <- & I). cbn [snd] in H.
  apply In_edges_of in H.
  destruct H as (R & i & out & t & _ & _ & _ & _ & M & ->).
  cbn [edge_of_output to_txid from_txid].
  split; [exact M|]. split.
  - exists k, n. tauto.
  - intros K. unfold keyed_by_txid in K. rewrite Forall_forall in K.
    specialize (K _ I). cbn [fst snd] in K. rewrite <- K.
    apply (In_dict_mem _ _ _ I).
Qed.

Lemma edge_endpoints_witness :
  Forall (fun e => dict_mem (nodes sample_graph) (from_txid e) = true
                   /\ dict_mem (nodes sample_graph) (to_txid e) = true)
         (_build_edges sample_graph)
  /\ List.length (_build_edges sample_graph) = 1%nat.
Proof.
  split; [|reflexivity].
  apply Forall_forall. intros e H.
  destruct (edge_endpoints_are_nodes sample_graph e H) as (T & _ & F).
  split; [|exact T].
  apply F. repeat constructor.
Defined.

Lemma build_edges_witness :
  In (edge_of_output (_parse_tx sample_tx 0 (Some sample_outspends)) 0
        (parse_output (Some sample_outspends) 0
           {| vout_scriptpubkey_address := Some "bob";
              vout_value := Some 500;
              vout_scriptpubkey_type := Some "v1_p2tr" |})
        "next")
     (_build_edges sample_graph).
Proof.
  apply (proj2 (build_edges_spec sample_graph _)).
  exists "root", (_parse_tx sample_tx 0 (Some sample_outspends)), 0%nat.
  eexists _, "next".
  split; [left; reflexivity|].
  repeat split; discriminate.
Defined.

End GraphFacts.

(* ================================================================== *)
(** * Patterns, dormancy and request counts *)
(* ================================================================== *)

Module ResolutionFacts.

Import Py Core Http Graph ProviderSpec GraphSpec ProviderFacts.
Local Open Scope string_scope.
Local Open Scope Z_scope.

Lemma hex_is_alnum (c : ascii) : is_hex c = true -> is_alnum c = true.
Proof.
  destruct c as [[] [] [] [] [] [] [] []]; vm_compute; intros H;
    try reflexivity; discriminate H.
Qed.

Lemma string_length_app (a b : string) :
  String.length (a ++ b) = (String.length a + String.length b)%nat.
Proof.
  rewrite <- !chars_length, chars_app. apply length_app.
Qed.

(** The two patterns overlap: among the stripped targets that are
    transaction ids, the address pattern accepts exactly those that begin
    with [bc1]. *)
Theorem patterns_overlap_on_bc1 (target : string) :
  TXID_PATTERN_match (strip target) = true ->
  (ADDRESS_PATTERN_match (strip target) = true
   <-> exists rest, strip target = "bc1" ++ rest).
Proof.
  intros T. apply TXID_PATTERN_spec in T. destruct T as [L H].
  rewrite ADDRESS_PATTERN_spec. unfold address_shape_code, prefixed_alnum.
  split.
  - intros (prefix & body & (E & P & _) & B).
    rewrite E, string_length_app in L.
    cbn [In] in P. destruct P as [<-|[<-|[<-|[]]]]; cbn in L.
    + exfalso. lia.
    + exfalso. lia.
    + exists body. exact E.
  - intros (rest & E). exists "bc1", rest.
    split; [split; [exact E | split; [cbn; tauto|]]|].
    + rewrite E, chars_app in H. apply Forall_app in H. destruct H as [_ H].
      revert H. apply Forall_impl. exact hex_is_alnum.
    + rewrite E, string_length_app in L. cbn in L. lia.
Qed.

Lemma patterns_overlap_witness :
  ADDRESS_PATTERN_match (strip bc1_txid) = true.
Proof.
  apply (proj2 (patterns_overlap_on_bc1 bc1_txid eq_refl)).
  eexists. reflexivity.
Defined.

Lemma spent_from_spec (ns : list (string * GraphNode)) (address : string) :
  existsb
    (fun node =>
       resolved node
       && existsb (fun inp => opt_str_eqb (in_address inp) address)
                  (inputs node))
    (map snd ns) = false
  <-> never_spent_from ns address.
Proof.
  unfold never_spent_from. split.
  - intros F k node inp I R J E.
    assert (T : existsb
                  (fun node =>
                     resolved node
                     && existsb (fun inp => opt_str_eqb (in_address inp) address)
                                (inputs node))
                  (map snd ns) = true); [|congruence].
    apply existsb_exists. exists node. split.
    + apply in_map_iff. exists (k, node). split; [reflexivity | exact I].
    + rewrite R. cbn [andb]. apply existsb_exists. exists inp.
      split; [exact J|]. rewrite E. cbn. apply String.eqb_refl.
  - intros N.
    destruct (existsb _ (map snd ns)) eqn:E; [|reflexivity].
    exfalso. apply existsb_exists in E. destruct E as (node & I & H).
    apply in_map_iff in I. destruct I as ([k n] & <- & I). cbn [snd] in H.
    apply andb_true_iff in H. destruct H as [R H].
    apply existsb_exists in H. destruct H as (inp & J & H).
    apply (N k n inp I R J).
    unfold opt_str_eqb in H. destruct (in_address inp) as [a|]; [|discriminate H].
    apply String.eqb_eq in H. congruence.
Qed.


(** A target that is a transaction id beginning with [bc1] is flagged as a
    dormant address when the traversal never left depth zero and no
    resolved node has the target as an input address. *)
Theorem bc1_txid_flagged_dormant (target : string) (r : GraphResult) :
  TXID_PATTERN_match (strip target) = true ->
  (exists rest, strip target = "bc1" ++ rest) ->
  max_depth_reached r = 0 ->
  never_spent_from (nodes r) (strip target) ->
  is_dormant (bfs_post_process target r) = true
  /\ dormancy_note (bfs_post_process target r) = DORMANCY_NOTE.
Proof.
  intros T B D N.
  assert (A : ADDRESS_PATTERN_match (strip target) = true).
  { apply ADDRESS_PATTERN_spec.
    apply TXID_PATTERN_spec in T. destruct T as [L H].
    destruct B as [rest E]. exists "bc1", rest.
    split; [split; [exact E | split; [cbn; tauto|]]|].
    - rewrite E, chars_app in H. apply Forall_app in H. destruct H as [_ H].
      revert H. apply Forall_impl. exact hex_is_alnum.
    - rewrite E, string_length_app in L. cbn in L. lia. }
  apply spent_from_spec in N.
  unfold bfs_post_process. cbn [is_dormant dormancy_note].
  rewrite A, D, N. split; reflexivity.
Qed.

Lemma bc1_txid_flagged_dormant_witness :
  is_dormant (bfs_post_process bc1_txid (new_GraphResult bc1_txid bc1_txid))
  = true.
Proof.
  apply (bc1_txid_flagged_dormant bc1_txid (new_GraphResult bc1_txid bc1_txid)).
  - reflexivity.
  - eexists. reflexivity.
  - reflexivity.
  - intros k node inp [].
Defined.


(** ** How many requests a fetch makes *)

Lemma fetch_tx_events (base_url limiter txid : string) (w : World) :
  exists j pend evs,
    _fetch_tx base_url limiter txid w
    = (Ok j, {| pending := pend; trace := (trace w ++ evs)%list |})
    /\ ((evs = single_request limiter (base_url ++ "/tx/" ++ txid)
         /\ count_gets evs = 1%nat
         /\ forall r rest, pending w = Responded r :: rest ->
                           status_code r <> 429)
        \/ (evs = retry_trace limiter (base_url ++ "/tx/" ++ txid)
            /\ count_gets evs = 2%nat
            /\ exists r rest, pending w = Responded r :: rest
                              /\ status_code r = 429)).
Proof.
  destruct w as [pend tr]. cbn [pending trace].
  destruct pend as [|[[st bd]|] rest].
  - eexists _, _, _. split.
    + unfold _fetch_tx. run_http. rewrite <- !app_assoc. reflexivity.
    + left. split; [reflexivity|]. split; [reflexivity|].
      intros r rest E. discriminate E.
  - destruct (Z.eqb_spec st 429) as [->|N].
    + eexists _, _, _. split.
      * apply (fetch_tx_retries_once base_url limiter txid
                 (mkResponse 429 bd) rest tr eq_refl).
      * right. split; [reflexivity|]. split; [reflexivity|].
        exists (mkResponse 429 bd), rest. split; reflexivity.
    + unfold _fetch_tx. run_http.
      destruct (st =? 404) eqn:E4.
      * eexists _, _, _. split;
          [rewrite <- !app_assoc; reflexivity|].
        left. split; [reflexivity|]. split; [reflexivity|].
        intros r rest' E. injection E as <- _. exact N.
      * destruct (Z.eqb_spec st 429) as [|_]; [contradiction|].
        destruct ((200 <=? st) && (st <? 300)); [destruct bd|];
          (eexists _, _, _; split;
           [rewrite <- !app_assoc; reflexivity|];
           left; split; [reflexivity|]; split; [reflexivity|];
           intros r rest' E; injection E as <- _; exact N).
  - eexists _, _, _. split.
    + unfold _fetch_tx. run_http. rewrite <- !app_assoc. reflexivity.
    + left. split; [reflexivity|]. split; [reflexivity|].
      intros r rest' E. discriminate E.
Qed.

(** One call of [_fetch_tx] never raises and sends one request, or two
    when the first answer is a 429: it acquires the limiter, asks, and
    releases, with the sleep and the second request in between in the 429
    case only. *)
Theorem fetch_tx_request_count (base_url limiter txid : string) (w : World) :
  exists j pend evs,
    _fetch_tx base_url limiter txid w
    = (Ok j, {| pending := pend; trace := (trace w ++ evs)%list |})
    /\ ((evs = single_request limiter (base_url ++ "/tx/" ++ txid)
         /\ count_gets evs = 1%nat
         /\ forall r rest, pending w = Responded r :: rest ->
                           status_code r <> 429)
        \/ (evs = retry_trace limiter (base_url ++ "/tx/" ++ txid)
            /\ count_gets evs = 2%nat
            /\ exists r rest, pending w = Responded r :: rest
                              /\ status_code r = 429)).
Proof. exact (fetch_tx_events base_url limiter txid w). Qed.

Lemma count_gets_app (a b : list Event) :
  count_gets (a ++ b) = (count_gets a + count_gets b)%nat.
Proof. unfold count_gets. rewrite filter_app, length_app. reflexivity. Qed.

Lemma fetch_tx_events_short (base_url limiter txid : string) (w : World) :
  exists j pend evs,
    _fetch_tx base_url limiter txid w
    = (Ok j, {| pending := pend; trace := (trace w ++ evs)%list |})
    /\ (1 <= count_gets evs <= 2)%nat
    /\ forall other, In (EvAcquire other) evs -> other = limiter.
Proof.
  destruct (fetch_tx_events base_url limiter txid w)
    as (j & pend & evs & E & [(-> & C & _)|(-> & C & _)]);
    exists j, pend; eexists; (split; [exact E|]);
    (split; [rewrite C; lia|]);
    intros other H; cbn in H;
    repeat destruct H as [H|H]; try discriminate H; try contradiction;
    injection H as <-; reflexivity.
Qed.

(** The fallback policy: a transaction fetch never raises and sends between
    one and four requests; the fallback provider is contacted exactly when
    the primary yields not-found, and a document from the primary is the
    answer. *)
Theorem fetch_tx_fallback_policy (txid : string) (w : World) :
  exists primary w1 j pend evs,
    _fetch_tx MEMPOOL_BASE MEMPOOL_LIMITER txid w = (Ok primary, w1)
    /\ _fetch_tx_with_fallback txid w
       = (Ok j, {| pending := pend; trace := (trace w ++ evs)%list |})
    /\ (1 <= count_gets evs <= 4)%nat
    /\ (In (EvAcquire BLOCKSTREAM_LIMITER) evs <-> primary = JNull)
    /\ (primary <> JNull -> j = primary).
Proof.
  destruct (fetch_tx_events_short MEMPOOL_BASE MEMPOOL_LIMITER txid w)
    as (j1 & pend1 & evs1 & E1 & C1 & A1).
  exists j1, {| pending := pend1; trace := (trace w ++ evs1)%list |}.
  unfold _fetch_tx_with_fallback, bind. rewrite E1.
  destruct (is_not_none j1) eqn:N.
  - exists j1, pend1, evs1. split; [reflexivity|]. split; [reflexivity|].
    split; [lia|]. split; [|reflexivity]. split.
    + intros H. apply A1 in H. discriminate H.
    + intros ->. discriminate N.
  - assert (J : j1 = JNull) by (destruct j1; try discriminate N; reflexivity).
    destruct (fetch_tx_events_short BLOCKSTREAM_BASE BLOCKSTREAM_LIMITER txid
                {| pending := pend1; trace := (trace w ++ evs1)%list |})
      as (j2 & pend2 & evs2 & E2 & C2 & A2).
    cbn [trace] in E2. rewrite <- app_assoc in E2.
    exists j2, pend2, (evs1 ++ evs2)%list.
    split; [reflexivity|]. split; [exact E2|].
    split; [rewrite count_gets_app; lia|]. split; [|contradiction].
    split; [intros _; exact J|]. intros _.
    apply in_or_app. right.
    destruct (fetch_tx_events BLOCKSTREAM_BASE BLOCKSTREAM_LIMITER txid
                {| pending := pend1; trace := (trace w ++ evs1)%list |})
      as (j3 & pend3 & evs3 & E3 & H3).
    cbn [trace] in E3. rewrite <- app_assoc in E3.
    rewrite E2 in E3. injection E3 as _ _ E3.
    apply app_inv_head in E3. apply app_inv_head in E3. subst evs3.
    destruct H3 as [(-> & _)|(-> & _)]; left; reflexivity.
Qed.

End ResolutionFacts.

(* ================================================================== *)
(** * Complexity metrics: patterns, bounds and counts *)
(* ================================================================== *)

Module MetricsFacts.

Import Py Core Complexity CostModel CostSpec PyFacts CostFacts CostOrderFacts.
Local Open Scope string_scope.
Local Open Scope Z_scope.

(** The shape tests of [_classify_tx_pattern] exclude one another, so
    apart from the CoinJoin override each pattern is decided by its own
    test, whatever the order of the tests. *)
Theorem classify_tx_pattern_spec (node : GraphNode) (is_coinjoin : bool) :
  let n_in := len (inputs node) in
  let n_out := len (outputs node) in
  let p := fst (_classify_tx_pattern node is_coinjoin) in
  (p = COINJOIN <-> is_coinjoin = true)
  /\ (p = CONSOLIDATION <-> is_coinjoin = false /\ 5 <= n_in /\ n_out <= 2)
  /\ (p = PEEL_CHAIN <-> is_coinjoin = false /\ n_in <= 2 /\ n_out = 2)
  /\ (p = FAN_OUT <-> is_coinjoin = false /\ n_in <= 3 /\ 5 <= n_out)
  /\ (p = SIMPLE
      <-> is_coinjoin = false
          /\ ~ (5 <= n_in /\ n_out <= 2)
          /\ ~ (n_in <= 2 /\ n_out = 2)
          /\ ~ (n_in <= 3 /\ 5 <= n_out)).
Proof.
  cbv zeta. unfold _classify_tx_pattern.
  set (n_in := len (inputs node)). set (n_out := len (outputs node)).
  destruct is_coinjoin; cbn [fst].
  - repeat split; intros; try reflexivity; try discriminate;
      exfalso; intuition discriminate.
  - destruct (Z.leb_spec 5 n_in); destruct (Z.leb_spec n_out 2);
      destruct (Z.leb_spec n_in 2); destruct (Z.eqb_spec n_out 2);
      destruct (Z.leb_spec n_in 3); destruct (Z.leb_spec 5 n_out);
      cbn [andb fst];
      repeat split; intros; try discriminate; try reflexivity; try lia;
      try (exfalso; intuition lia).
Qed.

Lemma fold_add_shift (l : list Z) (a : Z) :
  fold_left Z.add l a = a + fold_left Z.add l 0.
Proof.
  revert a. induction l as [|x l IH]; intros a; cbn [fold_left]; [lia|].
  rewrite (IH (a + x)), (IH (0 + x)). lia.
Qed.

Lemma sum_bounded (l : list Z) (b : Z) :
  (forall y, In y l -> y <= b) -> sum l <= len l * b.
Proof.
  unfold sum, len. induction l as [|x l IH]; intros H; cbn [fold_left List.length].
  - lia.
  - rewrite fold_add_shift, Nat2Z.inj_succ.
    assert (x <= b) by (apply H; left; reflexivity).
    assert (fold_left Z.add l 0 <= Z.of_nat (List.length l) * b)
      by (apply IH; intros y Hy; apply H; right; exact Hy).
    lia.
Qed.

Lemma fold_max_bound (l : list Z) (x : Z) :
  x <= fold_left Z.max l x /\ forall y, In y l -> y <= fold_left Z.max l x.
Proof.
  revert x. induction l as [|z l IH]; intros x; cbn [fold_left].
  - split; [lia | intros y []].
  - destruct (IH (Z.max x z)) as [A B]. split; [lia|].
    intros y [<-|Hy]; [lia | apply B; exact Hy].
Qed.

Lemma max_list_bound (l : list Z) (y : Z) : In y l -> y <= max_list l.
Proof.
  destruct l as [|x l]; [intros []|]. cbn [max_list].
  destruct (fold_max_bound l x) as [A B].
  intros [<-|Hy]; [exact A | apply B; exact Hy].
Qed.

(** The average of a list of counts, as the code reports it, is at most
    the maximum it reports. *)
Lemma average_at_most_max (l : list Z) :
  (round match l with
         | [] => 1
         | _ => inject_Z (sum l) / inject_Z (len l)
         end 2
   <= inject_Z match l with [] => 1 | _ => max_list l end)%Q.
Proof.
  destruct l as [|x l'] eqn:E.
  - rewrite (round_integer 1 2). apply Qle_refl.
  - rewrite <- E.
    rewrite <- (round_integer (max_list l) 2). apply round_mono.
    assert (P : 0 < len l) by (rewrite E; unfold len; cbn; lia).
    apply Qle_shift_div_r.
    + replace 0%Q with (inject_Z 0) by reflexivity. rewrite <- Zlt_Qlt. exact P.
    + rewrite <- inject_Z_mult, <- Zle_Qle.
      pose proof (sum_bounded l (max_list l) (max_list_bound l)). lia.
Qed.

Lemma ratio_in_unit (k n : Z) :
  0 <= k <= n -> 0 < n ->
  (0 <= round (inject_Z k / inject_Z n) 4
   /\ round (inject_Z k / inject_Z n) 4 <= 1)%Q.
Proof.
  intros K N.
  assert (PN : (0 < inject_Z n)%Q)
    by (replace 0%Q with (inject_Z 0) by reflexivity;
        rewrite <- Zlt_Qlt; exact N).
  split.
  - rewrite <- (round_integer 0 4) at 1. apply round_mono.
    apply Qle_shift_div_l; [exact PN|].
    rewrite <- inject_Z_mult, <- Zle_Qle. lia.
  - rewrite <- (round_integer 1 4). apply round_mono.
    apply Qle_shift_div_r; [exact PN|].
    rewrite <- inject_Z_mult, <- Zle_Qle. lia.
Qed.

Lemma len_filter_le {A} (f : A -> bool) (l : list A) :
  0 <= len (filter f l) <= len l.
Proof.
  unfold len. pose proof (filter_length_le f l). lia.
Qed.

(** Open [compute_complexity] on a graph with at least one node. *)
Ltac open_complexity g :=
  unfold compute_complexity;
  destruct (attribution_summary g);
  destruct (Py.dict_get (nodes g) (root_txid g)) as [?root|];
  try match goal with
      | root : GraphNode |- _ =>
          destruct (resolved root);
          try destruct (_classify_tx_pattern root _)
      end.

(** Whatever the graph, the Taproot ratio lies between 0 and 1, the
    attribution rate is not negative, and each reported average is at most
    the maximum reported beside it. *)
Theorem metrics_bounds (g : GraphResult) :
  let m := compute_complexity g in
  (0 <= taproot_ratio m /\ taproot_ratio m <= 1
   /\ 0 <= attribution_rate m
   /\ avg_branch_factor m <= inject_Z (max_branch_factor m)
   /\ avg_fan_in m <= inject_Z (max_fan_in m))%Q.
Proof.
  cbv zeta.
  destruct (map snd (nodes g)) as [|n0 ns] eqn:E.
  - unfold compute_complexity. rewrite E. cbn. repeat split; discriminate.
  - assert (T : (0 <= round
                        match flat_map script_types_of
                                (filter resolved (n0 :: ns)) with
                        | [] => 0
                        | _ =>
                            inject_Z
                              (len (filter (fun st => ScriptType_eqb st P2TR)
                                      (flat_map script_types_of
                                         (filter resolved (n0 :: ns)))))
                            / inject_Z
                                (len (flat_map script_types_of
                                        (filter resolved (n0 :: ns))))
                        end 4
                 /\ round
                      match flat_map script_types_of
                              (filter resolved (n0 :: ns)) with
                      | [] => 0
                      | _ =>
                          inject_Z
                            (len (filter (fun st => ScriptType_eqb st P2TR)
                                    (flat_map script_types_of
                                       (filter resolved (n0 :: ns)))))
                          / inject_Z
                              (len (flat_map script_types_of
                                      (filter resolved (n0 :: ns))))
                      end 4 <= 1)%Q).
    { destruct (flat_map script_types_of (filter resolved (n0 :: ns)))
        as [|s0 ss] eqn:S.
      - rewrite (round_integer 0 4). split; discriminate.
      - apply ratio_in_unit; [apply len_filter_le | unfold len; cbn; lia]. }
    assert (A : (0 <= round
                        (inject_Z
                           (len_set
                              (flat_map
                                 (fun node => map fst (attributed_entities node))
                                 (n0 :: ns)))
                         / inject_Z
                             (Z.max (len_set (addresses_seen g)) 1)) 4)%Q).
    { rewrite <- (round_integer 0 4) at 1. apply round_mono.
      apply Qle_shift_div_l.
      - replace 0%Q with (inject_Z 0) by reflexivity. rewrite <- Zlt_Qlt. lia.
      - rewrite <- inject_Z_mult, <- Zle_Qle. unfold len_set, len. lia. }
    pose proof (average_at_most_max
                  (map (fun n => len (outputs n)) (filter resolved (n0 :: ns))))
      as B.
    pose proof (average_at_most_max
                  (map (fun n => len (inputs n))
                       (filter (fun n => resolved n && negb (is_coinbase n))
                               (n0 :: ns))))
      as F.
    open_complexity g; rewrite E;
      cbn [taproot_ratio attribution_rate avg_branch_factor max_branch_factor
           avg_fan_in max_fan_in];
      (split; [apply T|]); (split; [apply T|]); (split; [exact A|]);
      (split; [exact B | exact F]).
Qed.

Lemma filter_split_length {A} (f : A -> bool) (l : list A) :
  len (filter f l) + len (filter (fun x => negb (f x)) l) = len l.
Proof.
  unfold len. induction l as [|x l IH]; cbn [filter]; [reflexivity|].
  destruct (f x); cbn [negb List.length]; lia.
Qed.

Lemma filter_and_le {A} (f h : A -> bool) (l : list A) :
  len (filter (fun x => f x && h x) l) <= len (filter f l).
Proof.
  unfold len. induction l as [|x l IH]; cbn [filter]; [lia|].
  destruct (f x); destruct (h x); cbn [andb List.length]; lia.
Qed.

(** Counts of the metrics: failed fetches and flagged transactions are
    disjoint parts of the nodes, the mixing count is the length of the
    list of flagged txids, and CoinJoin is detected exactly when that list
    is not empty. *)
Theorem metrics_counts (g : GraphResult) :
  let m := compute_complexity g in
  node_count m = len (nodes g)
  /\ 0 <= unresolved_paths m
  /\ 0 <= mixing_signals m
  /\ mixing_signals m + unresolved_paths m <= node_count m
  /\ mixing_signals m = len (mixing_txids m)
  /\ (coinjoin_detected m = true <-> mixing_txids m <> []).
Proof.
  cbv zeta.
  destruct (map snd (nodes g)) as [|n0 ns] eqn:E.
  - unfold compute_complexity. rewrite E. cbn.
    assert (L : len (nodes g) = 0).
    { destruct (nodes g); [reflexivity | discriminate E]. }
    rewrite L. repeat split; try lia; try discriminate.
    intros H. contradiction.
  - assert (L : len (nodes g) = len (n0 :: ns))
      by (rewrite <- E; unfold len; rewrite length_map; reflexivity).
    set (flagged :=
           filter (fun node => resolved node && _is_coinjoin node) (n0 :: ns)).
    assert (ML : len (map txid flagged) = len flagged)
      by (unfold len; rewrite length_map; reflexivity).
    pose proof (filter_split_length resolved (n0 :: ns)) as P.
    pose proof (filter_and_le resolved _is_coinjoin (n0 :: ns)) as Q.
    fold flagged in Q.
    pose proof (len_filter_le (fun n => negb (resolved n)) (n0 :: ns)) as U.
    pose proof (len_filter_le (fun n => resolved n && _is_coinjoin n)
                              (n0 :: ns)) as M.
    fold flagged in M.
    assert (D : (0 <? len (map txid flagged)) = true
                <-> map txid flagged <> []).
    { rewrite Z.ltb_lt, ML. destruct flagged; cbn [map]; unfold len; cbn.
      - split; [lia | intros H; contradiction].
      - split; [discriminate | lia]. }
    open_complexity g; rewrite E;
      cbn [node_count unresolved_paths mixing_signals mixing_txids
           coinjoin_detected];
      fold flagged;
      (split; [symmetry; exact L|]);
      (split; [lia|]); (split; [lia|]); (split; [lia|]);
      (split; [reflexivity | exact D]).
Qed.

End MetricsFacts.

(* ================================================================== *)
(** * The attribution pipeline: index, tiers, summary, consumers *)
(* ================================================================== *)

Module PipelineFacts.

Import Py Core Http CostModel CostSpec Attribution AttributionSpec PipelineSpec.
Import ProviderSpec PyFacts ProviderFacts AttributionFacts MetricsFacts.
Local Open Scope string_scope.
Local Open Scope Z_scope.

(** ** Dictionaries *)

Lemma dict_mem_In {V} (d : list (string * V)) (k : string) :
  dict_mem d k = true <-> In k (map fst d).
Proof.
  unfold dict_mem. induction d as [|[k' v] d IH]; cbn [dict_get map fst In].
  - split; [discriminate | intros []].
  - destruct (String.eqb_spec k' k) as [->|N].
    + split; [intros _; left; reflexivity | reflexivity].
    + rewrite IH. split; [intros H; right; exact H|].
      intros [E|H]; [contradiction | exact H].
Qed.

Lemma dict_mem_not_In {V} (d : list (string * V)) (k : string) :
  dict_mem d k = false <-> ~ In k (map fst d).
Proof.
  rewrite <- dict_mem_In.
  destruct (dict_mem d k); split; intros H;
    try reflexivity; try discriminate H;
    [exfalso; apply H; reflexivity | intros X; discriminate X].
Qed.

Lemma dict_set_present {V} (d : list (string * V)) (k : string) (v : V) :
  In k (map fst d) -> map fst (dict_set d k v) = map fst d.
Proof.
  induction d as [|[k' v'] d IH]; cbn [dict_set map fst In]; [intros []|].
  intros H. destruct (String.eqb_spec k' k) as [->|N]; [reflexivity|].
  cbn [map fst]. rewrite IH; [reflexivity|].
  destruct H as [E|H]; [contradiction | exact H].
Qed.

Lemma dict_set_absent {V} (d : list (string * V)) (k : string) (v : V) :
  ~ In k (map fst d) -> dict_set d k v = (d ++ [(k, v)])%list.
Proof.
  induction d as [|[k' v'] d IH]; cbn [dict_set map fst In app]; [reflexivity|].
  intros H. destruct (String.eqb_spec k' k) as [->|N].
  - exfalso. apply H. left. reflexivity.
  - rewrite IH; [reflexivity|]. intros X. apply H. right. exact X.
Qed.

Lemma dict_set_keys {V} (d : list (string * V)) (k a : string) (v : V) :
  In a (map fst (dict_set d k v)) <-> a = k \/ In a (map fst d).
Proof.
  rewrite <- !dict_mem_In, dict_mem_set.
  destruct (String.eqb_spec k a) as [->|N]; cbn [orb].
  - split; [intros _; left; reflexivity | reflexivity].
  - split; [intros H; right; exact H|].
    intros [->|H]; [contradiction | exact H].
Qed.

Lemma dict_set_nodup {V} (d : list (string * V)) (k : string) (v : V) :
  NoDup (map fst d) -> NoDup (map fst (dict_set d k v)).
Proof.
  intros N. destruct (in_dec string_dec k (map fst d)) as [I|I].
  - rewrite dict_set_present; assumption.
  - rewrite dict_set_absent by exact I. rewrite map_app. cbn [map fst].
    apply NoDup_app; [exact N | repeat constructor; intros [] |].
    intros a Ha [<-|[]]. exact (I Ha).
Qed.

Lemma dict_set_idem {V} (d : list (string * V)) (k : string) (v : V) :
  dict_set (dict_set d k v) k v = dict_set d k v.
Proof.
  induction d as [|[k' v'] d IH]; cbn [dict_set].
  - rewrite String.eqb_refl. reflexivity.
  - destruct (String.eqb_spec k' k) as [->|N]; cbn [dict_set].
    + rewrite String.eqb_refl. reflexivity.
    + destruct (String.eqb_spec k' k); [contradiction|]. rewrite IH. reflexivity.
Qed.


Lemma dict_get_Some_In {V} (d : list (string * V)) (k : string) (v : V) :
  dict_get d k = Some v -> In k (map fst d).
Proof.
  intros E. apply dict_mem_In. unfold dict_mem. rewrite E. reflexivity.
Qed.

(** ** The address index *)

Lemma index_opt_keys (t : string) (an : list (string * list string))
  (o : option string) (a : string) :
  In a (map fst (index_opt t an o))
  <-> (o = Some a /\ a <> EmptyString) \/ In a (map fst an).
Proof.
  unfold index_opt. destruct o as [x|].
  - destruct (String.eqb_spec x EmptyString) as [->|N].
    + split; [intros H; right; exact H|].
      intros [[E H]|H]; [|exact H].
      injection E as <-. contradiction.
    + unfold index_address. rewrite dict_set_keys. split.
      * intros [->|H]; [left; split; [reflexivity | exact N] | right; exact H].
      * intros [[E _]|H]; [injection E as ->; left; reflexivity | right; exact H].
  - split; [intros H; right; exact H|].
    intros [[E _]|H]; [discriminate E | exact H].
Qed.

Lemma index_opt_nodup (t : string) (an : list (string * list string))
  (o : option string) :
  NoDup (map fst an) -> NoDup (map fst (index_opt t an o)).
Proof.
  intros N. unfold index_opt. destruct o as [x|]; [|exact N].
  destruct (String.eqb x EmptyString); [exact N|].
  apply dict_set_nodup. exact N.
Qed.

Lemma index_opt_nodes_of (t : string) (an : list (string * list string))
  (o : option string) (a t' : string) :
  In t' (nodes_of (index_opt t an o) a)
  <-> (o = Some a /\ a <> EmptyString /\ t' = t) \/ In t' (nodes_of an a).
Proof.
  unfold index_opt. destruct o as [x|].
  - destruct (String.eqb_spec x EmptyString) as [->|N].
    + split; [intros H; right; exact H|].
      intros [(E & H & _)|H]; [|exact H].
      injection E as <-. contradiction.
    + unfold index_address, nodes_of. rewrite dict_get_set.
      destruct (String.eqb_spec x a) as [->|D].
      * destruct (dict_get an a) as [l|].
        -- rewrite in_app_iff. cbn [In]. split.
           ++ intros [H|[<-|[]]]; [right; exact H|].
              left. repeat split. exact N.
           ++ intros [(_ & _ & ->)|H]; [right; left; reflexivity | left; exact H].
        -- cbn [In]. split.
           ++ intros [<-|[]]. left. repeat split. exact N.
           ++ intros [(_ & _ & ->)|[]]. left. reflexivity.
      * split; [intros H; right; exact H|].
        intros [(E & _)|H]; [injection E as E; contradiction | exact H].
  - split; [intros H; right; exact H|].
    intros [(E & _)|H]; [discriminate E | exact H].
Qed.

Lemma fold_index_opt_keys (t : string) (l : list (option string))
  (an : list (string * list string)) (a : string) :
  In a (map fst (fold_left (index_opt t) l an))
  <-> (In (Some a) l /\ a <> EmptyString) \/ In a (map fst an).
Proof.
  revert an. induction l as [|o l IH]; intros an; cbn [fold_left In].
  - split; [intros H; right; exact H | intros [[[] _]|H]; exact H].
  - rewrite IH, index_opt_keys. split.
    + intros [[H N]|[[E N]|H]].
      * left. split; [right; exact H | exact N].
      * left. split; [left; exact E | exact N].
      * right. exact H.
    + intros [[[E|H] N]|H].
      * right. left. split; assumption.
      * left. split; assumption.
      * right. right. exact H.
Qed.

Lemma fold_index_opt_nodup (t : string) (l : list (option string))
  (an : list (string * list string)) :
  NoDup (map fst an) -> NoDup (map fst (fold_left (index_opt t) l an)).
Proof.
  revert an. induction l as [|o l IH]; intros an N; cbn [fold_left].
  - exact N.
  - apply IH, index_opt_nodup, N.
Qed.

Lemma fold_index_opt_nodes_of (t : string) (l : list (option string))
  (an : list (string * list string)) (a t' : string) :
  In t' (nodes_of (fold_left (index_opt t) l an) a)
  <-> (In (Some a) l /\ a <> EmptyString /\ t' = t) \/ In t' (nodes_of an a).
Proof.
  revert an. induction l as [|o l IH]; intros an; cbn [fold_left In].
  - split; [intros H; right; exact H | intros [([] & _)|H]; exact H].
  - rewrite IH, index_opt_nodes_of. split.
    + intros [(H & N)|[(E & N)|H]].
      * left. split; [right; exact H | exact N].
      * left. split; [left; exact E | exact N].
      * right. exact H.
    + intros [([E|H] & N)|H].
      * right. left. split; assumption.
      * left. split; assumption.
      * right. right. exact H.
Qed.

Lemma touches_spec (node : GraphNode) (a : string) :
  In (Some a) (map in_address (inputs node))
  \/ In (Some a) (map out_address (outputs node))
  <-> touches node a.
Proof.
  unfold touches. rewrite !in_map_iff. split.
  - intros [(i & E & H)|(o & E & H)]; [left; exists i | right; exists o];
      split; assumption.
  - intros [(i & H & E)|(o & H & E)]; [left; exists i | right; exists o];
      split; assumption.
Qed.

Lemma index_node_keys (an : list (string * list string)) (node : GraphNode)
  (a : string) :
  In a (map fst (index_node an node))
  <-> (a <> EmptyString /\ touches node a) \/ In a (map fst an).
Proof.
  unfold index_node. rewrite !fold_index_opt_keys, <- touches_spec. tauto.
Qed.

Lemma index_node_nodup (an : list (string * list string)) (node : GraphNode) :
  NoDup (map fst an) -> NoDup (map fst (index_node an node)).
Proof.
  intros N. unfold index_node. apply fold_index_opt_nodup, fold_index_opt_nodup, N.
Qed.

Lemma index_node_nodes_of (an : list (string * list string))
  (node : GraphNode) (a t' : string) :
  In t' (nodes_of (index_node an node) a)
  <-> (a <> EmptyString /\ t' = txid node /\ touches node a)
      \/ In t' (nodes_of an a).
Proof.
  unfold index_node. rewrite !fold_index_opt_nodes_of, <- touches_spec. tauto.
Qed.

Lemma fold_index_node_keys (l : list GraphNode)
  (an : list (string * list string)) (a : string) :
  In a (map fst (fold_left index_node l an))
  <-> (a <> EmptyString /\ exists node, In node l /\ touches node a)
      \/ In a (map fst an).
Proof.
  revert an. induction l as [|n l IH]; intros an; cbn [fold_left In].
  - split; [intros H; right; exact H|].
    intros [(_ & node & [] & _)|H]; exact H.
  - rewrite IH, index_node_keys. split.
    + intros [(N & node & H & T)|[(N & T)|H]].
      * left. split; [exact N|]. exists node. split; [right; exact H | exact T].
      * left. split; [exact N|]. exists n. split; [left; reflexivity | exact T].
      * right. exact H.
    + intros [(N & node & [<-|H] & T)|H].
      * right. left. split; assumption.
      * left. split; [exact N|]. exists node. split; assumption.
      * right. right. exact H.
Qed.

Lemma fold_index_node_nodup (l : list GraphNode)
  (an : list (string * list string)) :
  NoDup (map fst an) -> NoDup (map fst (fold_left index_node l an)).
Proof.
  revert an. induction l as [|n l IH]; intros an N; cbn [fold_left].
  - exact N.
  - apply IH, index_node_nodup, N.
Qed.

Lemma fold_index_node_nodes_of (l : list GraphNode)
  (an : list (string * list string)) (a t' : string) :
  In t' (nodes_of (fold_left index_node l an) a)
  <-> (a <> EmptyString
       /\ exists node, In node l /\ txid node = t' /\ touches node a)
      \/ In t' (nodes_of an a).
Proof.
  revert an. induction l as [|n l IH]; intros an; cbn [fold_left In].
  - split; [intros H; right; exact H|].
    intros [(_ & node & [] & _)|H]; exact H.
  - rewrite IH, index_node_nodes_of. split.
    + intros [(N & node & H & E & T)|[(N & E & T)|H]].
      * left. split; [exact N|]. exists node.
        split; [right; exact H | split; assumption].
      * left. split; [exact N|]. exists n.
        split; [left; reflexivity | split; [symmetry; exact E | exact T]].
      * right. exact H.
    + intros [(N & node & [<-|H] & E & T)|H].
      * right. left. split; [exact N | split; [symmetry; exact E | exact T]].
      * left. split; [exact N|]. exists node. split; [exact H | split; assumption].
      * right. right. exact H.
Qed.

Lemma index_nodup (g : GraphResult) : NoDup (map fst (build_address_nodes g)).
Proof. apply fold_index_node_nodup. constructor. Qed.

Lemma In_map_snd {A B} (l : list (A * B)) (b : B) :
  In b (map snd l) <-> exists a, In (a, b) l.
Proof.
  rewrite in_map_iff. split.
  - intros ([a b'] & E & H). cbn in E. subst b'. exists a. exact H.
  - intros (a & H). exists (a, b). split; [reflexivity | exact H].
Qed.

Lemma index_nodes_of (g : GraphResult) (a t : string) :
  In t (nodes_of (build_address_nodes g) a) <-> address_in_node g a t.
Proof.
  unfold build_address_nodes, address_in_node.
  rewrite fold_index_node_nodes_of. split.
  - intros [(N & node & H & E & T)|[]].
    split; [exact N|]. apply In_map_snd in H. destruct H as (k & H).
    exists k, node. repeat split; assumption.
  - intros (N & k & node & H & E & T). left. split; [exact N|].
    exists node. split; [|split; assumption].
    apply In_map_snd. exists k. exact H.
Qed.

Lemma index_keys (g : GraphResult) (a : string) :
  In a (map fst (build_address_nodes g)) <-> address_of_graph g a.
Proof.
  unfold build_address_nodes, address_of_graph, address_in_node.
  rewrite fold_index_node_keys. split.
  - intros [(N & node & H & T)|[]].
    apply In_map_snd in H. destruct H as (k & H).
    exists (txid node). split; [exact N|].
    exists k, node. repeat split; assumption.
  - intros (t & N & k & node & H & _ & T). left. split; [exact N|].
    exists node. split; [|exact T].
    apply In_map_snd. exists k. exact H.
Qed.

(** The index [attribute_graph] builds has one key for each non-empty
    address of an input or an output of the graph, none twice, and lists
    under each address the txids of the nodes that use it. *)
Theorem address_index_spec (g : GraphResult) :
  NoDup (map fst (build_address_nodes g))
  /\ (forall a, In a (map fst (build_address_nodes g))
                <-> address_of_graph g a)
  /\ (forall a t, In t (nodes_of (build_address_nodes g) a)
                  <-> address_in_node g a t).
Proof.
  split; [apply index_nodup|]. split.
  - apply index_keys.
  - apply index_nodes_of.
Qed.


(** ** Applying an attribution *)

Lemma set_attributed_idem (n : GraphNode) (address : string) (ent : json) :
  set_attributed (set_attributed n address ent) address ent
  = set_attributed n address ent.
Proof.
  unfold set_attributed. cbn. rewrite dict_set_idem. reflexivity.
Qed.

Lemma apply_attribution_nodes (g : GraphResult) (txids : list string)
  (address : string) (ent : json) (t : string) :
  dict_get (nodes (_apply_attribution g txids address ent)) t
  = match dict_get (nodes g) t with
    | Some n =>
        Some (if existsb (String.eqb t) txids
              then set_attributed n address ent else n)
    | None => None
    end.
Proof.
  unfold _apply_attribution. revert g.
  induction txids as [|t0 txids IH]; intros g; cbn [fold_left existsb].
  - destruct (dict_get (nodes g) t); reflexivity.
  - rewrite IH. clear IH.
    destruct (dict_get (nodes g) t0) as [n0|] eqn:E0.
    + cbn [with_nodes nodes]. rewrite dict_get_set.
      rewrite (String.eqb_sym t t0).
      destruct (String.eqb_spec t0 t) as [->|N]; cbn [orb].
      * rewrite E0. rewrite set_attributed_idem.
        destruct (existsb _ txids); reflexivity.
      * destruct (dict_get (nodes g) t); reflexivity.
    + destruct (String.eqb_spec t t0) as [->|N]; cbn [orb].
      * rewrite E0. reflexivity.
      * reflexivity.
Qed.

Lemma apply_attribution_keys (g : GraphResult) (txids : list string)
  (address : string) (ent : json) :
  map fst (nodes (_apply_attribution g txids address ent)) = map fst (nodes g).
Proof.
  unfold _apply_attribution. revert g.
  induction txids as [|t0 txids IH]; intros g; cbn [fold_left].
  - reflexivity.
  - rewrite IH. destruct (dict_get (nodes g) t0) as [n0|] eqn:E0.
    + cbn [with_nodes nodes]. apply dict_set_present.
      apply (dict_get_Some_In _ _ _ E0).
    + reflexivity.
Qed.

Lemma apply_attribution_rest (g : GraphResult) (txids : list string)
  (address : string) (ent : json) :
  _apply_attribution g txids address ent
  = with_nodes g (nodes (_apply_attribution g txids address ent)).
Proof.
  unfold _apply_attribution. revert g.
  induction txids as [|t0 txids IH]; intros g; cbn [fold_left].
  - destruct g. reflexivity.
  - rewrite IH at 1. destruct (dict_get (nodes g) t0); reflexivity.
Qed.

(** [_apply_attribution] touches nothing but the attributed entities of the
    nodes it is given: the graph keeps its nodes, in order, and everything
    beside them; a node listed in [txids] maps [address] to the entity, and
    every other entry of every node stays as it was. *)
Theorem apply_attribution_spec (g : GraphResult) (txids : list string)
  (address : string) (ent : json) :
  let g' := _apply_attribution g txids address ent in
  g' = with_nodes g (nodes g')
  /\ map fst (nodes g') = map fst (nodes g)
  /\ forall t,
       match dict_get (nodes g) t with
       | None => dict_get (nodes g') t = None
       | Some n =>
           exists n',
             dict_get (nodes g') t = Some n'
             /\ same_transaction n n'
             /\ (forall a, a <> address ->
                   dict_get (attributed_entities n') a
                   = dict_get (attributed_entities n) a)
             /\ dict_get (attributed_entities n') address
                = if existsb (String.eqb t) txids then Some ent
                  else dict_get (attributed_entities n) address
       end.
Proof.
  cbv zeta. split; [apply apply_attribution_rest|].
  split; [apply apply_attribution_keys|].
  intros t. rewrite apply_attribution_nodes.
  destruct (dict_get (nodes g) t) as [n|]; [|reflexivity].
  eexists. split; [reflexivity|].
  destruct (existsb (String.eqb t) txids).
  - split; [repeat split|]. cbn [set_attributed attributed_entities].
    split.
    + intros a N. rewrite dict_get_set.
      destruct (String.eqb_spec address a) as [->|_]; [contradiction|].
      reflexivity.
    + rewrite dict_get_set, String.eqb_refl. reflexivity.
  - split; [repeat split|]. split; reflexivity.
Qed.


(** ** The locals stay consistent *)

Lemma tally_set (d : list (string * Z)) (k : string) (v : Z) :
  tally (dict_set d k v)
  = tally d - match dict_get d k with Some n => n | None => 0 end + v.
Proof.
  unfold tally, Complexity.sum.
  induction d as [|[k' v'] d IH]; cbn [dict_set dict_get map snd fold_left].
  - lia.
  - destruct (String.eqb k' k); cbn [map snd fold_left].
    + rewrite (fold_add_shift _ (0 + v)), (fold_add_shift _ (0 + v')). lia.
    + rewrite (fold_add_shift _ (0 + v')),
        (fold_add_shift (map snd d) (0 + v')), IH. lia.
Qed.

Lemma tally_bump (d : list (string * Z)) (k : string) :
  tally (bump d k) = tally d + 1.
Proof. unfold bump. rewrite tally_set. lia. Qed.

Lemma len_snoc {A} (l : list A) (x : A) :
  Complexity.len (l ++ [x]) = Complexity.len l + 1.
Proof. unfold Complexity.len. rewrite length_app. cbn. lia. Qed.

Lemma record_match_consistent (g0 : GraphResult)
  (an : list (string * list string)) (st : Locals) (x : string)
  (ar : AttributionResult) (b : bool) :
  consistent g0 st ->
  In x (map fst (build_address_nodes g0)) ->
  ~ In x (map fst (resolved_ st)) ->
  ar_address ar = x ->
  consistent g0 (record_match an st x ar b).
Proof.
  intros (R & N & I & S & C & K) U F A. unfold consistent.
  cbn [record_match results resolved_ by_source_ by_category_ graph].
  split; [|split; [|split; [|split; [|split]]]].
  - rewrite dict_set_absent by exact F. rewrite !map_app, R. cbn [map fst].
    rewrite A. reflexivity.
  - apply dict_set_nodup, N.
  - intros a Ha. apply dict_set_keys in Ha.
    destruct Ha as [->|Ha]; [exact U | apply I, Ha].
  - rewrite tally_bump, len_snoc, S. reflexivity.
  - rewrite len_snoc.
    destruct (b && negb (String.eqb (category ar) EmptyString));
      [rewrite tally_bump|]; lia.
  - rewrite apply_attribution_keys. exact K.
Qed.

Lemma consistent_with_graph (g0 g' : GraphResult) (st : Locals) :
  nodes g' = nodes (graph st) ->
  consistent g0 st -> consistent g0 (with_graph st g').
Proof.
  intros E (R & N & I & S & C & K). unfold consistent.
  cbn [with_graph results resolved_ by_source_ by_category_ graph].
  rewrite E. repeat split; try assumption; apply C.
Qed.

Lemma for_each_consistent (g0 : GraphResult)
  (an : list (string * list string)) (step : Locals -> string -> M Locals) :
  records_or_skips an step ->
  forall l st w,
    NoDup l ->
    incl l (map fst (build_address_nodes g0)) ->
    (forall a, In a l -> ~ In a (map fst (resolved_ st))) ->
    consistent g0 st ->
    exists st' w',
      for_each step l st w = (Ok st', w')
      /\ consistent g0 st'
      /\ incl (map fst (resolved_ st')) (map fst (resolved_ st) ++ l).
Proof.
  intros RS. induction l as [|x l IH]; intros st w ND IN FR C; cbn [for_each].
  - exists st, w. split; [reflexivity|]. split; [exact C|].
    rewrite app_nil_r. apply incl_refl.
  - destruct (RS st x w) as (st1 & w1 & E & H).
    unfold bind. rewrite E.
    inversion ND as [|? ? NX ND']; subst.
    assert (C1 : consistent g0 st1
                 /\ incl (map fst (resolved_ st1))
                         (map fst (resolved_ st) ++ [x])).
    { destruct H as [->|(ar & b & A & ->)].
      - split; [exact C|]. apply incl_appl, incl_refl.
      - split.
        + apply record_match_consistent; [exact C | | | exact A].
          * apply IN. left. reflexivity.
          * apply FR. left. reflexivity.
        + cbn [record_match resolved_]. intros a Ha.
          apply dict_set_keys in Ha. apply in_or_app.
          destruct Ha as [->|Ha]; [right; left; reflexivity | left; exact Ha]. }
    destruct C1 as [C1 I1].
    destruct (IH st1 w1 ND') as (st' & w' & E' & C' & I').
    + intros a Ha. apply IN. right. exact Ha.
    + intros a Ha X. apply I1 in X. apply in_app_or in X.
      destruct X as [X|[<-|[]]].
      * exact (FR a (or_intror Ha) X).
      * exact (NX Ha).
    + exact C1.
    + exists st', w'. split; [exact E'|]. split; [exact C'|].
      intros a Ha. apply I' in Ha. apply in_app_or in Ha.
      apply in_or_app. destruct Ha as [Ha|Ha].
      * apply I1 in Ha. apply in_app_or in Ha.
        destruct Ha as [Ha|[<-|[]]]; [left; exact Ha | right; left; reflexivity].
      * right. right. exact Ha.
Qed.

Lemma for_each_ret {A S} (f : S -> A -> S) (l : list A) (st : S) (w : World) :
  for_each (fun st x => ret (f st x)) l st w = (Ok (fold_left f l st), w).
Proof.
  revert st. induction l as [|x l IH]; intros st; cbn [for_each fold_left].
  - reflexivity.
  - unfold bind, ret at 1. apply IH.
Qed.

(** ** The three loop bodies *)

Lemma lookup_shape (db : EntityDatabase) (a : string) (r : AttributionResult) :
  lookup db a = Some r ->
  ar_address r = a /\ source r = "local_db"
  /\ ar_confidence r <> EmptyString.
Proof.
  unfold lookup. destruct (_using_sqlite db).
  - destruct (dict_get (_rows db) a) as [row|]; [|discriminate].
    intros E. injection E as <-. cbn. split; [reflexivity|].
    split; [reflexivity|]. unfold str_or.
    destruct (row_confidence row) as [c|]; [|discriminate].
    destruct (String.eqb_spec c EmptyString); [discriminate | assumption].
  - destruct (dict_get (_fallback db) a) as [e|]; [|discriminate].
    intros E. injection E as <-. cbn. split; [reflexivity|].
    split; [reflexivity | discriminate].
Qed.

Lemma tier1_records_or_skips (db : EntityDatabase)
  (an : list (string * list string)) :
  records_or_skips an (fun st x => ret (tier1_step db an st x)).
Proof.
  intros st x w. eexists _, w. split; [reflexivity|].
  unfold tier1_step. destruct (lookup db x) as [r|] eqn:E.
  - right. exists r, true. split; [|reflexivity].
    apply (lookup_shape _ _ _ E).
  - left. reflexivity.
Qed.

Lemma tier2_records_or_skips (an : list (string * list string)) :
  records_or_skips an (tier2_step an).
Proof.
  intros st x w. unfold tier2_step, bind.
  destruct (query_walletexplorer_trace x w) as (j & pend & ->).
  destruct (truthy j); eexists _, _; (split; [reflexivity|]).
  - right. eexists _, false. split; [|reflexivity]. reflexivity.
  - left. reflexivity.
Qed.

Lemma returns_only_raise {A} (P : A -> Prop) : returns_only P (@raise A).
Proof. intros w a w' E. discriminate E. Qed.

Lemma query_arkham_shape (address api_key : string) :
  returns_only
    (fun r => forall ar, r = Some ar ->
                ar_address ar = address /\ source ar = "arkham"
                /\ ar_confidence ar = "probable"
                /\ truthy (entity ar) = true)
    (_query_arkham address api_key).
Proof.
  unfold _query_arkham.
  apply returns_only_with_limiter, returns_only_try;
    [|apply returns_only_ret; discriminate].
  repeat (apply returns_only_bind; intros ?).
  match goal with
  | |- returns_only _ (if ?b then _ else _) => destruct b eqn:T
  end; [|apply returns_only_ret; discriminate].
  apply returns_only_bind. intros ty.
  destruct ty; try apply returns_only_raise.
  apply returns_only_ret. intros ar E. injection E as <-.
  repeat split. exact T.
Qed.

Lemma tier3_records_or_skips (an : list (string * list string))
  (api_key : string) :
  records_or_skips an (tier3_step an api_key).
Proof.
  intros st x w. unfold tier3_step, bind.
  destruct (query_arkham_trace x api_key w) as (r & pend & E).
  pose proof (query_arkham_shape x api_key _ _ _ E) as H. rewrite E.
  destruct r as [ar|]; eexists _, _; (split; [reflexivity|]).
  - right. exists ar, true. split; [|reflexivity]. apply (H ar eq_refl).
  - left. reflexivity.
Qed.


(** ** The pipeline *)

Lemma unmatched_fresh (all : list string)
  (r : list (string * AttributionResult)) (a : string) :
  In a (unmatched_of all r) <-> In a all /\ ~ In a (map fst r).
Proof.
  unfold unmatched_of. rewrite filter_In, <- dict_mem_not_In.
  destruct (dict_mem r a); cbn [negb]; split; intros [H N]; split;
    try assumption; try reflexivity; discriminate.
Qed.

Lemma firstn_In {A} (n : nat) (l : list A) (a : A) :
  In a (firstn n l) -> In a l.
Proof.
  intros H. rewrite <- (firstn_skipn n l). apply in_or_app. left. exact H.
Qed.

Lemma firstn_NoDup {A} (n : nat) (l : list A) :
  NoDup l -> NoDup (firstn n l).
Proof.
  intros H. rewrite <- (firstn_skipn n l) in H.
  exact (NoDup_app_remove_r _ _ H).
Qed.

Lemma slice_to_prefix {A} (l : list A) (k : Z) :
  exists n, slice_to l k = firstn n l.
Proof. unfold slice_to. destruct (k <? 0); eexists; reflexivity. Qed.

Lemma to_query_prefix (um : list string) (we_limit : option Z) :
  exists n, to_query_of um we_limit = firstn n um.
Proof.
  unfold to_query_of. destruct we_limit as [L|]; [apply slice_to_prefix|].
  exists (List.length um). rewrite firstn_all. reflexivity.
Qed.

Lemma tier2_consistent (g : GraphResult) (skip : bool) (we_limit : option Z)
  (st : Locals) (w : World) :
  consistent g st ->
  exists st' w',
    tier2 (build_address_nodes g) (map fst (build_address_nodes g))
          skip we_limit st w = (Ok st', w')
    /\ consistent g st'.
Proof.
  intros C. unfold tier2. cbv zeta.
  set (an := build_address_nodes g).
  set (um := unmatched_of (map fst an) (resolved_ st)).
  destruct skip; cbn [negb].
  - eexists _, w. split; [reflexivity|].
    apply consistent_with_graph; [reflexivity | exact C].
  - destruct (to_query_prefix um we_limit) as (n & Q). rewrite Q.
    match goal with
    | |- context [for_each _ _ ?s] => set (st1 := s)
    end.
    assert (C1 : consistent g st1).
    { subst st1. destruct we_limit as [L|]; [|exact C].
      destruct (L <? Complexity.len um); [|exact C].
      apply consistent_with_graph; [reflexivity | exact C]. }
    assert (R1 : resolved_ st1 = resolved_ st).
    { subst st1. destruct we_limit as [L|]; [|reflexivity].
      destruct (L <? Complexity.len um); reflexivity. }
    destruct (for_each_consistent g an _ (tier2_records_or_skips an)
                (firstn n um) st1 w) as (st2 & w2 & E2 & C2 & _).
    + apply firstn_NoDup, NoDup_filter, index_nodup.
    + intros a Ha. apply firstn_In in Ha.
      apply unmatched_fresh in Ha. apply Ha.
    + intros a Ha. apply firstn_In in Ha.
      apply unmatched_fresh in Ha. rewrite R1. apply Ha.
    + exact C1.
    + unfold bind. rewrite E2. eexists _, w2. split; [reflexivity|].
      apply consistent_with_graph; [reflexivity | exact C2].
Qed.

Lemma tier3_consistent (g : GraphResult) (arkham_key : option string)
  (st : Locals) (w : World) :
  consistent g st ->
  exists st' w',
    (if Complexity.truthy_str arkham_key
     then for_each
            (tier3_step (build_address_nodes g)
               match arkham_key with Some k => k | None => EmptyString end)
            (unmatched_of (map fst (build_address_nodes g)) (resolved_ st)) st
     else ret st) w = (Ok st', w')
    /\ consistent g st'.
Proof.
  intros C. destruct (Complexity.truthy_str arkham_key).
  - destruct (for_each_consistent g (build_address_nodes g) _
                (tier3_records_or_skips (build_address_nodes g)
                   match arkham_key with Some k => k | None => EmptyString end)
                (unmatched_of (map fst (build_address_nodes g)) (resolved_ st))
                st w) as (st3 & w3 & E3 & C3 & _).
    + apply NoDup_filter, index_nodup.
    + intros a Ha. apply unmatched_fresh in Ha. apply Ha.
    + intros a Ha. apply unmatched_fresh in Ha. apply Ha.
    + exact C.
    + exists st3, w3. split; assumption.
  - exists st, w. split; [reflexivity | exact C].
Qed.

Lemma tier1_consistent (db : EntityDatabase) (g : GraphResult) :
  consistent g
    (fold_left (tier1_step db (build_address_nodes g))
               (map fst (build_address_nodes g))
               {| graph := g; results := []; resolved_ := [];
                  by_source_ := []; by_category_ := [] |}).
Proof.
  set (st0 := {| graph := g; results := []; resolved_ := [];
                 by_source_ := []; by_category_ := [] |}).
  destruct (for_each_consistent g (build_address_nodes g) _
              (tier1_records_or_skips db (build_address_nodes g))
              (map fst (build_address_nodes g)) st0
              {| pending := []; trace := [] |})
    as (st1 & w1 & E1 & C1 & _).
  - apply index_nodup.
  - apply incl_refl.
  - intros a _ [].
  - unfold consistent, st0. cbn.
    repeat split; try lia; try constructor. intros a [].
  - rewrite for_each_ret in E1. injection E1 as -> _. exact C1.
Qed.

Lemma attribute_graph_consistent (db : EntityDatabase) (g : GraphResult)
  (skip : bool) (we_limit : option Z) (arkham_key : option string)
  (w : World) :
  exists st w',
    attribute_graph db g skip we_limit arkham_key w
    = (Ok (finish st (Complexity.len (map fst (build_address_nodes g)))
                  (["local_db"]
                     ++ (if negb skip then ["walletexplorer"] else [])
                     ++ (if Complexity.truthy_str arkham_key
                         then ["arkham"] else []))%list), w')
    /\ consistent g st.
Proof.
  unfold attribute_graph. cbv zeta.
  pose proof (tier1_consistent db g) as C1.
  match type of C1 with consistent _ ?s => set (st1 := s) in * end.
  destruct (tier2_consistent g skip we_limit st1 w C1)
    as (st2 & w2 & E2 & C2).
  destruct (tier3_consistent g arkham_key st2 w2 C2)
    as (st3 & w3 & E3 & C3).
  unfold bind at 1. rewrite E2.
  unfold bind at 1. rewrite E3.
  exists st3, w3. split; [reflexivity | exact C3].
Qed.







(** ** Tier 2 skipped *)

Lemma attribute_graph_skip_run (db : EntityDatabase) (g : GraphResult)
  (we_limit : option Z) (arkham_key : option string) (w : World) :
  exists g' w' events,
    attribute_graph db g true we_limit arkham_key w = (Ok g', w')
    /\ trace w' = (trace w ++ events)%list
    /\ we_queries events = []
    /\ warnings g' = warnings g
    /\ we_addresses_queried g' = 0
    /\ we_addresses_total_unmatched g'
       = Complexity.len (tier1_unmatched db g).
Proof.
  unfold attribute_graph. cbv zeta.
  set (an := build_address_nodes g).
  set (st0 := {| graph := g; results := []; resolved_ := [];
                 by_source_ := []; by_category_ := [] |}).
  set (st1 := fold_left (tier1_step db an) (map fst an) st0).
  assert (U : unmatched_of (map fst an) (resolved_ st1) = tier1_unmatched db g)
    by (apply tier1_leaves_unmatched; reflexivity).
  destruct (tier1_report db an (map fst an) st0) as (W1 & _).
  fold st1 in W1. cbn [graph st0] in W1.
  unfold tier2. cbn [negb]. cbv zeta. rewrite U.
  unfold bind at 1. unfold ret at 1.
  set (st2 := with_graph st1 _).
  destruct (Complexity.truthy_str arkham_key).
  - match goal with
    | |- context [bind (for_each (tier3_step an ?k) ?l st2) _ w] =>
        destruct (tier3_loop an k l st2 w)
          as (st3 & pend3 & E3 & (W3 & Q3 & T3));
        unfold bind; rewrite E3;
        eexists _, _, (flat_map (arkham_events k) l)
    end.
    split; [reflexivity|]. split; [reflexivity|].
    split; [apply we_queries_of_arkham|].
    cbn [finish warnings we_addresses_queried we_addresses_total_unmatched].
    rewrite W3, Q3, T3. subst st2.
    cbn [with_graph graph set_we_counts warnings we_addresses_queried
         we_addresses_total_unmatched].
    repeat split. exact W1.
  - unfold bind, ret. eexists _, _, [].
    split; [reflexivity|]. split; [symmetry; apply app_nil_r|].
    split; [reflexivity|]. subst st2.
    cbn [finish with_graph graph set_we_counts warnings we_addresses_queried
         we_addresses_total_unmatched].
    repeat split. exact W1.
Qed.

(** With Tier 2 skipped, [attribute_graph] sends no request to the cluster
    oracle, appends no warning, and reports zero addresses queried against
    the number Tier 1 left unmatched. *)
Theorem skipping_tier2_sends_no_cluster_query (db : EntityDatabase)
  (g : GraphResult) (we_limit : option Z) (arkham_key : option string)
  (w : World) :
  exists g' w' events,
    attribute_graph db g true we_limit arkham_key w = (Ok g', w')
    /\ trace w' = (trace w ++ events)%list
    /\ we_queries events = []
    /\ warnings g' = warnings g
    /\ we_addresses_queried g' = 0
    /\ we_addresses_total_unmatched g'
       = Complexity.len (tier1_unmatched db g).
Proof. exact (attribute_graph_skip_run db g we_limit arkham_key w). Qed.

(** ** What Tier 2 asks *)

(** The cluster oracle is asked about each address at most once, only about
    addresses of the graph, and never about one the local store knows. *)
Theorem cluster_queries_distinct_and_unknown (db : EntityDatabase)
  (g : GraphResult) (we_limit : option Z) (arkham_key : option string)
  (w : World) :
  exists g' w' events,
    attribute_graph db g false we_limit arkham_key w = (Ok g', w')
    /\ trace w' = (trace w ++ events)%list
    /\ NoDup (we_queries events)
    /\ forall a, In a (we_queries events) ->
                 lookup db a = None /\ address_of_graph g a.
Proof.
  destruct (attribute_graph_run db g we_limit arkham_key w)
    as (g' & w' & events & E & T & Q & _).
  exists g', w', events. split; [exact E|]. split; [exact T|].
  rewrite Q. destruct (to_query_prefix (tier1_unmatched db g) we_limit)
    as (n & ->).
  split.
  - apply firstn_NoDup, NoDup_filter, index_nodup.
  - intros a Ha. apply firstn_In in Ha. unfold tier1_unmatched in Ha.
    apply filter_In in Ha. destruct Ha as [Ha N]. split.
    + unfold no_match in N. destruct (lookup db a); [discriminate N | reflexivity].
    + apply index_keys, Ha.
Qed.


(** ** Attribution, then complexity *)

Lemma sources_exhausted_nonempty (g : GraphResult) :
  nodes g <> [] ->
  sources_exhausted (Complexity.compute_complexity g)
  = (we_addresses_total_unmatched g <=? we_addresses_queried g).
Proof.
  intros N. destruct (map snd (nodes g)) as [|n0 ns] eqn:E.
  - destruct (nodes g); [contradiction | discriminate E].
  - open_complexity g; rewrite E; reflexivity.
Qed.

Lemma len_slice_to {A} (l : list A) (k : Z) :
  Complexity.len (slice_to l k)
  = if k <? 0 then Z.max 0 (Complexity.len l + k)
    else Z.min k (Complexity.len l).
Proof.
  unfold slice_to, Complexity.len.
  destruct (Z.ltb_spec k 0); rewrite length_firstn; lia.
Qed.

Lemma len_nil_iff {A} (l : list A) : Complexity.len l <= 0 <-> l = [].
Proof.
  unfold Complexity.len. destruct l; cbn [List.length]; split;
    intros H; try reflexivity; try lia; discriminate H.
Qed.

(** After attribution of a graph with at least one node, the metrics
    report the sources exhausted exactly when Tier 2 asked about every
    address Tier 1 left unmatched: always in thorough mode, under a cap
    when the cap is not below their number, and with Tier 2 skipped only
    when there was none. *)
Theorem attribution_exhausts_sources (db : EntityDatabase) (g : GraphResult)
  (skip : bool) (we_limit : option Z) (arkham_key : option string)
  (w : World) :
  nodes g <> [] ->
  exists g' w',
    attribute_graph db g skip we_limit arkham_key w = (Ok g', w')
    /\ (sources_exhausted (Complexity.compute_complexity g') = true
        <-> if skip then tier1_unmatched db g = []
            else match we_limit with
                 | None => True
                 | Some L =>
                     Complexity.len (tier1_unmatched db g) <= Z.max L 0
                 end).
Proof.
  intros NE.
  destruct (attribute_graph_consistent db g skip we_limit arkham_key w)
    as (st & w' & E & C).
  destruct C as (_ & _ & _ & _ & _ & K).
  eexists _, w'. split; [exact E|].
  rewrite sources_exhausted_nonempty.
  2:{ cbn [finish nodes]. intros X. rewrite X in K. cbn [map] in K.
      destruct (nodes g); [contradiction | discriminate K]. }
  rewrite Z.leb_le.
  destruct skip.
  - destruct (attribute_graph_skip_run db g we_limit arkham_key w)
      as (g2 & w2 & _ & E2 & _ & _ & _ & Q & T).
    rewrite E in E2. injection E2 as G _. rewrite <- G in Q, T.
    cbn [finish we_addresses_queried we_addresses_total_unmatched] in Q, T |- *.
    rewrite Q, T. apply len_nil_iff.
  - destruct (attribute_graph_run db g we_limit arkham_key w)
      as (g2 & w2 & _ & E2 & _ & _ & _ & Q & T).
    rewrite E in E2. injection E2 as G _. rewrite <- G in Q, T.
    cbn [finish we_addresses_queried we_addresses_total_unmatched] in Q, T |- *.
    rewrite Q, T. unfold to_query_of. destruct we_limit as [L|]; [|split; [trivial | lia]].
    rewrite len_slice_to.
    pose proof (Zle_0_nat (List.length (tier1_unmatched db g))) as P.
    fold (Complexity.len (tier1_unmatched db g)) in P.
    destruct (Z.ltb_spec L 0); lia.
Qed.

Lemma attribution_exhausts_sources_witness :
  exists g' w',
    attribute_graph small_db small_graph false None None silent_world
    = (Ok g', w')
    /\ (sources_exhausted (Complexity.compute_complexity g') = true <-> True).
Proof.
  apply (attribution_exhausts_sources small_db small_graph false None None
           silent_world).
  discriminate.
Defined.

(** ** Complexity, then cost *)






(** ** The two oracles *)

(** One lookup against the cluster oracle never raises, sends exactly one
    request inside the limiter and consumes one answer; it yields a label
    only from a 2xx answer whose JSON object has a true [found] or
    [_found], and the label is then its [label] or its [wallet_name]. *)
Theorem walletexplorer_lookup_spec (address : string) (w : World) :
  exists j,
    _query_walletexplorer address w
    = (Ok j, {| pending := tl (pending w);
                trace := (trace w ++ we_events address)%list |})
    /\ (j <> JNull ->
        exists r d,
          hd_error (pending w) = Some (Responded r)
          /\ found_answer r d
          /\ (j = field d "label" \/ j = field d "wallet_name")).
Proof.
  destruct w as [pend tr].
  unfold _query_walletexplorer, we_events. run_http. cbn [tl hd_error].
  destruct pend as [|[[st bd]|] rest]; cbn [tl hd_error].
  - eexists. split; [rewrite <- !app_assoc; reflexivity|].
    intros H. contradiction H. reflexivity.
  - destruct ((200 <=? st) && (st <? 300)) eqn:S.
    + destruct bd as [[| | | | |d]|]; cbn [json_get].
      all: try (eexists; split; [rewrite <- !app_assoc; reflexivity|];
                intros H; contradiction H; reflexivity).
      fold (field d "found") (field d "_found") (field d "label")
           (field d "wallet_name").
      assert (A : 200 <= st < 300).
      { apply andb_true_iff in S. destruct S as [S1 S2].
        apply Z.leb_le in S1. apply Z.ltb_lt in S2. lia. }
      destruct (truthy (field d "found")) eqn:F1;
        [rewrite F1|destruct (truthy (field d "_found")) eqn:F2];
        try destruct (truthy (field d "label")) eqn:L;
        (eexists; split; [rewrite <- !app_assoc; reflexivity|]);
        intros H; try (contradiction H; reflexivity);
        exists (mkResponse st (Some (JDict d))), d;
        (split; [reflexivity|]);
        (split; [split; [exact A|]; split; [reflexivity|]; auto|]); auto.
    + eexists. split; [rewrite <- !app_assoc; reflexivity|].
      intros H. contradiction H. reflexivity.
  - eexists. split; [rewrite <- !app_assoc; reflexivity|].
    intros H. contradiction H. reflexivity.
Qed.


#[local] Hint Resolve leaves_world_ret leaves_world_raise leaves_world_lift
  leaves_world_raise_for_status leaves_world_json_of : pure.

Lemma guarded_request_consumes {A} (limiter url : string)
  (params headers : list (string * string)) (k : Response -> M A) (d : A) :
  (forall r, leaves_world (k r)) ->
  forall w, exists a,
    with_limiter limiter
      (try_except (bind (client_get url params headers) k) (ret d)) w
    = (Ok a,
       {| pending := tl (pending w);
          trace := (trace w ++ [EvAcquire limiter;
                                EvGet url params headers;
                                EvRelease limiter])%list |})
    /\ (a = d
        \/ exists r w1,
             hd_error (pending w) = Some (Responded r)
             /\ fst (k r w1) = Ok a).
Proof.
  intros Pk [pend tr].
  unfold with_limiter, try_except, bind, client_get, emit, ret.
  cbn [pending trace].
  destruct pend as [|[r|] rest]; cbn [tl hd_error].
  - eexists. split; [cbn [pending trace]; rewrite <- !app_assoc; reflexivity|].
    left. reflexivity.
  - pose proof (Pk r) as Pr.
    match goal with
    | |- context [k r ?w1] =>
        specialize (Pr w1); destruct (k r w1) as [[a|] w2] eqn:K;
        cbn [snd] in Pr; subst w2
    end; eexists;
      (split; [cbn [pending trace]; rewrite <- !app_assoc; reflexivity|]).
    + right. eexists r, _. split; [reflexivity|]. rewrite K. reflexivity.
    + left. reflexivity.
  - eexists. split; [cbn [pending trace]; rewrite <- !app_assoc; reflexivity|].
    left. reflexivity.
Qed.

(** One lookup against the premium oracle never raises, sends exactly one
    request inside the limiter and consumes one answer; a result comes only
    from a 2xx answer, is for the address asked, names a non-empty entity,
    and is marked as probable and as coming from that oracle. *)
Theorem arkham_lookup_spec (address api_key : string) (w : World) :
  exists r,
    _query_arkham address api_key w
    = (Ok r, {| pending := tl (pending w);
                trace := (trace w ++ arkham_events api_key address)%list |})
    /\ forall ar, r = Some ar ->
         ar_address ar = address /\ source ar = "arkham"
         /\ ar_confidence ar = "probable"
         /\ truthy (entity ar) = true
         /\ exists resp,
              hd_error (pending w) = Some (Responded resp)
              /\ 200 <= status_code resp < 300.
Proof.
  pose proof (query_arkham_shape address api_key w) as Sh.
  unfold _query_arkham, arkham_events in *.
  match goal with
  | |- context [with_limiter ?l (try_except (bind (client_get ?u ?p ?h) ?k)
                                            (ret ?d))] =>
      assert (Pk : forall resp, leaves_world (k resp))
        by (intros resp; cbv beta; repeat pure_step);
      destruct (guarded_request_consumes l u p h k d Pk w) as (r & E & H);
      clear Pk
  end.
  exists r. split; [exact E|].
  intros ar ->.
  destruct (Sh _ _ E ar eq_refl) as (A1 & A2 & A3 & A4).
  repeat (split; [assumption|]).
  destruct H as [H|(resp & w1 & Hd & K)]; [discriminate H|].
  exists resp. split; [exact Hd|].
  unfold bind, raise_for_status in K.
  destruct ((200 <=? status_code resp) && (status_code resp <? 300)) eqn:S.
  - apply andb_true_iff in S. destruct S as [S1 S2].
    apply Z.leb_le in S1. apply Z.ltb_lt in S2. lia.
  - cbn in K. discriminate K.
Qed.

End PipelineFacts.
